(** * Module persistence subsystem: repository, seeding, HTTP layer, client

    A shallow embedding of
      - backend/database/db.js          (schema of the [modules] table),
      - the module repository           (getAllModules, createModule,
                                         updateModule, deleteModule,
                                         getModuleById),
      - backend/database/seedData.js    (default modules and seeding),
      - backend/server.js               (Express routes),
      - the client module API           (apiRequest and its callers),
    followed by the properties established about them.

    Conventions.  A JavaScript string is a [string] holding its UTF-8
    bytes.  A promise is a state transformer on the database returning
    [Resolve], [Reject] or [Uncaught].  The SQLite engine is modelled by
    the statements the code issues; the moment a statement runs and
    whether the engine reports an error for it are read from an
    environment indexed by the number of statements issued so far.
    Numbers are exact: an id stands for the integer it denotes, which a
    double does up to 2^53 - 1; what depends on the value or on the
    digits of an id is stated for ids up to that bound.  A timestamp is
    a number of seconds; what [new Date] makes of its text in the
    client is a function left open. *)

From Stdlib Require Import ZArith List String Ascii Bool Lia.
From Stdlib Require Import DecimalString DecimalPos Sorting.Sorted Sorting.Permutation.
Import ListNotations.

#[local] Set Warnings "-register-all".
#[local] Set Implicit Arguments.

Local Open Scope string_scope.
Local Open Scope Z_scope.

(* ================================================================= *)
(** ** JavaScript strings *)

Module Js.

(** Code of a byte. *)
Definition code (c : ascii) : Z := Z.of_nat (nat_of_ascii c).

(** One-byte members of WhiteSpace and LineTerminator:
    TAB, LF, VT, FF, CR, SP. *)
Definition isWs1 (c : ascii) : bool :=
  ((9 <=? code c) && (code c <=? 13)) || (code c =? 32).

(** Two-byte member: U+00A0. *)
Definition isWs2 (c1 c2 : ascii) : bool :=
  (code c1 =? 194) && (code c2 =? 160).

(** Three-byte members: U+1680, U+2000..U+200A, U+2028, U+2029, U+202F,
    U+205F, U+3000, U+FEFF. *)
Definition isWs3 (c1 c2 c3 : ascii) : bool :=
  ((code c1 =? 225) && (code c2 =? 154) && (code c3 =? 128))
  || ((code c1 =? 226) && (code c2 =? 128)
      && (((128 <=? code c3) && (code c3 <=? 138))
          || (code c3 =? 168) || (code c3 =? 169) || (code c3 =? 175)))
  || ((code c1 =? 226) && (code c2 =? 129) && (code c3 =? 159))
  || ((code c1 =? 227) && (code c2 =? 128) && (code c3 =? 128))
  || ((code c1 =? 239) && (code c2 =? 187) && (code c3 =? 191)).

(** [String.prototype.trimStart]. *)
Fixpoint trimStart (s : string) : string :=
  match s with
  | EmptyString => EmptyString
  | String c1 r1 =>
      if isWs1 c1 then trimStart r1 else
      match r1 with
      | EmptyString => s
      | String c2 r2 =>
          if isWs2 c1 c2 then trimStart r2 else
          match r2 with
          | EmptyString => s
          | String c3 r3 => if isWs3 c1 c2 c3 then trimStart r3 else s
          end
      end
  end.

(** The string consists of white space only. *)
Definition blank (s : string) : bool := (trimStart s =? "")%string.

(** [String.prototype.trimEnd]: the longest blank suffix is dropped. *)
Fixpoint trimEnd (s : string) : string :=
  match s with
  | EmptyString => EmptyString
  | String c r => if blank s then EmptyString else String c (trimEnd r)
  end.

(** [String.prototype.trim]. *)
Definition trim (s : string) : string := trimEnd (trimStart s).

(** [String.prototype.includes]. *)
Fixpoint includes (s needle : string) : bool :=
  String.prefix needle s
  || match s with
     | EmptyString => false
     | String _ r => includes r needle
     end.

(** Decimal rendering of an integer-valued number, [String(n)] and
    [`${n}`]: the digits of the integer, with a minus sign in front of
    a negative one.  JavaScript writes a number so as long as it is at
    most 2^53 - 1 in absolute value (beyond, it writes the digits of a
    rounded value, and an exponent from 1e21 on), so the function
    stands for [String(n)] within that range only. *)
Definition decimal (n : Z) : string := NilZero.string_of_int (Z.to_int n).

(* ----------------------------------------------------------------- *)
(** *** Numbers

    Only what the code inspects of a number is kept: whether it is NaN,
    whether it is an integer, and its sign.  [Frac f] is a finite number
    strictly between [f] and [f + 1]. *)

Inductive JsNum :=
| NaN
| Int (z : Z)
| Frac (floor : Z).

Definition isNaN (n : JsNum) : bool :=
  match n with NaN => true | _ => false end.

(** [!n] is false exactly for 0 and NaN. *)
Definition truthyNum (n : JsNum) : bool :=
  match n with NaN => false | Int z => negb (z =? 0) | Frac _ => true end.

Definition isInteger (n : JsNum) : bool :=
  match n with Int _ => true | _ => false end.

(** [n <= 0]; every comparison with NaN is false. *)
Definition leZero (n : JsNum) : bool :=
  match n with NaN => false | Int z => z <=? 0 | Frac f => f <? 0 end.

(* ----------------------------------------------------------------- *)
(** *** Values

    The values a parsed JSON body is made of, numbers and arrays left
    out, together with [undefined]. *)

Inductive JsVal :=
| VUndefined
| VNull
| VBool (b : bool)
| VStr (s : string)
| VObj (fields : list (string * JsVal)).

(** [!!v]. *)
Definition truthy (v : JsVal) : bool :=
  match v with
  | VUndefined | VNull => false
  | VBool b => b
  | VStr s => negb (s =? "")%string
  | VObj _ => true
  end.

Definition typeof (v : JsVal) : string :=
  match v with
  | VUndefined => "undefined"
  | VNull => "object"
  | VBool _ => "boolean"
  | VStr _ => "string"
  | VObj _ => "object"
  end.

Fixpoint lookup (k : string) (fs : list (string * JsVal)) : JsVal :=
  match fs with
  | [] => VUndefined
  | (k', v) :: r => if (k =? k')%string then v else lookup k r
  end.

(** [v.k] for a [v] that is neither null nor undefined; a primitive has
    none of the properties the code reads. *)
Definition get (v : JsVal) (k : string) : JsVal :=
  match v with
  | VObj fs => lookup k fs
  | _ => VUndefined
  end.

(** [a || b]. *)
Definition orDefault (a b : JsVal) : JsVal := if truthy a then a else b.

(** [v.trim()], called only where [typeof v === 'string'] holds. *)
Definition trimOf (v : JsVal) : string :=
  match v with VStr s => trim s | _ => "" end.

Definition nullish (v : JsVal) : bool :=
  match v with VUndefined | VNull => true | _ => false end.

End Js.

(* ================================================================= *)
(** ** Promises over the database *)

Module Store.

(** A row of the [modules] table (db.js).  [None] is SQL NULL.  The two
    DATETIME columns hold CURRENT_TIMESTAMP values, text of the form
    YYYY-MM-DD HH:MM:SS, kept here as the count of seconds they denote:
    their order as text is the order of the counts. *)
Record Row := mkRow {
  row_id : Z;
  row_prompt : string;
  en_name : string;
  en_description : option string;
  en_input_placeholder : option string;
  kn_name : string;
  kn_description : option string;
  kn_input_placeholder : option string;
  created_at : Z;
  updated_at : Z
}.

(** The statements the repository issues. *)
Inductive Stmt :=
| SelectAll
| InsertRow
| SelectRow (id : Z)
| SelectId (id : Z)
| UpdateRow (id : Z)
| DeleteRow (id : Z).

(** One executed statement: what it was, whether the engine reported an
    error, and [this.lastID] and [this.changes] as sqlite3 sets them
    (0 where they do not apply). *)
Record Exec := mkExec {
  stmt : Stmt;
  errored : bool;
  lastID : Z;
  changes : Z
}.

(** The database: the table in rowid order, the AUTOINCREMENT counter
    (sqlite_sequence: the largest rowid ever assigned) and the
    statements executed so far, oldest first. *)
Record Db := mkDb {
  rows : list Row;
  seq : Z;
  log : list Exec
}.

Definition emptyDb : Db := mkDb [] 0 [].

(** What the code cannot control: the value of CURRENT_TIMESTAMP when
    the k-th statement runs, and whether the engine fails the k-th
    statement. *)
Record Env := mkEnv {
  now : nat -> Z;
  fails : nat -> bool
}.

(** How a promise settles.  [Uncaught] is an exception thrown inside a
    driver callback, outside every [try]: the promise never settles. *)
Inductive Res (A : Type) :=
| Resolve (a : A)
| Reject (msg : string)
| Uncaught.
Arguments Reject {A} msg.
Arguments Uncaught {A}.

Definition M (A : Type) : Type := Db -> Res A * Db.

Definition resolve {A} (a : A) : M A := fun db => (Resolve a, db).
Definition reject {A} (msg : string) : M A := fun db => (Reject msg, db).
Definition uncaught {A} : M A := fun db => (Uncaught, db).

Definition bind {A B} (m : M A) (k : A -> M B) : M B :=
  fun db =>
    match m db with
    | (Resolve a, db') => k a db'
    | (Reject msg, db') => (Reject msg, db')
    | (Uncaught, db') => (Uncaught, db')
    end.

(** [if (err) { reject(new Error(msg)); return; }] in a callback, and
    [catch (error) { throw new Error(msg) }] around an [await]. *)
Definition orReject {A} (m : M A) (msg : string) : M A :=
  fun db =>
    match m db with
    | (Reject _, db') => (Reject msg, db')
    | r => r
    end.

Notation "x <- m ;; k" := (bind m (fun x => k))
  (at level 61, m at next level, right associativity).

(** Number of the next statement. *)
Definition tick (db : Db) : nat := List.length (log db).

Definition logged (db : Db) (e : Exec) (rs : list Row) (s : Z) : Db :=
  mkDb rs s (log db ++ [e])%list.

(** A statement the engine fails leaves the table as it is. *)
Definition failed {A} (st : Stmt) : M A :=
  fun db => (Reject "SQLITE_ERROR", logged db (mkExec st true 0 0) (rows db) (seq db)).

(* ----------------------------------------------------------------- *)
(** *** Queries *)

(** ORDER BY created_at DESC.  Rows with equal keys keep their table
    order. *)
Fixpoint insertDesc (r : Row) (l : list Row) : list Row :=
  match l with
  | [] => [r]
  | x :: t =>
      if created_at x <=? created_at r then r :: l else x :: insertDesc r t
  end.

Definition orderByCreatedAtDesc (l : list Row) : list Row :=
  fold_right insertDesc [] l.

(** [db.all] of SELECT ... FROM modules ORDER BY created_at DESC. *)
Definition selectAll (E : Env) : M (list Row) :=
  fun db =>
    if fails E (tick db) then failed SelectAll db
    else (Resolve (orderByCreatedAtDesc (rows db)),
          logged db (mkExec SelectAll false 0 0) (rows db) (seq db)).

Definition findRow (id : Z) (l : list Row) : option Row :=
  find (fun r => row_id r =? id) l.

(** [db.get] of SELECT ... FROM modules WHERE id = ?. *)
Definition selectRow (E : Env) (id : Z) : M (option Row) :=
  fun db =>
    if fails E (tick db) then failed (SelectRow id) db
    else (Resolve (findRow id (rows db)),
          logged db (mkExec (SelectRow id) false 0 0) (rows db) (seq db)).

(** [db.get] of SELECT id FROM modules WHERE id = ?. *)
Definition selectId (E : Env) (id : Z) : M (option Z) :=
  fun db =>
    if fails E (tick db) then failed (SelectId id) db
    else (Resolve (option_map row_id (findRow id (rows db))),
          logged db (mkExec (SelectId id) false 0 0) (rows db) (seq db)).

(* ----------------------------------------------------------------- *)
(** *** Data manipulation *)

(** The seven bound parameters of INSERT and UPDATE. *)
Record Params := mkParams {
  p_prompt : string;
  p_en_name : string;
  p_en_description : option string;
  p_en_input_placeholder : option string;
  p_kn_name : string;
  p_kn_description : option string;
  p_kn_input_placeholder : option string
}.

(** The row an INSERT of the seven columns adds: created_at and
    updated_at both take their default, CURRENT_TIMESTAMP, which is
    read once for the statement. *)
Definition newRow (p : Params) (id t : Z) : Row :=
  mkRow id (p_prompt p)
    (p_en_name p) (p_en_description p) (p_en_input_placeholder p)
    (p_kn_name p) (p_kn_description p) (p_kn_input_placeholder p)
    t t.

(** [db.run] of INSERT INTO modules (seven columns).  The id is one more
    than the largest ever assigned (INTEGER PRIMARY KEY AUTOINCREMENT).
    Resolves to [this.lastID]. *)
Definition insertRow (E : Env) (p : Params) : M Z :=
  fun db =>
    if fails E (tick db) then failed InsertRow db
    else
      let id := seq db + 1 in
      let r := newRow p id (now E (tick db)) in
      (Resolve id, logged db (mkExec InsertRow false id 1) (rows db ++ [r])%list id).

Definition setContent (p : Params) (t : Z) (r : Row) : Row :=
  mkRow (row_id r) (p_prompt p)
    (p_en_name p) (p_en_description p) (p_en_input_placeholder p)
    (p_kn_name p) (p_kn_description p) (p_kn_input_placeholder p)
    (created_at r) t.

Definition matching (id : Z) (l : list Row) : Z :=
  Z.of_nat (List.length (filter (fun r => row_id r =? id) l)).

(** [db.run] of UPDATE modules SET (seven columns),
    updated_at = CURRENT_TIMESTAMP WHERE id = ?.  Resolves to
    [this.changes]. *)
Definition updateRow (E : Env) (p : Params) (id : Z) : M Z :=
  fun db =>
    if fails E (tick db) then failed (UpdateRow id) db
    else
      let t := now E (tick db) in
      let rs := map (fun r => if row_id r =? id then setContent p t r else r)
                    (rows db) in
      let n := matching id (rows db) in
      (Resolve n, logged db (mkExec (UpdateRow id) false 0 n) rs (seq db)).

(** [db.run] of DELETE FROM modules WHERE id = ?.  Resolves to
    [this.changes]. *)
Definition deleteRow (E : Env) (id : Z) : M Z :=
  fun db =>
    if fails E (tick db) then failed (DeleteRow id) db
    else
      let rs := filter (fun r => negb (row_id r =? id)) (rows db) in
      let n := matching id (rows db) in
      (Resolve n, logged db (mkExec (DeleteRow id) false 0 n) rs (seq db)).

End Store.

(* ================================================================= *)
(** ** The module repository (moduleRepository.js) *)

Module Repo.
Import Js Store.

Record ModuleContent := mkContent {
  name : string;
  description : option string;
  inputPlaceholder : option string
}.

(** The entity the repository hands out; [None] is [null]. *)
Record ModuleEntity := mkModule {
  id : Z;
  prompt : string;
  en : ModuleContent;
  kn : ModuleContent;
  createdAt : Z;
  updatedAt : Z
}.

(** "Transform to match frontend format": the object literal every
    operation builds from a row. *)
Definition moduleOfRow (row : Row) : ModuleEntity :=
  mkModule (row_id row) (row_prompt row)
    (mkContent (en_name row) (en_description row) (en_input_placeholder row))
    (mkContent (kn_name row) (kn_description row) (kn_input_placeholder row))
    (created_at row) (updated_at row).

(** What a TEXT column holds once the sqlite3 driver has bound a value
    to it: null as NULL, a string as itself, a boolean as the integer
    0 or 1 and any other object as the text of [Object.prototype.toString],
    both stored as text by the column's affinity. *)
Definition column (v : JsVal) : option string :=
  match v with
  | VUndefined | VNull => None
  | VStr s => Some s
  | VBool b => Some (if b then "1" else "0")
  | VObj _ => Some "[object Object]"
  end.

(** [!v || typeof v !== 'string' || v.trim() === ''] *)
Definition missing (v : JsVal) : bool :=
  negb (truthy v) || negb (typeof v =? "string")%string
  || (trimOf v =? "")%string.

(** [!id || !Number.isInteger(Number(id)) || Number(id) <= 0], for an
    [id] of the declared type, number. *)
Definition invalidId (id : JsNum) : bool :=
  negb (truthyNum id) || negb (isInteger id) || leZero id.

(** The integer an id that passed [invalidId] stands for. *)
Definition valueOf (id : JsNum) : Z :=
  match id with Int z => z | _ => 0 end.

(** The [params] array of createModule and updateModule. *)
Definition paramsOf (moduleData : JsVal) : Params :=
  mkParams
    (trimOf (get moduleData "prompt"))
    (trimOf (get (get moduleData "en") "name"))
    (column (orDefault (get (get moduleData "en") "description") VNull))
    (column (orDefault (get (get moduleData "en") "inputPlaceholder") VNull))
    (trimOf (get (get moduleData "kn") "name"))
    (column (orDefault (get (get moduleData "kn") "description") VNull))
    (column (orDefault (get (get moduleData "kn") "inputPlaceholder") VNull)).

(** The checks createModule and updateModule share, in source order;
    [None] when all pass. *)
Definition validate (moduleData : JsVal) : option string :=
  if negb (truthy moduleData) || negb (typeof moduleData =? "object")%string
  then Some "Module data is required"
  else if missing (get moduleData "prompt")
  then Some "Module prompt is required"
  else if negb (truthy (get moduleData "en"))
          || missing (get (get moduleData "en") "name")
  then Some "English name is required"
  else if negb (truthy (get moduleData "kn"))
          || missing (get (get moduleData "kn") "name")
  then Some "Kannada name is required"
  else None.

(** The row the re-read found; reading [row.id] of [undefined] throws
    inside the callback. *)
Definition returnRow (row : option Row) : M ModuleEntity :=
  match row with
  | Some r => resolve (moduleOfRow r)
  | None => uncaught
  end.

Definition getAllModules (E : Env) : M (list ModuleEntity) :=
  rows <- orReject (selectAll E) "Failed to fetch modules from database" ;;
  resolve (map moduleOfRow rows).

Definition createModule (E : Env) (moduleData : JsVal) : M ModuleEntity :=
  match validate moduleData with
  | Some msg => reject msg
  | None =>
      lastID <- orReject (insertRow E (paramsOf moduleData))
                  "Failed to create module in database" ;;
      row <- orReject (selectRow E lastID)
               "Module created but failed to retrieve" ;;
      returnRow row
  end.

Definition notFound (id : Z) : string :=
  "Module with ID " ++ decimal id ++ " not found".

Definition updateModule (E : Env) (id : JsNum) (moduleData : JsVal)
  : M ModuleEntity :=
  if invalidId id then reject "Valid module ID is required" else
  match validate moduleData with
  | Some msg => reject msg
  | None =>
      found <- orReject (selectId E (valueOf id))
                 "Failed to verify module existence" ;;
      match found with
      | None => reject (notFound (valueOf id))
      | Some _ =>
          _ <- orReject (updateRow E (paramsOf moduleData) (valueOf id))
                 "Failed to update module in database" ;;
          row <- orReject (selectRow E (valueOf id))
                   "Module updated but failed to retrieve" ;;
          returnRow row
      end
  end.

(** Work of other requests on the same connection, run by the event
    loop between two callbacks of this one. *)
Definition meanwhile (others : Db -> Db) : M unit :=
  fun db => (Resolve tt, others db).

(** deleteModule with whatever runs between its existence check and
    its DELETE made explicit. *)
Definition deleteModuleAmid (E : Env) (others : Db -> Db) (id : JsNum)
  : M bool :=
  if invalidId id then reject "Valid module ID is required" else
  found <- orReject (selectId E (valueOf id))
             "Failed to verify module existence" ;;
  match found with
  | None => reject (notFound (valueOf id))
  | Some _ =>
      _ <- meanwhile others ;;
      changes <- orReject (deleteRow E (valueOf id))
                   "Failed to delete module from database" ;;
      if changes =? 0
      then reject "Module deletion failed - no rows affected"
      else resolve true
  end.

(** deleteModule with nothing in between. *)
Definition deleteModule (E : Env) (id : JsNum) : M bool :=
  deleteModuleAmid E (fun db => db) id.

Definition getModuleById (E : Env) (id : JsNum) : M (option ModuleEntity) :=
  if invalidId id then reject "Valid module ID is required" else
  row <- orReject (selectRow E (valueOf id))
           "Failed to fetch module from database" ;;
  resolve (option_map moduleOfRow row).

End Repo.

(* ================================================================= *)
(** ** Seeding (seedData.js) *)

Module Seed.
Import Js Store Repo.

Definition defaultModules : list JsVal := [
  VObj [("prompt", VStr "Please summarize the following text into clear, concise bullet points highlighting the main ideas and key information:");
        ("en", VObj [("name", VStr "Text Summarizer");
            ("description", VStr "Summarize long text content into key points");
            ("inputPlaceholder", VStr "Enter the text you want to summarize...")]);
        ("kn", VObj [("name", VStr "ಪಠ್ಯ ಸಾರಾಂಶ");
            ("description", VStr "ದೀರ್ಘ ಪಠ್ಯ ವಿಷಯವನ್ನು ಪ್ರಮುಖ ಅಂಶಗಳಾಗಿ ಸಾರಾಂಶಗೊಳಿಸಿ");
            ("inputPlaceholder", VStr "ನೀವು ಸಾರಾಂಶ ಮಾಡಲು ಬಯಸುವ ಪಠ್ಯವನ್ನು ನಮೂದಿಸಿ...")])];
  VObj [("prompt", VStr "Write a professional email based on the following requirements. Make it clear, polite, and well-structured:");
        ("en", VObj [("name", VStr "Email Writer");
            ("description", VStr "Generate professional emails from brief descriptions");
            ("inputPlaceholder", VStr "Describe the email you need (purpose, recipient, tone, key points)...")]);
        ("kn", VObj [("name", VStr "ಇಮೇಲ್ ರಚನೆಕಾರ");
            ("description", VStr "ಸಂಕ್ಷಿಪ್ತ ವಿವರಣೆಗಳಿಂದ ವೃತ್ತಿಪರ ಇಮೇಲ್‌ಗಳನ್ನು ರಚಿಸಿ");
            ("inputPlaceholder", VStr "ನಿಮಗೆ ಬೇಕಾದ ಇಮೇಲ್ ಅನ್ನು ವಿವರಿಸಿ (ಉದ್ದೇಶ, ಸ್ವೀಕರಿಸುವವರು, ಧ್ವನಿ, ಪ್ರಮುಖ ಅಂಶಗಳು)...")])];
  VObj [("prompt", VStr "Analyze the following image and write a detailed description about it:");
        ("en", VObj [("name", VStr "Image Analysis");
            ("description", VStr "Analyze an image and generate a description");
            ("inputPlaceholder", VStr "Upload an image for analysis...")]);
        ("kn", VObj [("name", VStr "ಚಿತ್ರ ವಿಶ್ಲೇಷಣೆ");
            ("description", VStr "ಚಿತ್ರವನ್ನು ವಿಶ್ಲೇಷಿಸಿ ಮತ್ತು ವಿವರಣೆಯನ್ನು ರಚಿಸಿ");
            ("inputPlaceholder", VStr "ವಿಶ್ಲೇಷಣೆಗಾಗಿ ಚಿತ್ರವನ್ನು ಅಪ್‌ಲೋಡ್ ಮಾಡಿ...")])]
].

Definition isDatabaseEmpty (E : Env) : M bool :=
  modules <- orReject (getAllModules E) "Failed to check database state" ;;
  resolve (Nat.eqb (List.length modules) 0).

(** The [for] loop over the defaults: an error of createModule is
    logged and thrown again, which leaves the loop. *)
Fixpoint createEach (E : Env) (data : list JsVal)
    (createdModules : list ModuleEntity) : M (list ModuleEntity) :=
  match data with
  | [] => resolve createdModules
  | moduleData :: rest =>
      createdModule <- createModule E moduleData ;;
      createEach E rest (createdModules ++ [createdModule])%list
  end.

Definition seedDatabase (E : Env) : M (list ModuleEntity) :=
  orReject
    (isEmpty <- isDatabaseEmpty E ;;
     if negb isEmpty then resolve []
     else createEach E defaultModules [])
    "Database seeding failed".

Definition forceSeedDatabase (E : Env) : M (list ModuleEntity) :=
  orReject (createEach E defaultModules []) "Database force seeding failed".

(** [seedDatabase] called [n] times in a row. *)
Fixpoint seedTimes (E : Env) (n : nat) (db : Db) : Db :=
  match n with
  | O => db
  | S k => seedTimes E k (snd (seedDatabase E db))
  end.

End Seed.

(* ================================================================= *)
(** ** The HTTP layer (server.js) *)

Module Server.
Import Js Store Repo.

Inductive Payload :=
| One (m : ModuleEntity)
| Many (ms : list ModuleEntity).

(** Status code and JSON envelope of a response. *)
Record Response := mkResponse {
  status : Z;
  success : bool;
  data : option Payload;
  error : option string;
  message : option string
}.

Definition failure (code : Z) (msg : string) : Response :=
  mkResponse code false None (Some msg) None.

(** Value of a digit or letter as a digit of [parseInt]. *)
Definition digitValue (c : ascii) : option Z :=
  let n := code c in
  if (48 <=? n) && (n <=? 57) then Some (n - 48)
  else if (97 <=? n) && (n <=? 122) then Some (n - 87)
  else if (65 <=? n) && (n <=? 90) then Some (n - 55)
  else None.

(** The longest prefix of radix-[R] digits, read most significant
    first; [acc] is [None] until a digit has been read. *)
Fixpoint digits (R : Z) (s : string) (acc : option Z) : option Z :=
  match s with
  | EmptyString => acc
  | String c r =>
      match digitValue c with
      | Some d =>
          if d <? R
          then digits R r (Some (R * match acc with Some a => a | None => 0 end + d))
          else acc
      | None => acc
      end
  end.

(** The digits of [parseInt] after the sign: with 0x or 0X in front
    they are read in radix 16, otherwise in radix 10. *)
Definition magnitude (s : string) : option Z :=
  match s with
  | String "0"%char (String "x"%char r) => digits 16 r None
  | String "0"%char (String "X"%char r) => digits 16 r None
  | _ => digits 10 s None
  end.

(** [parseInt(s)] without a radix: leading white space, a sign, then
    the digits; NaN when there is no digit.  The value is the integer
    the digits denote.  That is the number JavaScript returns as long
    as it is at most 2^53 - 1 in absolute value; beyond, JavaScript
    returns a double near it, of the same sign, so the function
    stands for [parseInt] in its value within that range, and in
    whether the result is NaN, zero or negative everywhere. *)
Definition parseInt (s : string) : JsNum :=
  let S := trimStart s in
  let '(negative, S1) :=
    match S with
    | String "-"%char r => (true, r)
    | String "+"%char r => (false, r)
    | _ => (false, S)
    end in
  match magnitude S1 with
  | None => NaN
  | Some v => Int (if negative then - v else v)
  end.

(** [error.message.includes('required') ||
     error.message.includes('is required')] *)
Definition isValidation (msg : string) : bool :=
  includes msg "required" || includes msg "is required".

(** [try { ok(await m) } catch (error) { handler(error.message) }] *)
Definition respond {A} (m : M A) (ok : A -> Response)
    (handler : string -> Response) : M Response :=
  fun db =>
    match m db with
    | (Resolve a, db') => (Resolve (ok a), db')
    | (Reject msg, db') => (Resolve (handler msg), db')
    | (Uncaught, db') => (Uncaught, db')
    end.

(** GET /api/modules *)
Definition app_get (E : Env) : M Response :=
  respond (getAllModules E)
    (fun modules => mkResponse 200 true (Some (Many modules)) None None)
    (fun _ => failure 500 "Failed to fetch modules").

(** POST /api/modules *)
Definition app_post (E : Env) (body : JsVal) : M Response :=
  if negb (truthy body) then resolve (failure 400 "Module data is required")
  else
    respond (createModule E body)
      (fun createdModule => mkResponse 201 true (Some (One createdModule)) None None)
      (fun msg =>
         if isValidation msg then failure 400 msg
         else failure 500 "Failed to create module").

(** The [catch] of PUT and DELETE; [generic] is the sanitized text. *)
Definition classify (generic : string) (msg : string) : Response :=
  if includes msg "not found" then failure 404 msg
  else if isValidation msg then failure 400 msg
  else failure 500 generic.

(** PUT /api/modules/:id *)
Definition app_put (E : Env) (idParam : string) (body : JsVal) : M Response :=
  let moduleId := parseInt idParam in
  if isNaN moduleId || leZero moduleId
  then resolve (failure 400 "Valid module ID is required")
  else if negb (truthy body)
  then resolve (failure 400 "Module data is required")
  else
    respond (updateModule E moduleId body)
      (fun updatedModule => mkResponse 200 true (Some (One updatedModule)) None None)
      (classify "Failed to update module").

(** DELETE /api/modules/:id, with what runs between the two callbacks
    of deleteModule made explicit. *)
Definition app_deleteAmid (E : Env) (others : Db -> Db) (idParam : string)
  : M Response :=
  let moduleId := parseInt idParam in
  if isNaN moduleId || leZero moduleId
  then resolve (failure 400 "Valid module ID is required")
  else
    respond (deleteModuleAmid E others moduleId)
      (fun _ => mkResponse 200 true None None (Some "Module deleted successfully"))
      (classify "Failed to delete module").

Definition app_delete (E : Env) (idParam : string) : M Response :=
  app_deleteAmid E (fun db => db) idParam.

End Server.

(* ================================================================= *)
(** ** The client wrapper (src/services/moduleApi.ts) *)

Module Client.
Import Js.

Record ApiError := mkApiError {
  message : string;
  status : Z
}.

(** What [fetch] or [response.json()] may throw: a TypeError, another
    Error, or a value that is no Error. *)
Inductive Thrown :=
| TypeError (msg : string)
| OtherError (msg : string)
| NotAnError.

(** The parsed envelope, [ApiResponse<T>]; [None] is an absent field. *)
Record ApiResponse (T : Type) := mkApiResponse {
  success : bool;
  data : option T;
  error : option string
}.

Inductive Body (T : Type) :=
| JsonThrows (t : Thrown)
| Json (d : ApiResponse T).
Arguments JsonThrows {T} t.

Record FetchResponse (T : Type) := mkFetchResponse {
  ok : bool;
  http_status : Z;
  statusText : string;
  json : Body T
}.

(** How the call of [fetch] goes. *)
Inductive Fetch (T : Type) :=
| FetchThrows (t : Thrown)
| Responds (r : FetchResponse T).
Arguments FetchThrows {T} t.

Inductive Outcome (T : Type) :=
| Returns (x : T)
| Throws (e : ApiError)
| ThrowsTypeError.
Arguments Throws {T} e.
Arguments ThrowsTypeError {T}.

Definition NETWORK_ERROR : string :=
  "Network error: Unable to connect to server. Please check your connection.".

(** [e || d] for an optional string. *)
Definition orElse (e : option string) (d : string) : string :=
  match e with
  | Some m => if (m =? "")%string then d else m
  | None => d
  end.

(** The [catch] of apiRequest for an error that is no ApiError. *)
Definition wrap (t : Thrown) : ApiError :=
  match t with
  | TypeError msg =>
      if includes msg "fetch" then mkApiError NETWORK_ERROR 0
      else mkApiError msg 0
  | OtherError msg => mkApiError msg 0
  | NotAnError => mkApiError "An unexpected error occurred" 0
  end.

Definition apiRequest {T} (f : Fetch T) : Outcome (option T) :=
  match f with
  | FetchThrows t => Throws (wrap t)
  | Responds r =>
      match json r with
      | JsonThrows t => Throws (wrap t)
      | Json d =>
          if negb (ok r) then
            Throws (mkApiError
                      (orElse (error d)
                         ("HTTP " ++ decimal (http_status r) ++ ": " ++ statusText r))
                      (http_status r))
          else if negb (success d) then
            Throws (mkApiError (orElse (error d) "API request failed")
                      (http_status r))
          else Returns (data d)
      end
  end.

(** [!v?.trim()]; [None] when [v.trim] is not a function. *)
Definition blankField (v : JsVal) : option bool :=
  match v with
  | VUndefined | VNull => Some true
  | VStr s => Some (trim s =? "")%string
  | _ => None
  end.

(** [o?.name] *)
Definition nameOf (o : JsVal) : JsVal :=
  if nullish o then VUndefined else get o "name".

(** The three content checks of createModule and updateModule; [None]
    when they pass. *)
Definition checkContent {T} (moduleData : JsVal) : option (Outcome T) :=
  if nullish moduleData then Some ThrowsTypeError else
  match blankField (get moduleData "prompt") with
  | None => Some ThrowsTypeError
  | Some true => Some (Throws (mkApiError "Prompt is required" 400))
  | Some false =>
      match blankField (nameOf (get moduleData "en")) with
      | None => Some ThrowsTypeError
      | Some true => Some (Throws (mkApiError "English name is required" 400))
      | Some false =>
          match blankField (nameOf (get moduleData "kn")) with
          | None => Some ThrowsTypeError
          | Some true => Some (Throws (mkApiError "Kannada name is required" 400))
          | Some false => None
          end
      end
  end.

(** [!id || id <= 0] *)
Definition badId (id : JsNum) : bool := negb (truthyNum id) || leZero id.

(** The value of a successful request; reading a field of an absent
    [data] throws. *)
Definition unwrap {T} (o : Outcome (option T)) : Outcome T :=
  match o with
  | Returns (Some x) => Returns x
  | Returns None => ThrowsTypeError
  | Throws e => Throws e
  | ThrowsTypeError => ThrowsTypeError
  end.

(** What createModule and updateModule return for a module [m] they
    received: [{...m, createdAt: new Date(m.createdAt), updatedAt: new
    Date(m.updatedAt)}]; fetchModules does the same to every module of
    the list it received.  The payload type is left open, so the
    rebuilding is a function [withDates] on it. *)
Definition rebuilt {T} (withDates : T -> T) (o : Outcome T) : Outcome T :=
  match o with
  | Returns m => Returns (withDates m)
  | Throws e => Throws e
  | ThrowsTypeError => ThrowsTypeError
  end.

(** fetchModules; [f] is how the GET goes.  [withDates] rebuilds
    every module of the list ([modules.map]). *)
Definition fetchModules {T} (withDates : T -> T) (f : Fetch T) : Outcome T :=
  rebuilt withDates (unwrap (apiRequest f)).

(** createModule; [f] is how the POST goes if it is sent. *)
Definition createModule {T} (withDates : T -> T) (moduleData : JsVal)
    (f : Fetch T) : Outcome T :=
  match checkContent moduleData with
  | Some thrown => thrown
  | None => rebuilt withDates (unwrap (apiRequest f))
  end.

(** updateModule; [f] is how the PUT goes if it is sent. *)
Definition updateModule {T} (withDates : T -> T) (id : JsNum)
    (moduleData : JsVal) (f : Fetch T) : Outcome T :=
  if badId id then Throws (mkApiError "Valid module ID is required" 400) else
  match checkContent moduleData with
  | Some thrown => thrown
  | None => rebuilt withDates (unwrap (apiRequest f))
  end.

(** deleteModule; [f] is how the DELETE goes if it is sent. *)
Definition deleteModule {T} (id : JsNum) (f : Fetch T) : Outcome unit :=
  if badId id then Throws (mkApiError "Valid module ID is required" 400) else
  match apiRequest f with
  | Returns _ => Returns tt
  | Throws e => Throws e
  | ThrowsTypeError => ThrowsTypeError
  end.

End Client.

(* ================================================================= *)
(** ** Vocabulary of the specification *)

Module Spec.
Import Js Store Repo Seed.

(** "Non-empty after trimming": a string with something left once its
    surrounding white space is removed. *)
Definition nonEmptyAfterTrim (v : JsVal) : bool :=
  match v with
  | VStr s => negb (trim s =? "")%string
  | _ => false
  end.

Definition isObject (v : JsVal) : bool :=
  match v with VObj _ => true | _ => false end.

(** What is read back, [got], for an optional text sent as [v]: a
    non-empty string comes back as it is, an absent or empty one as
    null. *)
Definition optionalReadBack (v : JsVal) (got : option string) : Prop :=
  (forall s, v = VStr s -> s <> "" -> got = Some s)
  /\ (v = VUndefined \/ v = VNull \/ v = VStr "" -> got = None).

Definition isInsert (e : Exec) : bool :=
  match stmt e with InsertRow => negb (errored e) | _ => false end.

Definition isDelete (e : Exec) : bool :=
  match stmt e with DeleteRow _ => true | _ => false end.

(** The ids the store has assigned so far, one for each INSERT that
    went through. *)
Definition issued (db : Db) : list Z :=
  map lastID (filter isInsert (log db)).

(** No id in the table or in the history exceeds the counter. *)
Definition inv (db : Db) : Prop :=
  0 <= seq db
  /\ Forall (fun r => row_id r <= seq db) (rows db)
  /\ Forall (fun i => i <= seq db) (issued db).

(** A promise keeps the invariant. *)
Definition keeps {A} (m : M A) : Prop :=
  forall db, inv db -> inv (snd (m db)).

(** A call of the repository or of the seeding routine. *)
Inductive Call :=
| Create (moduleData : JsVal)
| Update (id : JsNum) (moduleData : JsVal)
| Delete (id : JsNum)
| GetAll
| GetById (id : JsNum)
| SeedCall
| ForceSeed.

Definition after (E : Env) (c : Call) (db : Db) : Db :=
  match c with
  | Create d => snd (createModule E d db)
  | Update i d => snd (updateModule E i d db)
  | Delete i => snd (deleteModule E i db)
  | GetAll => snd (getAllModules E db)
  | GetById i => snd (getModuleById E i db)
  | SeedCall => snd (seedDatabase E db)
  | ForceSeed => snd (forceSeedDatabase E db)
  end.

(** The database after a sequence of calls, one after the other. *)
Definition runCalls (E : Env) (cs : list Call) (db : Db) : Db :=
  fold_left (fun d c => after E c d) cs db.

(** Newest first: the second was created no later than the first. *)
Definition rowNewestFirst (a b : Row) : Prop := created_at b <= created_at a.
Definition newestFirst (a b : ModuleEntity) : Prop := createdAt b <= createdAt a.

(** The rows a run of creations adds when nothing fails: ids follow
    the counter [s], and each INSERT is two statements after the one
    before, its re-read lying in between. *)
Fixpoint seededRows (E : Env) (data : list JsVal) (s : Z) (t : nat) : list Row :=
  match data with
  | [] => []
  | d :: rest =>
      newRow (paramsOf d) (s + 1) (now E t) :: seededRows E rest (s + 1) (S (S t))
  end.

(** The statements added to a log all went through. *)
Definition ranClean (before after : list Exec) : Prop :=
  exists l, after = (before ++ l)%list
            /\ Forall (fun x => errored x = false) l.

(** The statements added to a log end with the first that failed. *)
Definition stoppedAtError (before after : list Exec) : Prop :=
  exists l e, after = (before ++ l ++ [e])%list
              /\ errored e = true
              /\ Forall (fun x => errored x = false) l.

(** The text the repository uses where the client says [m]. *)
Definition serverText (m : string) : string :=
  if (m =? "Prompt is required")%string then "Module prompt is required" else m.

Definition startsWithDigit (s : string) : bool :=
  match s with
  | EmptyString => false
  | String c _ => (48 <=? code c) && (code c <=? 57)
  end.

Definition MAX_SAFE_INTEGER : Z := 9007199254740991.

(** The number a sequence of decimal digits, most significant first,
    adds to [acc]. *)
Fixpoint valueAcc (d : Decimal.uint) (acc : Z) : Z :=
  match d with
  | Decimal.Nil => acc
  | Decimal.D0 d => valueAcc d (10 * acc + 0)
  | Decimal.D1 d => valueAcc d (10 * acc + 1)
  | Decimal.D2 d => valueAcc d (10 * acc + 2)
  | Decimal.D3 d => valueAcc d (10 * acc + 3)
  | Decimal.D4 d => valueAcc d (10 * acc + 4)
  | Decimal.D5 d => valueAcc d (10 * acc + 5)
  | Decimal.D6 d => valueAcc d (10 * acc + 6)
  | Decimal.D7 d => valueAcc d (10 * acc + 7)
  | Decimal.D8 d => valueAcc d (10 * acc + 8)
  | Decimal.D9 d => valueAcc d (10 * acc + 9)
  end.

End Spec.

(* ================================================================= *)
(** ** Sample data *)

Module Sample.
Import Js Store Repo Seed.

(** A clock that stands still within the second, no engine error. *)
Definition sameSecond : Env := mkEnv (fun _ => 1700000000) (fun _ => false).

(** A clock that advances by a second with every statement. *)
Definition ticking : Env :=
  mkEnv (fun k => 1700000000 + Z.of_nat k) (fun _ => false).

(** The engine fails statement number 3, the second INSERT of a seed. *)
Definition failingThird : Env :=
  mkEnv (fun _ => 1700000000) (fun k => Nat.eqb k 3).

Definition summarizer : JsVal :=
  VObj [("prompt", VStr "Summarize:");
        ("en", VObj [("name", VStr "Summarizer")]);
        ("kn", VObj [("name", VStr "ಸಾರಾಂಶ")])].

Definition padded : JsVal :=
  VObj [("prompt", VStr " Summarize: ");
        ("en", VObj [("name", VStr "Summarizer")]);
        ("kn", VObj [("name", VStr "ಸಾರಾಂಶ")])].

Definition noPrompt : JsVal :=
  VObj [("prompt", VStr "");
        ("en", VObj [("name", VStr "Summarizer")]);
        ("kn", VObj [("name", VStr "ಸಾರಾಂಶ")])].

Definition noNames : JsVal :=
  VObj [("prompt", VStr "Summarize:");
        ("en", VObj [("name", VStr "")]);
        ("kn", VObj [("name", VStr "")])].

Definition noKannada : JsVal :=
  VObj [("prompt", VStr "Summarize:");
        ("en", VObj [("name", VStr "Summarizer")]);
        ("kn", VObj [("name", VStr "  ")])].

(** The store after one create. *)
Definition oneModule : Db := snd (createModule sameSecond summarizer emptyDb).

(** The store after seeding within one second. *)
Definition seeded : Db := snd (seedDatabase sameSecond emptyDb).

(** A concurrent request that removes every row with id 1. *)
Definition removeFirst (db : Db) : Db :=
  mkDb (filter (fun r => negb (row_id r =? 1)) (rows db)) (seq db) (log db).

End Sample.

(* ================================================================= *)
(** ** Invariants of the table and the path to the client *)

Module Inv.
Import Js Store Repo Seed Spec.

(** The three NOT NULL texts of a row are not empty. *)
Definition filled (r : Row) : Prop :=
  row_prompt r <> "" /\ en_name r <> "" /\ kn_name r <> "".

Definition filledParams (p : Params) : Prop :=
  p_prompt p <> "" /\ p_en_name p <> "" /\ p_kn_name p <> "".

(** Ids grow along the table. *)
Definition ascending (l : list Row) : Prop :=
  StronglySorted (fun a b => row_id a < row_id b) l.

(** The table as the repository keeps it: ids positive, within the
    counter, growing along the table, and the required texts filled. *)
Definition wf (db : Db) : Prop :=
  0 <= seq db
  /\ Forall (fun r => 0 < row_id r <= seq db) (rows db)
  /\ ascending (rows db)
  /\ Forall filled (rows db).

(** CURRENT_TIMESTAMP never runs backwards. *)
Definition monotone (E : Env) : Prop :=
  forall i j, (i <= j)%nat -> now E i <= now E j.

(** No row was updated before it was created, or after now. *)
Definition timely (E : Env) (db : Db) : Prop :=
  Forall (fun r => created_at r <= updated_at r
                   /\ updated_at r <= now E (tick db)) (rows db).

(** A promise keeps a property of the database. *)
Definition preserves {A} (P : Db -> Prop) (m : M A) : Prop :=
  forall db, P db -> P (snd (m db)).

(** Every statement of the engine keeps [P], INSERT and UPDATE for
    parameters whose required texts are filled. *)
Definition engineKeeps (P : Db -> Prop) (E : Env) : Prop :=
  preserves P (selectAll E)
  /\ (forall id, preserves P (selectRow E id))
  /\ (forall id, preserves P (selectId E id))
  /\ (forall id, preserves P (deleteRow E id))
  /\ (forall p, filledParams p -> preserves P (insertRow E p))
  /\ (forall p id, filledParams p -> preserves P (updateRow E p id)).

(** The module carries the prompt, the names and the optional texts
    of the data, letter for letter. *)
Definition verbatim (m : ModuleEntity) (d : JsVal) : Prop :=
  get d "prompt" = VStr (prompt m)
  /\ get (get d "en") "name" = VStr (name (en m))
  /\ Some (get (get d "en") "description")
     = option_map VStr (description (en m))
  /\ Some (get (get d "en") "inputPlaceholder")
     = option_map VStr (inputPlaceholder (en m))
  /\ get (get d "kn") "name" = VStr (name (kn m))
  /\ Some (get (get d "kn") "description")
     = option_map VStr (description (kn m))
  /\ Some (get (get d "kn") "inputPlaceholder")
     = option_map VStr (inputPlaceholder (kn m)).

(** A promise changes neither the table nor the counter. *)
Definition readOnly {A} (m : M A) : Prop :=
  forall db, rows (snd (m db)) = rows db /\ seq (snd (m db)) = seq db.

End Inv.

Module Wire.

(** The sanitized texts of the four routes. *)
Definition generic (msg : string) : Prop :=
  msg = "Failed to fetch modules" \/ msg = "Failed to create module"
  \/ msg = "Failed to update module" \/ msg = "Failed to delete module".

(** The envelope of a response agrees with its status. *)
Definition wellFormed (r : Server.Response) : Prop :=
  (Server.success r = true
   /\ (Server.status r = 200 \/ Server.status r = 201)
   /\ Server.error r = None)
  \/ (Server.success r = false
      /\ (Server.status r = 400 \/ Server.status r = 404
          \/ Server.status r = 500)
      /\ Server.data r = None
      /\ exists msg, Server.error r = Some msg /\ msg <> ""
                     /\ (Server.status r = 500 -> generic msg)).

(** A module as the client returns it: [newDate] is [new Date(text)]
    on the text of a timestamp, which depends on the time zone the
    client runs in, the text carrying none. *)
Definition revive (newDate : Z -> Z) (m : Repo.ModuleEntity)
  : Repo.ModuleEntity :=
  Repo.mkModule (Repo.id m) (Repo.prompt m) (Repo.en m) (Repo.kn m)
    (newDate (Repo.createdAt m)) (newDate (Repo.updatedAt m)).

(** The rebuilding of a payload: of the module, for createModule and
    updateModule, and of each module of the list, for fetchModules. *)
Definition withDates (newDate : Z -> Z) (p : Server.Payload)
  : Server.Payload :=
  match p with
  | Server.One m => Server.One (revive newDate m)
  | Server.Many ms => Server.Many (map (revive newDate) ms)
  end.

(** What [fetch] hands to the client for [res.status(code).json(body)]:
    [ok] is a status from 200 to 299, and [json()] gives the envelope
    back.  [reason] is the status text of a code. *)
Definition deliver (reason : Z -> string) (r : Server.Response)
  : Client.Fetch Server.Payload :=
  Client.Responds
    (Client.mkFetchResponse
       ((200 <=? Server.status r) && (Server.status r <=? 299))
       (Server.status r)
       (reason (Server.status r))
       (Client.Json (Client.mkApiResponse (Server.success r)
                       (Server.data r) (Server.error r)))).

End Wire.

(* ================================================================= *)
(** * Properties *)

#[local] Unset Implicit Arguments.

(* ================================================================= *)
(** ** Strings *)

Section StringFacts.
Import Js.

Lemma prefix_refl (s : string) : String.prefix s s = true.
Proof.
  induction s as [|c s IH]; simpl; [reflexivity|].
  destruct (ascii_dec c c); [exact IH | congruence].
Qed.

Lemma includes_refl (s : string) : includes s s = true.
Proof.
  destruct s; simpl; [reflexivity|].
  destruct (ascii_dec a a); [|congruence].
  now rewrite prefix_refl.
Qed.

Lemma includes_append_left (a s needle : string) :
  includes s needle = true -> includes (a ++ s) needle = true.
Proof.
  intros H. induction a as [|c a IH]; simpl; [exact H|].
  rewrite IH. apply orb_true_r.
Qed.

Lemma trim_empty : trim "" = "".
Proof. reflexivity. Qed.

End StringFacts.

(* ================================================================= *)
(** ** Validation *)

Section Validation.
Import Js Store Repo Spec.

Lemma missing_spec (v : JsVal) : missing v = negb (nonEmptyAfterTrim v).
Proof.
  destruct v as [| |b|s|fs]; simpl; try reflexivity.
  - now destruct b.
  - destruct s; simpl; [reflexivity|].
    now rewrite negb_involutive.
Qed.

Lemma missing_of_falsy (v : JsVal) (k : string) :
  truthy v = false -> nonEmptyAfterTrim (get v k) = false.
Proof. destruct v; simpl; intros; (reflexivity || discriminate). Qed.

(** The checks of the repository, read as the specification words
    them. *)
Lemma validate_spec (moduleData : JsVal) :
  isObject moduleData = true ->
  validate moduleData =
    if negb (nonEmptyAfterTrim (get moduleData "prompt"))
    then Some "Module prompt is required"
    else if negb (nonEmptyAfterTrim (get (get moduleData "en") "name"))
    then Some "English name is required"
    else if negb (nonEmptyAfterTrim (get (get moduleData "kn") "name"))
    then Some "Kannada name is required"
    else None.
Proof.
  destruct moduleData as [| | | |fs]; try discriminate. intros _.
  unfold validate.
  change (negb (truthy (VObj fs)) || negb (typeof (VObj fs) =? "object")%string)
    with false.
  cbv iota. rewrite !missing_spec.
  destruct (nonEmptyAfterTrim (get (VObj fs) "prompt")); [|reflexivity].
  change (negb true) with false. cbv iota.
  assert (G : forall o, negb (truthy o) || negb (nonEmptyAfterTrim (get o "name"))
                        = negb (nonEmptyAfterTrim (get o "name"))).
  { intros o. destruct (truthy o) eqn:T; [reflexivity|].
    now rewrite (missing_of_falsy o "name" T). }
  rewrite !G. reflexivity.
Qed.

(** C2.  For a request whose body is an object (and, for update, whose
    id is valid), the fields are checked in the order prompt, en.name,
    kn.name, each for being non-empty after trimming; the first check
    that fails rejects with the message naming that field, and the
    database, its statement log included, is left as it was.  When all
    three hold, validation passes. *)
Theorem validation_order (E : Env) (id : JsNum) (moduleData : JsVal) (db : Db) :
  isObject moduleData = true ->
  invalidId id = false ->
  let p := nonEmptyAfterTrim (get moduleData "prompt") in
  let e := nonEmptyAfterTrim (get (get moduleData "en") "name") in
  let k := nonEmptyAfterTrim (get (get moduleData "kn") "name") in
  (p = false ->
     createModule E moduleData db = (Reject "Module prompt is required", db)
     /\ updateModule E id moduleData db = (Reject "Module prompt is required", db))
  /\ (p = true -> e = false ->
     createModule E moduleData db = (Reject "English name is required", db)
     /\ updateModule E id moduleData db = (Reject "English name is required", db))
  /\ (p = true -> e = true -> k = false ->
     createModule E moduleData db = (Reject "Kannada name is required", db)
     /\ updateModule E id moduleData db = (Reject "Kannada name is required", db))
  /\ (p = true -> e = true -> k = true -> validate moduleData = None).
Proof.
  intros Hobj Hid p e k.
  pose proof (validate_spec moduleData Hobj) as V.
  fold p e k in V.
  unfold createModule, updateModule. rewrite Hid.
  repeat split; intros; subst p e k;
    repeat match goal with H : _ = true |- _ => rewrite H in V
                      | H : _ = false |- _ => rewrite H in V end;
    simpl in V; rewrite V; reflexivity.
Qed.

Lemma validation_order_witness :
  createModule Sample.sameSecond Sample.noNames emptyDb
  = (Reject "English name is required", emptyDb).
Proof.
  apply (validation_order Sample.sameSecond (Int 1) Sample.noNames emptyDb);
    reflexivity.
Defined.

End Validation.

(* ================================================================= *)
(** ** The store *)

Section StoreFacts.
Import Js Store Repo Seed Spec.

Lemma tick_logged db e rs s : tick (logged db e rs s) = S (tick db).
Proof.
  unfold tick, logged; simpl. rewrite length_app; simpl. lia.
Qed.

Lemma issued_logged db e rs s :
  issued (logged db e rs s)
  = (issued db ++ if isInsert e then [lastID e] else [])%list.
Proof.
  unfold issued, logged; simpl. rewrite filter_app, map_app; simpl.
  destruct (isInsert e); reflexivity.
Qed.

Lemma inv_empty : inv emptyDb.
Proof. unfold inv, issued; simpl. repeat split; (lia || constructor). Qed.

(** A statement that assigns no id and leaves only rows within the
    counter keeps the invariant. *)
Lemma inv_logged db e rs :
  inv db -> isInsert e = false ->
  Forall (fun r => row_id r <= seq db) rs ->
  inv (logged db e rs (seq db)).
Proof.
  intros (H0 & _ & Hi) He Hr. unfold inv.
  rewrite issued_logged, He, app_nil_r. simpl. auto.
Qed.

Lemma inv_insert db p t :
  inv db ->
  inv (logged db (mkExec InsertRow false (seq db + 1) 1)
         (rows db ++ [newRow p (seq db + 1) t]) (seq db + 1)).
Proof.
  intros (H0 & Hr & Hi). unfold inv. rewrite issued_logged. simpl.
  repeat split; [lia| |].
  - apply Forall_app; split.
    + eapply Forall_impl; [|exact Hr]. simpl; intros; lia.
    + constructor; [simpl; lia | constructor].
  - apply Forall_app; split.
    + eapply Forall_impl; [|exact Hi]. simpl; intros; lia.
    + constructor; [lia | constructor].
Qed.

Lemma keeps_resolve A (a : A) : keeps (resolve a).
Proof. intros db H; exact H. Qed.

Lemma keeps_reject A msg : keeps (@reject A msg).
Proof. intros db H; exact H. Qed.

Lemma keeps_uncaught A : keeps (@uncaught A).
Proof. intros db H; exact H. Qed.

Lemma keeps_bind A B (m : M A) (k : A -> M B) :
  keeps m -> (forall a, keeps (k a)) -> keeps (bind m k).
Proof.
  intros Hm Hk db H. unfold bind. specialize (Hm db H).
  destruct (m db) as [[a|msg|] db']; simpl in *; auto.
  apply Hk; exact Hm.
Qed.

Lemma keeps_orReject A (m : M A) msg : keeps m -> keeps (orReject m msg).
Proof.
  intros Hm db H. unfold orReject. specialize (Hm db H).
  destruct (m db) as [[a|msg'|] db']; simpl in *; auto.
Qed.

Lemma keeps_failed A st : keeps (@failed A st).
Proof.
  intros db H. unfold failed; simpl.
  apply inv_logged; [exact H | now destruct st | apply H].
Qed.

Lemma keeps_selectAll E : keeps (selectAll E).
Proof.
  intros db H. unfold selectAll.
  destruct (fails E (tick db)); [now apply keeps_failed|].
  simpl. apply inv_logged; [exact H | reflexivity | apply H].
Qed.

Lemma keeps_selectRow E id : keeps (selectRow E id).
Proof.
  intros db H. unfold selectRow.
  destruct (fails E (tick db)); [now apply keeps_failed|].
  simpl. apply inv_logged; [exact H | reflexivity | apply H].
Qed.

Lemma keeps_selectId E id : keeps (selectId E id).
Proof.
  intros db H. unfold selectId.
  destruct (fails E (tick db)); [now apply keeps_failed|].
  simpl. apply inv_logged; [exact H | reflexivity | apply H].
Qed.

Lemma keeps_insertRow E p : keeps (insertRow E p).
Proof.
  intros db H. unfold insertRow.
  destruct (fails E (tick db)); [now apply keeps_failed|].
  simpl. apply inv_insert; exact H.
Qed.

Lemma keeps_updateRow E p id : keeps (updateRow E p id).
Proof.
  intros db H. unfold updateRow.
  destruct (fails E (tick db)); [now apply keeps_failed|].
  simpl. apply inv_logged; [exact H | reflexivity |].
  apply Forall_map. eapply Forall_impl; [|apply H].
  simpl; intros r Hr. now destruct (row_id r =? id).
Qed.

Lemma keeps_deleteRow E id : keeps (deleteRow E id).
Proof.
  intros db H. unfold deleteRow.
  destruct (fails E (tick db)); [now apply keeps_failed|].
  simpl. apply inv_logged; [exact H | reflexivity |].
  apply Forall_forall. intros r Hr. apply filter_In in Hr.
  destruct H as (_ & Hrows & _).
  rewrite Forall_forall in Hrows. apply Hrows, Hr.
Qed.

End StoreFacts.

Create HintDb keeps.
#[local] Hint Resolve keeps_resolve keeps_reject keeps_uncaught keeps_bind
  keeps_orReject keeps_selectAll keeps_selectRow keeps_selectId
  keeps_insertRow keeps_updateRow keeps_deleteRow : keeps.

(* ================================================================= *)
(** ** The repository keeps the invariant *)

Section RepoInvariant.
Import Js Store Repo Seed Spec.

Lemma keeps_returnRow row : keeps (returnRow row).
Proof. destruct row; unfold returnRow; auto with keeps. Qed.

Lemma keeps_getAllModules E : keeps (getAllModules E).
Proof. unfold getAllModules. auto with keeps. Qed.

Lemma keeps_createModule E d : keeps (createModule E d).
Proof.
  unfold createModule. destruct (validate d); [auto with keeps|].
  apply keeps_bind; [auto with keeps|]. intros lastID.
  apply keeps_bind; [auto with keeps|]. apply keeps_returnRow.
Qed.

Lemma keeps_updateModule E id d : keeps (updateModule E id d).
Proof.
  unfold updateModule. destruct (invalidId id); [auto with keeps|].
  destruct (validate d); [auto with keeps|].
  apply keeps_bind; [auto with keeps|]. intros [found|]; [|auto with keeps].
  apply keeps_bind; [auto with keeps|]. intros _.
  apply keeps_bind; [auto with keeps|]. apply keeps_returnRow.
Qed.

Lemma keeps_deleteModuleAmid E others id :
  (forall db, inv db -> inv (others db)) ->
  keeps (deleteModuleAmid E others id).
Proof.
  intros Ho. unfold deleteModuleAmid.
  destruct (invalidId id); [auto with keeps|].
  apply keeps_bind; [auto with keeps|]. intros [found|]; [|auto with keeps].
  apply keeps_bind; [intros db H; apply Ho, H|]. intros _.
  apply keeps_bind; [auto with keeps|]. intros changes.
  destruct (changes =? 0); auto with keeps.
Qed.

Lemma keeps_deleteModule E id : keeps (deleteModule E id).
Proof. apply keeps_deleteModuleAmid. auto. Qed.

Lemma keeps_getModuleById E id : keeps (getModuleById E id).
Proof.
  unfold getModuleById. destruct (invalidId id); auto with keeps.
Qed.

Lemma keeps_createEach E data : forall acc, keeps (createEach E data acc).
Proof.
  induction data as [|d data IH]; intros acc; simpl; [auto with keeps|].
  apply keeps_bind; [apply keeps_createModule|]. intros m. apply IH.
Qed.

Lemma keeps_seedDatabase E : keeps (seedDatabase E).
Proof.
  unfold seedDatabase, isDatabaseEmpty. apply keeps_orReject.
  apply keeps_bind.
  - apply keeps_bind; [apply keeps_orReject, keeps_getAllModules|].
    auto with keeps.
  - intros b. destruct (negb b); [auto with keeps | apply keeps_createEach].
Qed.

Lemma keeps_forceSeedDatabase E : keeps (forceSeedDatabase E).
Proof. apply keeps_orReject, keeps_createEach. Qed.

Lemma inv_after E c db : inv db -> inv (after E c db).
Proof.
  destruct c; simpl.
  - apply keeps_createModule.
  - apply keeps_updateModule.
  - apply keeps_deleteModule.
  - apply keeps_getAllModules.
  - apply keeps_getModuleById.
  - apply keeps_seedDatabase.
  - apply keeps_forceSeedDatabase.
Qed.

(** Every database a history of calls leads to, from the empty one,
    satisfies the invariant. *)
Lemma inv_runCalls E cs : forall db, inv db -> inv (runCalls E cs db).
Proof.
  induction cs as [|c cs IH]; intros db H; simpl; [exact H|].
  apply IH, inv_after, H.
Qed.

End RepoInvariant.

(* ================================================================= *)
(** ** Creation *)

Section Creation.
Import Js Store Repo Seed Spec.

Lemma findRow_new (l : list Row) (r : Row) (s : Z) :
  Forall (fun x => row_id x <= s) l -> row_id r = s + 1 ->
  findRow (s + 1) (l ++ [r]) = Some r.
Proof.
  intros Hl Hr. unfold findRow. induction Hl as [|x l Hx _ IH]; simpl.
  - rewrite Hr, Z.eqb_refl. reflexivity.
  - destruct (Z.eqb_spec (row_id x) (s + 1)); [lia | exact IH].
Qed.

Lemma rejected_by_validation E d db msg :
  validate d = Some msg -> createModule E d db = (Reject msg, db).
Proof. intros V. unfold createModule. now rewrite V. Qed.

(** What a creation that passed validation does, statement by
    statement. *)
Lemma createModule_run E d db :
  validate d = None -> inv db ->
  let i := seq db + 1 in
  let r := newRow (paramsOf d) i (now E (tick db)) in
  let db1 := logged db (mkExec InsertRow false i 1) (rows db ++ [r]) i in
  createModule E d db =
    if fails E (tick db)
    then (Reject "Failed to create module in database",
          logged db (mkExec InsertRow true 0 0) (rows db) (seq db))
    else if fails E (S (tick db))
    then (Reject "Module created but failed to retrieve",
          logged db1 (mkExec (SelectRow i) true 0 0) (rows db1) i)
    else (Resolve (moduleOfRow r),
          logged db1 (mkExec (SelectRow i) false 0 0) (rows db1) i).
Proof.
  intros V (H0 & Hr & _) i r db1.
  unfold createModule. rewrite V.
  unfold bind, orReject, insertRow, failed.
  destruct (fails E (tick db)) eqn:F1; [reflexivity|].
  fold i. fold r. fold db1.
  assert (T : tick db1 = S (tick db)) by apply tick_logged.
  unfold selectRow, failed. rewrite T.
  destruct (fails E (S (tick db))) eqn:F2; [reflexivity|].
  assert (G : findRow i (rows db1) = Some r).
  { subst db1; simpl. apply findRow_new; [exact Hr | reflexivity]. }
  rewrite G. reflexivity.
Qed.

Lemma resolved_is_valid E d db m db' :
  createModule E d db = (Resolve m, db') -> validate d = None.
Proof.
  intros H. destruct (validate d) as [msg|] eqn:V; [|reflexivity].
  rewrite (rejected_by_validation E d db msg V) in H. discriminate.
Qed.

(** A successful creation, read off [createModule_run]. *)
Lemma createModule_resolved E d db m db' :
  inv db -> createModule E d db = (Resolve m, db') ->
  let i := seq db + 1 in
  let r := newRow (paramsOf d) i (now E (tick db)) in
  m = moduleOfRow r
  /\ rows db' = (rows db ++ [r])%list
  /\ seq db' = i
  /\ issued db' = (issued db ++ [i])%list
  /\ tick db' = S (S (tick db)).
Proof.
  intros I H i r.
  pose proof (resolved_is_valid E d db m db' H) as V.
  rewrite (createModule_run E d db V I) in H.
  destruct (fails E (tick db)); [discriminate|].
  destruct (fails E (S (tick db))); [discriminate|].
  injection H as <- <-. fold i. fold r.
  rewrite !tick_logged, !issued_logged. simpl.
  rewrite app_nil_r. repeat split; reflexivity.
Qed.

(** C7.  After any history of calls on an initially empty database, a
    successful creation returns an entity whose id is positive, was
    assigned by no earlier INSERT and is carried by no stored row, and
    whose createdAt equals its updatedAt; the id then counts as
    issued. *)
Theorem created_id_is_fresh E cs d m db' :
  createModule E d (runCalls E cs emptyDb) = (Resolve m, db') ->
  0 < id m
  /\ ~ In (id m) (issued (runCalls E cs emptyDb))
  /\ (forall r, In r (rows (runCalls E cs emptyDb)) -> row_id r <> id m)
  /\ createdAt m = updatedAt m
  /\ issued db' = (issued (runCalls E cs emptyDb) ++ [id m])%list.
Proof.
  intros H.
  pose proof (inv_runCalls E cs emptyDb inv_empty) as I.
  destruct (createModule_resolved E d _ m db' I H) as (-> & _ & _ & Hi & _).
  destruct I as (H0 & Hr & Hs). simpl.
  repeat split.
  - lia.
  - intros Hin. rewrite Forall_forall in Hs. specialize (Hs _ Hin). lia.
  - intros r Hin. rewrite Forall_forall in Hr. specialize (Hr _ Hin). lia.
  - exact Hi.
Qed.

Lemma created_id_is_fresh_witness :
  let db := runCalls Sample.sameSecond [SeedCall; Create Sample.padded] emptyDb in
  match createModule Sample.sameSecond Sample.summarizer db with
  | (Resolve m, _) =>
      0 < id m /\ ~ In (id m) (issued db) /\ createdAt m = updatedAt m
  | _ => False
  end.
Proof.
  intros db.
  destruct (createModule Sample.sameSecond Sample.summarizer db)
    as [[m|msg|] db'] eqn:H.
  - destruct (created_id_is_fresh Sample.sameSecond
                [SeedCall; Create Sample.padded] Sample.summarizer m db' H)
      as (Hpos & Hfresh & _ & Heq & _).
    repeat split; assumption.
  - vm_compute in H. discriminate H.
  - vm_compute in H. discriminate H.
Defined.

End Creation.

(* ================================================================= *)
(** ** Reading back what was created *)

Section RoundTrip.
Import Js Store Repo Seed Spec.

Lemma missing_false (v : JsVal) :
  missing v = false -> exists s, v = VStr s /\ trim s <> "".
Proof.
  rewrite missing_spec. destruct v as [| |b|s|fs]; simpl; try discriminate.
  intros H. exists s. split; [reflexivity|].
  intros T. rewrite T in H. discriminate.
Qed.

Lemma validate_passed (d : JsVal) :
  validate d = None ->
  exists p e k,
    get d "prompt" = VStr p
    /\ get (get d "en") "name" = VStr e
    /\ get (get d "kn") "name" = VStr k.
Proof.
  unfold validate. intros H.
  destruct (negb (truthy d) || negb (typeof d =? "object")%string);
    [discriminate|].
  destruct (missing (get d "prompt")) eqn:P; [discriminate|].
  destruct (negb (truthy (get d "en")) || missing (get (get d "en") "name"))
    eqn:N1; [discriminate|].
  destruct (negb (truthy (get d "kn")) || missing (get (get d "kn") "name"))
    eqn:N2; [discriminate|].
  apply orb_false_elim in N1, N2.
  destruct (missing_false _ P) as (p & Hp & _).
  destruct (missing_false _ (proj2 N1)) as (e & He & _).
  destruct (missing_false _ (proj2 N2)) as (k & Hk & _).
  exists p, e, k. auto.
Qed.

(** [v || null] bound to a TEXT column, for an optional text. *)
Lemma optional_read_back (v : JsVal) :
  optionalReadBack v (column (orDefault v VNull)).
Proof.
  split.
  - intros s -> Hs. unfold orDefault. simpl.
    destruct (String.eqb_spec s ""); [contradiction | reflexivity].
  - intros [-> | [-> | ->]]; reflexivity.
Qed.

(** The claim of C4 fails as stated: a prompt with surrounding white
    space does not come back as it was sent. *)
Lemma padded_prompt_comes_back_trimmed :
  exists m db',
    createModule Sample.sameSecond Sample.padded emptyDb = (Resolve m, db')
    /\ get Sample.padded "prompt" = VStr " Summarize: "
    /\ prompt m = "Summarize:"
    /\ prompt m <> " Summarize: ".
Proof.
  eexists. eexists. split; [vm_compute; reflexivity|].
  repeat split. discriminate.
Qed.

(** C4, amended.  For every input createModule accepts: the module it
    returns, which a lookup by id right after it returns again, has
    the prompt and the two names of the input with surrounding white
    space removed (the input itself when it has none), and each of the
    four optional texts as it was sent when that is a non-empty string
    and null when it is absent or empty. *)
Theorem create_read_back E d db m db' :
  inv db ->
  createModule E d db = (Resolve m, db') ->
  (exists p e k,
      get d "prompt" = VStr p
      /\ get (get d "en") "name" = VStr e
      /\ get (get d "kn") "name" = VStr k
      /\ prompt m = trim p /\ name (en m) = trim e /\ name (kn m) = trim k
      /\ (trim p = p -> prompt m = p)
      /\ (trim e = e -> name (en m) = e)
      /\ (trim k = k -> name (kn m) = k))
  /\ optionalReadBack (get (get d "en") "description") (description (en m))
  /\ optionalReadBack (get (get d "en") "inputPlaceholder")
       (inputPlaceholder (en m))
  /\ optionalReadBack (get (get d "kn") "description") (description (kn m))
  /\ optionalReadBack (get (get d "kn") "inputPlaceholder")
       (inputPlaceholder (kn m))
  /\ (fails E (tick db') = false ->
      fst (getModuleById E (Int (id m)) db') = Resolve (Some m)).
Proof.
  intros I H.
  pose proof (resolved_is_valid E d db m db' H) as V.
  destruct (createModule_resolved E d db m db' I H) as (Hm & Hrows & _ & _ & _).
  destruct (validate_passed d V) as (p & e & k & Hp & He & Hk).
  subst m.
  cbn [prompt en kn name description inputPlaceholder id moduleOfRow newRow
       paramsOf row_id row_prompt en_name en_description en_input_placeholder
       kn_name kn_description kn_input_placeholder
       p_prompt p_en_name p_en_description p_en_input_placeholder
       p_kn_name p_kn_description p_kn_input_placeholder].
  split; [|split; [|split; [|split; [|split]]]];
    try apply optional_read_back.
  - exists p, e, k. rewrite Hp, He, Hk. simpl.
    repeat split; try reflexivity; intros ->; reflexivity.
  - intros F. unfold getModuleById.
    destruct I as (H0 & Hr & _).
    assert (Hid : invalidId (Int (seq db + 1)) = false).
    { unfold invalidId; simpl.
      destruct (Z.eqb_spec (seq db + 1) 0); [lia|].
      destruct (Z.leb_spec (seq db + 1) 0); [lia|reflexivity]. }
    rewrite Hid. unfold bind, orReject, selectRow. rewrite F. simpl.
    rewrite Hrows, findRow_new; [reflexivity | exact Hr | reflexivity].
Qed.

Lemma create_read_back_witness :
  match createModule Sample.ticking Sample.padded emptyDb with
  | (Resolve m, db') =>
      prompt m = "Summarize:" /\ description (en m) = None
      /\ fst (getModuleById Sample.ticking (Int (id m)) db') = Resolve (Some m)
  | _ => False
  end.
Proof.
  destruct (createModule Sample.ticking Sample.padded emptyDb)
    as [[m|msg|] db'] eqn:H.
  - destruct (create_read_back Sample.ticking Sample.padded emptyDb m db'
                inv_empty H)
      as ((p & e & k & Hp & _ & _ & Hprompt & _) & (_ & Hd) & _ & _ & _ & Hget).
    injection Hp as <-.
    repeat split;
      [exact Hprompt | apply Hd; left; reflexivity | apply Hget; reflexivity].
  - vm_compute in H. discriminate H.
  - vm_compute in H. discriminate H.
Defined.

End RoundTrip.

(* ================================================================= *)
(** ** Updating *)

Section Updating.
Import Js Store Repo Seed Spec.

Lemma findRow_map (id : Z) (f : Row -> Row) (l : list Row) :
  (forall r, row_id (f r) = row_id r) ->
  findRow id (map f l) = option_map f (findRow id l).
Proof.
  intros Hf. unfold findRow. induction l as [|x l IH]; simpl; [reflexivity|].
  rewrite Hf. destruct (row_id x =? id); [reflexivity | exact IH].
Qed.

Lemma findRow_id (id : Z) (l : list Row) (r : Row) :
  findRow id l = Some r -> row_id r = id.
Proof.
  unfold findRow. intros H. apply find_some in H.
  destruct H as (_ & H). now apply Z.eqb_eq.
Qed.

(** The claim of C1 fails as stated: an update in the second of the
    creation returns the updatedAt the module already had. *)
Lemma update_within_the_second :
  exists old m db',
    findRow 1 (rows Sample.oneModule) = Some old
    /\ updateModule Sample.sameSecond (Int 1) Sample.padded Sample.oneModule
       = (Resolve m, db')
    /\ updatedAt m = updated_at old
    /\ ~ updated_at old < updatedAt m.
Proof.
  eexists. eexists. eexists.
  split; [vm_compute; reflexivity|].
  split; [vm_compute; reflexivity|].
  split; [reflexivity|]. simpl. lia.
Qed.

(** C1, amended.  A successful update returns the module that was
    stored under the id, with the id and createdAt it had and with
    updatedAt set to CURRENT_TIMESTAMP of the UPDATE statement: not
    below the former value as long as that value is not ahead of the
    clock, and equal to it when the clock has not moved on. *)
Theorem update_refreshes_updatedAt E i d db m db' :
  updateModule E i d db = (Resolve m, db') ->
  exists old,
    findRow (valueOf i) (rows db) = Some old
    /\ id m = row_id old
    /\ createdAt m = created_at old
    /\ updatedAt m = now E (S (tick db))
    /\ (updated_at old <= now E (S (tick db)) -> updated_at old <= updatedAt m)
    /\ (updated_at old = now E (S (tick db)) -> updatedAt m = updated_at old).
Proof.
  unfold updateModule. intros H.
  destruct (invalidId i); [discriminate|].
  destruct (validate d); [discriminate|].
  unfold bind, orReject, selectId, failed in H.
  destruct (fails E (tick db)); [discriminate|].
  destruct (findRow (valueOf i) (rows db)) as [old|] eqn:F;
    simpl in H; [|discriminate].
  unfold updateRow, failed in H. rewrite tick_logged in H.
  destruct (fails E (S (tick db))); [discriminate|].
  unfold selectRow, failed in H. rewrite tick_logged in H.
  destruct (fails E (S (tick (logged db (mkExec (SelectId (valueOf i)) false 0 0)
                                 (rows db) (seq db))))); [discriminate|].
  cbn [rows logged] in H.
  rewrite findRow_map in H
    by (intros r; now destruct (row_id r =? valueOf i)).
  rewrite F in H. cbn [option_map returnRow resolve] in H.
  rewrite (findRow_id _ _ _ F), Z.eqb_refl in H.
  injection H as <- _.
  exists old. simpl. repeat split; auto.
Qed.

Lemma update_refreshes_updatedAt_witness :
  match updateModule Sample.ticking (Int 1) Sample.padded Sample.oneModule with
  | (Resolve m, _) => id m = 1 /\ createdAt m = 1700000000
                      /\ updatedAt m = 1700000003
  | _ => False
  end.
Proof.
  destruct (updateModule Sample.ticking (Int 1) Sample.padded Sample.oneModule)
    as [[m|msg|] db'] eqn:H.
  - destruct (update_refreshes_updatedAt Sample.ticking (Int 1) Sample.padded
                Sample.oneModule m db' H)
      as (old & Hold & Hid & Hc & Hu & _).
    vm_compute in Hold. injection Hold as <-.
    repeat split; assumption.
  - vm_compute in H. discriminate H.
  - vm_compute in H. discriminate H.
Defined.

End Updating.

(* ================================================================= *)
(** ** Listing *)

Section Listing.
Import Js Store Repo Seed Spec.

Lemma insertDesc_perm (r : Row) (l : list Row) :
  Permutation (insertDesc r l) (r :: l).
Proof.
  induction l as [|x l IH]; simpl; [reflexivity|].
  destruct (created_at x <=? created_at r); [reflexivity|].
  rewrite IH. apply perm_swap.
Qed.

Lemma orderBy_perm (l : list Row) : Permutation (orderByCreatedAtDesc l) l.
Proof.
  induction l as [|x l IH]; simpl; [constructor|].
  rewrite insertDesc_perm. now constructor.
Qed.

Lemma insertDesc_sorted (r : Row) (l : list Row) :
  StronglySorted rowNewestFirst l ->
  StronglySorted rowNewestFirst (insertDesc r l).
Proof.
  induction 1 as [|x l Hs IH Hx]; simpl.
  - repeat constructor.
  - destruct (Z.leb_spec (created_at x) (created_at r)) as [L|L].
    + constructor; [now constructor|].
      constructor; [exact L|].
      eapply Forall_impl; [|exact Hx].
      unfold rowNewestFirst; simpl; intros; lia.
    + constructor; [exact IH|].
      eapply Permutation_Forall; [symmetry; apply insertDesc_perm|].
      constructor; [unfold rowNewestFirst; lia | exact Hx].
Qed.

Lemma orderBy_sorted (l : list Row) :
  StronglySorted rowNewestFirst (orderByCreatedAtDesc l).
Proof.
  induction l as [|x l IH]; simpl; [constructor|].
  apply insertDesc_sorted, IH.
Qed.

Lemma moduleOfRow_sorted (l : list Row) :
  StronglySorted rowNewestFirst l ->
  StronglySorted newestFirst (map moduleOfRow l).
Proof.
  induction 1 as [|x l Hs IH Hx]; simpl; constructor; [exact IH|].
  apply Forall_map. exact Hx.
Qed.

(** A row older than all of a list goes to its end. *)
Lemma insertDesc_oldest (r : Row) (l : list Row) :
  Forall (fun x => created_at r < created_at x) l ->
  insertDesc r l = (l ++ [r])%list.
Proof.
  induction 1 as [|x l Hx _ IH]; simpl; [reflexivity|].
  destruct (Z.leb_spec (created_at x) (created_at r)); [lia|].
  now rewrite IH.
Qed.

(** Rows created at strictly increasing times come out reversed. *)
Lemma orderBy_increasing (l : list Row) :
  StronglySorted (fun a b => created_at a < created_at b) l ->
  orderByCreatedAtDesc l = rev l.
Proof.
  induction 1 as [|x l Hs IH Hx]; simpl; [reflexivity|].
  rewrite IH. apply insertDesc_oldest.
  apply Forall_rev. exact Hx.
Qed.

(** Rows created at the same time come out in table order. *)
Lemma orderBy_constant (t : Z) (l : list Row) :
  Forall (fun r => created_at r = t) l ->
  orderByCreatedAtDesc l = l.
Proof.
  induction 1 as [|x l Hx Hl IH]; simpl; [reflexivity|].
  rewrite IH. destruct Hl as [|y l Hy _]; simpl; [reflexivity|].
  destruct (Z.leb_spec (created_at y) (created_at x)); [reflexivity | lia].
Qed.

(** The sort is stable: the rows of one creation time keep the order
    they have in the table. *)
Lemma insertDesc_same_time (t : Z) (r : Row) (l : list Row) :
  filter (fun x => created_at x =? t) (insertDesc r l)
  = filter (fun x => created_at x =? t) (r :: l).
Proof.
  induction l as [|x l IH]; [reflexivity|].
  cbn [insertDesc].
  destruct (Z.leb_spec (created_at x) (created_at r)) as [L|L];
    [reflexivity|].
  cbn [filter] in IH |- *. rewrite IH.
  destruct (Z.eqb_spec (created_at x) t) as [Hx|Hx];
    destruct (Z.eqb_spec (created_at r) t) as [Hr|Hr];
    try reflexivity.
  lia.
Qed.

Lemma orderBy_same_time (t : Z) (l : list Row) :
  filter (fun x => created_at x =? t) (orderByCreatedAtDesc l)
  = filter (fun x => created_at x =? t) l.
Proof.
  induction l as [|x l IH]; [reflexivity|].
  change (orderByCreatedAtDesc (x :: l))
    with (insertDesc x (orderByCreatedAtDesc l)).
  rewrite insertDesc_same_time. cbn [filter]. now rewrite IH.
Qed.

Lemma moduleOfRow_same_time (t : Z) (l : list Row) :
  filter (fun m => createdAt m =? t) (map moduleOfRow l)
  = map moduleOfRow (filter (fun x => created_at x =? t) l).
Proof.
  induction l as [|x l IH]; [reflexivity|].
  cbn [map filter]. rewrite IH.
  change (createdAt (moduleOfRow x)) with (created_at x).
  now destruct (created_at x =? t).
Qed.

Lemma getAllModules_resolved E db ms db' :
  getAllModules E db = (Resolve ms, db') ->
  ms = map moduleOfRow (orderByCreatedAtDesc (rows db))
  /\ rows db' = rows db.
Proof.
  unfold getAllModules, bind, orReject, selectAll, failed.
  destruct (fails E (tick db)); [discriminate|].
  simpl. intros H. injection H as <- <-. auto.
Qed.

End Listing.

(* ================================================================= *)
(** ** Seeding *)

Section Seeding.
Import Js Store Repo Seed Spec.

(** A run of creations of valid data: either all rows are added, or
    the run ends with the first statement the engine fails, the rows
    added until then staying in the table. *)
Lemma createEach_outcome E data :
  Forall (fun d => validate d = None) data ->
  forall acc db res db',
    inv db ->
    createEach E data acc db = (res, db') ->
    match res with
    | Resolve out =>
        rows db' = (rows db ++ seededRows E data (seq db) (tick db))%list
        /\ out = (acc ++ map moduleOfRow (seededRows E data (seq db) (tick db)))%list
        /\ ranClean (log db) (log db')
    | Reject msg =>
        exists n, (n <= List.length data)%nat
          /\ rows db' = (rows db ++ seededRows E (firstn n data) (seq db) (tick db))%list
          /\ stoppedAtError (log db) (log db')
    | Uncaught => False
    end.
Proof.
  induction 1 as [|d data V _ IH]; intros acc db res db' I H.
  - simpl in H. injection H as <- <-. simpl. rewrite !app_nil_r.
    repeat split. exists []. rewrite app_nil_r. auto.
  - simpl in H. unfold bind in H.
    pose proof (keeps_createModule E d db I) as I2.
    rewrite (createModule_run E d db V I) in H, I2.
    destruct (fails E (tick db)).
    { injection H as <- <-. exists 0%nat. simpl. rewrite app_nil_r.
      repeat split; [lia|]. exists [], (mkExec InsertRow true 0 0). auto. }
    destruct (fails E (S (tick db))).
    { injection H as <- <-. exists 1%nat. simpl.
      repeat split; [lia|].
      exists [mkExec InsertRow false (seq db + 1) 1],
             (mkExec (SelectRow (seq db + 1)) true 0 0).
      rewrite <- app_assoc. repeat split. repeat constructor. }
    simpl in I2. specialize (IH _ _ _ _ I2 H).
    rewrite !tick_logged in IH. cbn [rows seq log logged] in IH.
    destruct res as [out|msg|]; [| |exact IH].
    + destruct IH as (Hr & Ho & (l & Hl & Hok)).
      repeat rewrite <- app_assoc in Hr.
      repeat rewrite <- app_assoc in Ho.
      repeat rewrite <- app_assoc in Hl.
      simpl in Hr, Ho, Hl.
      repeat split; [exact Hr | exact Ho |].
      exists (mkExec InsertRow false (seq db + 1) 1
              :: mkExec (SelectRow (seq db + 1)) false 0 0 :: l).
      split; [exact Hl|]. repeat constructor. exact Hok.
    + destruct IH as (n & Hn & Hr & (l & e & Hl & He & Hok)).
      exists (S n).
      repeat rewrite <- app_assoc in Hr.
      repeat rewrite <- app_assoc in Hl.
      simpl in Hr, Hl.
      repeat split; [simpl; lia | exact Hr |].
      exists (mkExec InsertRow false (seq db + 1) 1
              :: mkExec (SelectRow (seq db + 1)) false 0 0 :: l), e.
      split; [|split; [exact He|]].
      * rewrite Hl. reflexivity.
      * repeat constructor. exact Hok.
Qed.

(** A run of creations that rejects: the log ends with the statement
    the engine failed, every statement before it went through, and
    the table has gained one row for each INSERT among these, the rows
    of the first data in their order.  Nothing is taken back. *)
Lemma createEach_rejected E data :
  Forall (fun d => validate d = None) data ->
  forall acc db msg db',
    inv db ->
    createEach E data acc db = (Reject msg, db') ->
    exists l e,
      log db' = (log db ++ l ++ [e])%list
      /\ errored e = true
      /\ Forall (fun x => errored x = false) l
      /\ rows db'
         = (rows db
            ++ seededRows E (firstn (List.length (filter isInsert l)) data)
                 (seq db) (tick db))%list.
Proof.
  induction 1 as [|d data V _ IH]; intros acc db msg db' I H.
  - discriminate H.
  - simpl in H. unfold bind in H.
    pose proof (keeps_createModule E d db I) as I2.
    rewrite (createModule_run E d db V I) in H, I2.
    destruct (fails E (tick db)).
    { injection H as <- <-. exists [], (mkExec InsertRow true 0 0).
      cbn [log rows logged filter List.length firstn seededRows app].
      rewrite app_nil_r. auto. }
    destruct (fails E (S (tick db))).
    { injection H as <- <-.
      exists [mkExec InsertRow false (seq db + 1) 1],
             (mkExec (SelectRow (seq db + 1)) true 0 0).
      cbn [log rows logged]. rewrite <- app_assoc.
      repeat split. repeat constructor. }
    simpl in I2. destruct (IH _ _ _ _ I2 H) as (l & e & Hl & He & Hok & Hr).
    rewrite !tick_logged in Hr. cbn [rows seq log logged] in Hr, Hl.
    exists (mkExec InsertRow false (seq db + 1) 1
            :: mkExec (SelectRow (seq db + 1)) false 0 0 :: l), e.
    split; [|split; [exact He|split]].
    + rewrite Hl. repeat rewrite <- app_assoc. reflexivity.
    + repeat constructor. exact Hok.
    + rewrite Hr. repeat rewrite <- app_assoc. reflexivity.
Qed.

(** A run of creations rejects when the engine fails one of its
    statements, two for each creation. *)
Lemma createEach_fails E data :
  Forall (fun d => validate d = None) data ->
  forall acc db j,
    inv db ->
    (j < 2 * List.length data)%nat ->
    fails E (tick db + j)%nat = true ->
    exists msg db', createEach E data acc db = (Reject msg, db').
Proof.
  induction 1 as [|d data V _ IH]; intros acc db j I Hj F.
  - simpl in Hj. lia.
  - simpl. unfold bind.
    pose proof (keeps_createModule E d db I) as I2.
    rewrite (createModule_run E d db V I) in I2 |- *.
    destruct (fails E (tick db)) eqn:F0; [eexists; eexists; reflexivity|].
    destruct (fails E (S (tick db))) eqn:F1; [eexists; eexists; reflexivity|].
    simpl in I2.
    destruct j as [|[|j]].
    + rewrite Nat.add_0_r in F. congruence.
    + rewrite Nat.add_1_r in F. congruence.
    + apply (IH _ _ j I2).
      * cbn [List.length] in Hj. lia.
      * rewrite !tick_logged.
        replace (S (S (tick db)) + j)%nat with (tick db + S (S j))%nat by lia.
        exact F.
Qed.

Lemma defaults_are_valid :
  Forall (fun d => validate d = None) defaultModules.
Proof. repeat constructor. Qed.

(** What the emptiness check does: one SELECT, no change of the table. *)
Lemma isDatabaseEmpty_run E db :
  isDatabaseEmpty E db =
    if fails E (tick db)
    then (Reject "Failed to check database state",
          logged db (mkExec SelectAll true 0 0) (rows db) (seq db))
    else (Resolve (match rows db with [] => true | _ => false end),
          logged db (mkExec SelectAll false 0 0) (rows db) (seq db)).
Proof.
  unfold isDatabaseEmpty, getAllModules, bind, orReject, selectAll, failed.
  destruct (fails E (tick db)); [reflexivity|]. simpl.
  rewrite length_map.
  rewrite (Permutation_length (orderBy_perm (rows db))).
  now destruct (rows db).
Qed.

(** On a store that is not empty the seeding issues its SELECT and
    nothing else. *)
Lemma seedDatabase_nonempty E db :
  rows db <> [] ->
  seedDatabase E db =
    (if fails E (tick db) then Reject "Database seeding failed" else Resolve [],
     logged db (mkExec SelectAll (fails E (tick db)) 0 0) (rows db) (seq db)).
Proof.
  intros H. unfold seedDatabase, orReject, bind.
  rewrite isDatabaseEmpty_run.
  destruct (fails E (tick db)); [reflexivity|].
  destruct (rows db); [congruence | reflexivity].
Qed.

Lemma seedTimes_nonempty E n : forall db,
  rows db <> [] -> rows (seedTimes E n db) = rows db.
Proof.
  induction n as [|n IH]; intros db H; simpl; [reflexivity|].
  rewrite (seedDatabase_nonempty E db H). simpl.
  rewrite IH; simpl; auto.
Qed.

End Seeding.

Section SeedingTheorems.
Import Js Store Repo Seed Spec.

Lemma length_seededRows E data : forall s t,
  List.length (seededRows E data s t) = List.length data.
Proof.
  induction data as [|d data IH]; intros s t; simpl; [reflexivity|].
  now rewrite IH.
Qed.

(** On an empty store whose check went through, the seeding is the run
    of creations over the defaults, its error replaced. *)
Lemma seedDatabase_empty E db :
  rows db = [] -> fails E (tick db) = false ->
  seedDatabase E db =
    orReject (createEach E defaultModules []) "Database seeding failed"
      (logged db (mkExec SelectAll false 0 0) [] (seq db)).
Proof.
  intros H F. unfold seedDatabase, orReject, bind.
  rewrite isDatabaseEmpty_run, F, H. reflexivity.
Qed.

Lemma seedDatabase_check_failed E db msg db' :
  rows db = [] -> fails E (tick db) = true ->
  seedDatabase E db <> (Resolve msg, db').
Proof.
  intros H F. unfold seedDatabase, orReject, bind.
  rewrite isDatabaseEmpty_run, F. discriminate.
Qed.

(** The claim of C3 fails as stated.  The error of the creation that
    fails during a first seeding, here "Failed to create module in
    database" of the second default, is not the one the caller of
    seedDatabase gets: that is always "Database seeding failed".  And
    on a store that is not empty seedDatabase does reject, when the
    engine fails the SELECT of its emptiness check. *)
Lemma seeding_replaces_the_error :
  exists db2 d db3,
    db2 = snd (createModule Sample.failingThird (nth 0 defaultModules VNull)
                 (snd (isDatabaseEmpty Sample.failingThird emptyDb)))
    /\ d = nth 1 defaultModules VNull
    /\ createModule Sample.failingThird d db2
       = (Reject "Failed to create module in database", db3)
    /\ seedDatabase Sample.failingThird emptyDb
       = (Reject "Database seeding failed", db3)
    /\ List.length (rows db3) = 1%nat
    /\ rows (snd (getAllModules Sample.sameSecond Sample.oneModule)) <> []
    /\ fst (seedDatabase Sample.failingThird
              (snd (getAllModules Sample.sameSecond Sample.oneModule)))
       = Reject "Database seeding failed".
Proof.
  eexists. eexists. eexists.
  split; [reflexivity|]. split; [reflexivity|].
  split; [vm_compute; reflexivity|].
  split; [vm_compute; reflexivity|].
  split; [reflexivity|].
  split; [vm_compute; discriminate | vm_compute; reflexivity].
Qed.

(** C3, amended.  On a store that is not empty, seedDatabase issues its
    one SELECT and creates nothing; it returns the empty list when the
    SELECT goes through and rejects with "Database seeding failed"
    when the engine fails it.  After a run that succeeded on an empty
    store there are exactly three modules, and they stay exactly those
    however often seedDatabase runs again.  When the engine fails a
    statement of a creation during the first seeding, seedDatabase
    rejects; nothing is issued after that statement; the caller gets
    the error "Database seeding failed", whatever the error of the
    creation was; and the table holds one row for each INSERT that
    went through, the rows of the first defaults in their order:
    nothing is taken back. *)
Theorem seeding_is_idempotent E db :
  inv db ->
  (rows db <> [] ->
     rows (snd (seedDatabase E db)) = rows db
     /\ log (snd (seedDatabase E db))
        = (log db ++ [mkExec SelectAll (fails E (tick db)) 0 0])%list
     /\ (fails E (tick db) = false -> fst (seedDatabase E db) = Resolve [])
     /\ (fails E (tick db) = true ->
         fst (seedDatabase E db) = Reject "Database seeding failed"))
  /\ (rows db = [] ->
      forall created db1,
        seedDatabase E db = (Resolve created, db1) ->
        List.length created = 3%nat
        /\ List.length (rows db1) = 3%nat
        /\ forall n, rows (seedTimes E n db1) = rows db1)
  /\ (rows db = [] -> fails E (tick db) = false ->
      forall j, (j < 6)%nat -> fails E (S (tick db) + j)%nat = true ->
      exists db', seedDatabase E db = (Reject "Database seeding failed", db'))
  /\ (rows db = [] -> fails E (tick db) = false ->
      forall msg db',
        seedDatabase E db = (Reject msg, db') ->
        msg = "Database seeding failed"
        /\ exists l e,
             log db' = (log db ++ l ++ [e])%list
             /\ errored e = true
             /\ Forall (fun x => errored x = false) l
             /\ rows db'
                = seededRows E
                    (firstn (List.length (filter isInsert l)) defaultModules)
                    (seq db) (S (tick db))).
Proof.
  intros I. split; [|split; [|split]].
  - intros H. rewrite (seedDatabase_nonempty E db H). simpl.
    repeat split; intros ->; reflexivity.
  - intros H created db1 S1.
    destruct (fails E (tick db)) eqn:F.
    { exfalso. exact (seedDatabase_check_failed E db created db1 H F S1). }
    rewrite (seedDatabase_empty E db H F) in S1. unfold orReject in S1.
    set (db0 := logged db (mkExec SelectAll false 0 0) [] (seq db)) in *.
    assert (I0 : inv db0).
    { apply inv_logged; [exact I | reflexivity | constructor]. }
    destruct (createEach E defaultModules [] db0) as [[out|m|] db2] eqn:C;
      try discriminate.
    injection S1 as -> ->.
    pose proof (createEach_outcome E defaultModules defaults_are_valid
                  [] db0 _ _ I0 C) as (Hr & Ho & _).
    subst db0. cbn [rows seq logged app] in Hr, Ho.
    assert (L : List.length (rows db1) = 3%nat).
    { rewrite Hr, length_seededRows. reflexivity. }
    repeat split; [rewrite Ho, length_map, length_seededRows; reflexivity
                  | exact L |].
    intros n. apply seedTimes_nonempty.
    intros N. rewrite N in L. discriminate.
  - intros H F j Hj Fj.
    rewrite (seedDatabase_empty E db H F). unfold orReject.
    set (db0 := logged db (mkExec SelectAll false 0 0) [] (seq db)) in *.
    assert (I0 : inv db0).
    { apply inv_logged; [exact I | reflexivity | constructor]. }
    destruct (createEach_fails E defaultModules defaults_are_valid [] db0 j I0)
      as (msg & db' & C).
    + exact Hj.
    + subst db0. rewrite tick_logged. exact Fj.
    + rewrite C. eexists. reflexivity.
  - intros H F msg db' S1.
    rewrite (seedDatabase_empty E db H F) in S1. unfold orReject in S1.
    set (db0 := logged db (mkExec SelectAll false 0 0) [] (seq db)) in *.
    assert (I0 : inv db0).
    { apply inv_logged; [exact I | reflexivity | constructor]. }
    destruct (createEach E defaultModules [] db0) as [[out|m|] db2] eqn:C;
      try discriminate.
    injection S1 as <- <-.
    destruct (createEach_rejected E defaultModules defaults_are_valid
                [] db0 _ _ I0 C) as (l & e & Hl & He & Hok & Hr).
    subst db0. rewrite tick_logged in Hr. cbn [rows seq log logged app] in Hr, Hl.
    split; [reflexivity|].
    exists (mkExec SelectAll false 0 0 :: l), e.
    split; [|split; [exact He|split]].
    + rewrite Hl, <- app_assoc. reflexivity.
    + constructor; [reflexivity | exact Hok].
    + exact Hr.
Qed.

Lemma seeding_is_idempotent_witness :
  List.length (rows (seedTimes Sample.sameSecond 4 Sample.seeded)) = 3%nat
  /\ (exists db', seedDatabase Sample.failingThird emptyDb
                  = (Reject "Database seeding failed", db')).
Proof.
  split.
  - unfold Sample.seeded.
    destruct (seeding_is_idempotent Sample.sameSecond emptyDb inv_empty)
      as (_ & Hb & _).
    destruct (seedDatabase Sample.sameSecond emptyDb)
      as [[created|msg|] db1] eqn:S1.
    + destruct (Hb eq_refl created db1 eq_refl) as (_ & L & Hn).
      cbn [snd]. rewrite Hn. exact L.
    + vm_compute in S1. discriminate S1.
    + vm_compute in S1. discriminate S1.
  - destruct (seeding_is_idempotent Sample.failingThird emptyDb inv_empty)
      as (_ & _ & Hc & _).
    apply (Hc eq_refl eq_refl 2%nat); [lia | reflexivity].
Defined.

End SeedingTheorems.

Section ListingTheorems.
Import Js Store Repo Seed Spec.

(** The claim of C5 fails as stated: seeded within one second, the
    defaults are listed in the order of their creation, not in its
    reverse. *)
Lemma fresh_seed_lists_in_creation_order :
  exists created db1 ms db2,
    seedDatabase Sample.sameSecond emptyDb = (Resolve created, db1)
    /\ getAllModules Sample.sameSecond db1 = (Resolve ms, db2)
    /\ map id created = [1; 2; 3]
    /\ map id ms = [1; 2; 3]
    /\ ms <> rev created.
Proof.
  eexists. eexists. eexists. eexists.
  split; [vm_compute; reflexivity|].
  split; [vm_compute; reflexivity|].
  repeat split. discriminate.
Qed.

(** C5, amended.  getAllModules, which resolves whenever the engine
    answers its SELECT, returns every stored module, sorted by
    created_at from newest to oldest, the modules of one creation time
    in the order their rows have in the table.  On a freshly seeded
    store these are the three default modules; they come in the
    reverse order of their creation when the three INSERTs ran at
    strictly increasing times, and in the order of their creation when
    all three ran in the same second. *)
Theorem listing_newest_first E db :
  (fails E (tick db) = false ->
   exists ms db', getAllModules E db = (Resolve ms, db'))
  /\ (forall ms db',
     getAllModules E db = (Resolve ms, db') ->
     Permutation ms (map moduleOfRow (rows db))
     /\ StronglySorted newestFirst ms
     /\ (forall t,
          filter (fun m => createdAt m =? t) ms
          = map moduleOfRow (filter (fun r => created_at r =? t) (rows db))))
  /\ (inv db -> rows db = [] ->
      forall created db1 ms db2,
        seedDatabase E db = (Resolve created, db1) ->
        getAllModules E db1 = (Resolve ms, db2) ->
        created = map moduleOfRow
                    (seededRows E defaultModules (seq db) (S (tick db)))
        /\ Permutation ms created
        /\ (now E (S (tick db)) < now E (S (S (S (tick db))))
            /\ now E (S (S (S (tick db)))) < now E (S (S (S (S (S (tick db))))))
            -> ms = rev created)
        /\ (now E (S (tick db)) = now E (S (S (S (tick db))))
            /\ now E (S (S (S (tick db)))) = now E (S (S (S (S (S (tick db))))))
            -> ms = created)).
Proof.
  split; [|split].
  - intros F. unfold getAllModules, bind, orReject, selectAll.
    rewrite F. eexists. eexists. reflexivity.
  - intros ms db' H.
    destruct (getAllModules_resolved E db ms db' H) as (-> & _).
    split; [|split].
    + apply Permutation_map, orderBy_perm.
    + apply moduleOfRow_sorted, orderBy_sorted.
    + intros t. now rewrite moduleOfRow_same_time, orderBy_same_time.
  - intros I H created db1 ms db2 S1 G.
    destruct (fails E (tick db)) eqn:F.
    { exfalso. exact (seedDatabase_check_failed E db created db1 H F S1). }
    rewrite (seedDatabase_empty E db H F) in S1. unfold orReject in S1.
    set (db0 := logged db (mkExec SelectAll false 0 0) [] (seq db)) in *.
    assert (I0 : inv db0).
    { apply inv_logged; [exact I | reflexivity | constructor]. }
    destruct (createEach E defaultModules [] db0) as [[out|m|] db3] eqn:C;
      try discriminate.
    injection S1 as -> ->.
    pose proof (createEach_outcome E defaultModules defaults_are_valid
                  [] db0 _ _ I0 C) as (Hr & Ho & _).
    subst db0. rewrite tick_logged in Hr, Ho.
    cbn [rows seq logged app] in Hr, Ho.
    destruct (getAllModules_resolved E db1 ms db2 G) as (-> & _).
    rewrite Hr, Ho.
    split; [reflexivity|].
    split; [apply Permutation_map, orderBy_perm|].
    split.
    + intros (L1 & L2). rewrite <- map_rev. f_equal.
      apply orderBy_increasing.
      unfold defaultModules. cbn [seededRows].
      repeat constructor; cbn [created_at newRow]; lia.
    + intros (L1 & L2). f_equal.
      apply (orderBy_constant (now E (S (tick db)))).
      unfold defaultModules. cbn [seededRows].
      repeat constructor; cbn [created_at newRow]; lia.
Qed.

Lemma listing_newest_first_witness :
  match seedDatabase Sample.ticking emptyDb with
  | (Resolve created, db1) =>
      match getAllModules Sample.ticking db1 with
      | (Resolve ms, _) => ms = rev created
      | _ => False
      end
  | _ => False
  end.
Proof.
  destruct (listing_newest_first Sample.ticking emptyDb) as (_ & _ & Hb).
  destruct (seedDatabase Sample.ticking emptyDb)
    as [[created|msg|] db1] eqn:S1;
    [| vm_compute in S1; discriminate S1 | vm_compute in S1; discriminate S1].
  destruct (getAllModules Sample.ticking db1) as [[ms|msg|] db2] eqn:G.
  - destruct (Hb inv_empty eq_refl created db1 ms db2 eq_refl G)
      as (_ & _ & Hrev & _).
    apply Hrev. vm_compute. split; reflexivity.
  - unfold getAllModules, bind, orReject, selectAll in G. simpl in G.
    discriminate G.
  - unfold getAllModules, bind, orReject, selectAll in G. simpl in G.
    discriminate G.
Defined.

End ListingTheorems.

(* ================================================================= *)
(** ** Deleting *)

Section Deleting.
Import Js Store Repo Seed Spec Server.

Lemma notFound_says_not_found (n : Z) : includes (notFound n) "not found" = true.
Proof.
  unfold notFound. do 2 apply includes_append_left. reflexivity.
Qed.

Lemma positive_id_is_valid (n : Z) : 0 < n -> invalidId (Int n) = false.
Proof.
  intros H. unfold invalidId; simpl.
  destruct (Z.eqb_spec n 0); [lia|].
  destruct (Z.leb_spec n 0); [lia | reflexivity].
Qed.

Lemma positive_id_passes_gate (n : Z) :
  0 < n -> isNaN (Int n) || leZero (Int n) = false.
Proof.
  intros H. simpl. destruct (Z.leb_spec n 0); [lia | reflexivity].
Qed.

(** C6.  For a positive integer id (up to 2^53 - 1, where the number
    parseInt returns and the digits of the message are exact) and an
    existence check the engine answers: when no row has the id,
    deleteModule rejects with a message containing "not found", the
    SELECT of the check is the only
    statement issued, and the route answers 404; when the check finds
    the row but the DELETE, run after other work has removed it,
    changes no row, deleteModule rejects with "Module deletion failed -
    no rows affected", which contains neither "not found" nor
    "required", and the route answers 500. *)
Theorem delete_failures E others idParam n db :
  0 < n <= MAX_SAFE_INTEGER ->
  parseInt idParam = Int n ->
  fails E (tick db) = false ->
  let db1 := logged db (mkExec (SelectId n) false 0 0) (rows db) (seq db) in
  (findRow n (rows db) = None ->
     deleteModule E (Int n) db = (Reject (notFound n), db1)
     /\ includes (notFound n) "not found" = true
     /\ filter isDelete (log db1) = filter isDelete (log db)
     /\ app_delete E idParam db = (Resolve (failure 404 (notFound n)), db1))
  /\ (findRow n (rows db) <> None ->
      fails E (tick (others db1)) = false ->
      matching n (rows (others db1)) = 0 ->
      let msg := "Module deletion failed - no rows affected" in
      fst (deleteModuleAmid E others (Int n) db) = Reject msg
      /\ includes msg "not found" = false
      /\ includes msg "required" = false
      /\ fst (app_deleteAmid E others idParam db)
         = Resolve (failure 500 "Failed to delete module")).
Proof.
  intros (Hn & _) Hp F db1.
  pose proof (positive_id_is_valid n Hn) as V.
  pose proof (positive_id_passes_gate n Hn) as G.
  split.
  - intros Hnone.
    assert (D : deleteModule E (Int n) db = (Reject (notFound n), db1)).
    { unfold deleteModule, deleteModuleAmid. rewrite V.
      unfold bind, orReject, selectId. cbn [valueOf]. rewrite F, Hnone.
      reflexivity. }
    repeat split; [exact D | apply notFound_says_not_found | |].
    + subst db1. cbn [log logged]. rewrite filter_app. simpl.
      now rewrite app_nil_r.
    + unfold app_delete, app_deleteAmid. rewrite Hp, G.
      unfold respond. fold (deleteModule E (Int n)). rewrite D.
      unfold classify. now rewrite notFound_says_not_found.
  - intros Hsome F2 Hzero msg.
    assert (D : fst (deleteModuleAmid E others (Int n) db) = Reject msg).
    { unfold deleteModuleAmid. rewrite V.
      unfold bind, orReject, selectId. cbn [valueOf]. rewrite F.
      destruct (findRow n (rows db)) as [r|]; [|congruence].
      cbn [option_map meanwhile]. fold db1.
      unfold deleteRow. rewrite F2, Hzero. reflexivity. }
    repeat split; [exact D|].
    unfold app_deleteAmid. rewrite Hp, G. unfold respond.
    destruct (deleteModuleAmid E others (Int n) db) as [r db2].
    cbn [fst] in D. rewrite D. reflexivity.
Qed.

Lemma delete_failures_witness :
  app_delete Sample.sameSecond "7" Sample.seeded
  = (Resolve (failure 404 "Module with ID 7 not found"),
     logged Sample.seeded (mkExec (SelectId 7) false 0 0)
       (rows Sample.seeded) (seq Sample.seeded))
  /\ fst (app_deleteAmid Sample.sameSecond Sample.removeFirst "1" Sample.seeded)
     = Resolve (failure 500 "Failed to delete module").
Proof.
  split.
  - destruct (delete_failures Sample.sameSecond (fun d => d) "7" 7 Sample.seeded)
      as (Ha & _);
      [unfold MAX_SAFE_INTEGER; lia | reflexivity | reflexivity |].
    destruct (Ha eq_refl) as (_ & _ & _ & R). exact R.
  - destruct (delete_failures Sample.sameSecond Sample.removeFirst "1" 1
                Sample.seeded) as (_ & Hb);
      [unfold MAX_SAFE_INTEGER; lia | reflexivity | reflexivity |].
    destruct Hb as (_ & _ & _ & R);
      [vm_compute; discriminate | reflexivity | reflexivity | exact R].
Defined.

End Deleting.

(* ================================================================= *)
(** ** Reading an id out of the path *)

Section ParseInt.
Import Js Store Repo Seed Spec Server.

Lemma digits_stop (rest : string) (acc : option Z) :
  startsWithDigit rest = false -> digits 10 rest acc = acc.
Proof.
  destruct rest as [|c r]; simpl; [reflexivity|].
  intros H. unfold digitValue. rewrite H.
  destruct ((97 <=? code c) && (code c <=? 122)) eqn:A.
  - apply andb_true_iff in A. destruct A as (A1 & A2).
    apply Z.leb_le in A1.
    destruct (Z.ltb_spec (code c - 87) 10); [lia | reflexivity].
  - destruct ((65 <=? code c) && (code c <=? 90)) eqn:B; [|reflexivity].
    apply andb_true_iff in B. destruct B as (B1 & B2).
    apply Z.leb_le in B1.
    destruct (Z.ltb_spec (code c - 55) 10); [lia | reflexivity].
Qed.

Lemma digits_uint (d : Decimal.uint) (rest : string) :
  startsWithDigit rest = false ->
  forall a,
    digits 10 (NilEmpty.string_of_uint d ++ rest) (Some a)
    = Some (valueAcc d a).
Proof.
  intros H. induction d; intros a; simpl;
    try (rewrite IHd; reflexivity).
  apply digits_stop, H.
Qed.

Lemma valueAcc_of_uint_acc (d : Decimal.uint) :
  forall p, Z.pos (Pos.of_uint_acc d p) = valueAcc d (Z.pos p).
Proof.
  induction d; intros p; cbn [Pos.of_uint_acc valueAcc]; try reflexivity;
    rewrite IHd; f_equal;
    rewrite ?Pos2Z.inj_add, Pos2Z.inj_mul; lia.
Qed.

Lemma valueAcc_of_uint (d : Decimal.uint) :
  Z.of_N (Pos.of_uint d) = valueAcc d 0.
Proof.
  induction d; cbn [Pos.of_uint valueAcc Z.of_N]; try reflexivity;
    try exact IHd; apply valueAcc_of_uint_acc.
Qed.

Lemma valueAcc_to_uint (p : positive) : valueAcc (Pos.to_uint p) 0 = Z.pos p.
Proof.
  rewrite <- valueAcc_of_uint, DecimalPos.Unsigned.of_to. reflexivity.
Qed.

(** A printable ASCII character is no white space, and starts none. *)
Lemma trimStart_printable (c : ascii) (r : string) :
  32 < code c < 128 -> trimStart (String c r) = String c r.
Proof.
  intros H.
  assert (W1 : isWs1 c = false).
  { unfold isWs1.
    destruct (Z.leb_spec 9 (code c)), (Z.leb_spec (code c) 13),
      (Z.eqb_spec (code c) 32); simpl; try reflexivity; lia. }
  assert (N : forall k, 128 <= k -> (code c =? k) = false).
  { intros k Hk. apply Z.eqb_neq. lia. }
  assert (W2 : forall c2, isWs2 c c2 = false).
  { intros c2. unfold isWs2. rewrite N by lia. reflexivity. }
  assert (W3 : forall c2 c3, isWs3 c c2 c3 = false).
  { intros c2 c3. unfold isWs3. rewrite !N by lia. reflexivity. }
  destruct r as [|c2 [|c3 r3]]; cbn [trimStart]; rewrite W1;
    rewrite ?W2, ?W3; reflexivity.
Qed.

Lemma magnitude_uint (d : Decimal.uint) (rest : string) :
  d <> Decimal.Nil -> d <> Decimal.D0 Decimal.Nil ->
  startsWithDigit rest = false ->
  magnitude (NilEmpty.string_of_uint d ++ rest) = Some (valueAcc d 0).
Proof.
  intros N Z0 H.
  destruct d as [|d|d|d|d|d|d|d|d|d|d]; try congruence;
    try (cbn [NilEmpty.string_of_uint append magnitude digits digitValue];
         exact (digits_uint d rest H _)).
  destruct d as [|d|d|d|d|d|d|d|d|d|d]; try congruence;
    cbn [NilEmpty.string_of_uint append magnitude].
  all: match goal with
       | |- _ = Some (valueAcc (Decimal.D0 ?x) 0) =>
           exact (digits_uint x rest H (10 * 0 + 0))
       end.
Qed.

Lemma to_uint_not_zero (p : positive) :
  Pos.to_uint p <> Decimal.Nil /\ Pos.to_uint p <> Decimal.D0 Decimal.Nil.
Proof.
  split.
  - apply Unsigned.to_uint_nonnil.
  - apply Unsigned.to_uint_nonzero.
Qed.

Lemma decimal_pos (p : positive) :
  decimal (Z.pos p) = NilEmpty.string_of_uint (Pos.to_uint p).
Proof.
  unfold decimal. cbn [Z.to_int NilZero.string_of_int].
  unfold NilZero.string_of_uint.
  destruct (Pos.to_uint p) eqn:D; try reflexivity.
  exfalso. exact (proj1 (to_uint_not_zero p) D).
Qed.

Lemma uint_starts_printable (d : Decimal.uint) (rest : string) :
  d <> Decimal.Nil ->
  exists c r, (NilEmpty.string_of_uint d ++ rest)%string = String c r
              /\ 32 < code c < 128
              /\ c <> "-"%char /\ c <> "+"%char.
Proof.
  intros N. destruct d; try congruence; simpl;
    eexists; eexists; (split; [reflexivity|]);
    (split; [vm_compute; split; reflexivity|]); split; discriminate.
Qed.

(** A positive integer in decimal, followed by anything that does not
    start with a digit, is parsed as that integer. *)
Lemma parseInt_prefix (n : Z) (rest : string) :
  0 < n -> startsWithDigit rest = false ->
  parseInt (decimal n ++ rest) = Int n.
Proof.
  intros Hn H. destruct n as [|p|p]; try lia.
  rewrite decimal_pos.
  destruct (to_uint_not_zero p) as (N & Z0).
  pose proof (magnitude_uint (Pos.to_uint p) rest N Z0 H) as M.
  destruct (uint_starts_printable (Pos.to_uint p) rest N)
    as (c & r & Hs & Hc & Hm & Hp).
  unfold parseInt. rewrite Hs in *. rewrite (trimStart_printable c r Hc).
  assert (G : match String c r with
              | String "-"%char r0 => (true, r0)
              | String "+"%char r0 => (false, r0)
              | _ => (false, String c r)
              end = (false, String c r)).
  { destruct c as [[] [] [] [] [] [] [] []]; try reflexivity; congruence. }
  rewrite G, M, valueAcc_to_uint. reflexivity.
Qed.

Lemma append_empty (s : string) : (s ++ "")%string = s.
Proof. induction s; simpl; [reflexivity | now rewrite IHs]. Qed.

(** Every integer in decimal is parsed as itself. *)
Lemma parseInt_decimal (z : Z) : parseInt (decimal z) = Int z.
Proof.
  destruct z as [|p|p].
  - reflexivity.
  - rewrite <- (append_empty (decimal (Z.pos p))).
    apply parseInt_prefix; [lia | reflexivity].
  - unfold decimal. cbn [Z.to_int NilZero.string_of_int].
    destruct (to_uint_not_zero p) as (N & Z0).
    assert (S0 : NilZero.string_of_uint (Pos.to_uint p)
                 = NilEmpty.string_of_uint (Pos.to_uint p)).
    { unfold NilZero.string_of_uint.
      destruct (Pos.to_uint p); try reflexivity. congruence. }
    rewrite S0. unfold parseInt.
    rewrite trimStart_printable by (vm_compute; split; reflexivity).
    cbv iota beta.
    pose proof (magnitude_uint (Pos.to_uint p) "" N Z0 eq_refl) as M.
    rewrite append_empty in M. rewrite M, valueAcc_to_uint. reflexivity.
Qed.

End ParseInt.

(* ================================================================= *)
(** ** The id of PUT and DELETE *)

Section PathId.
Import Js Store Repo Seed Spec Server.



End PathId.

(* ================================================================= *)
(** ** Failures seen by the client *)

Section ClientErrors.
Import Js Client.

(** The claim of C8 fails as stated.  A transport failure whose
    TypeError does not mention "fetch" yields the message of that error,
    not the fixed text; and a response whose body is no JSON yields
    status 0, not the status of the response. *)
Lemma transport_failure_with_other_message :
  apiRequest (T:=unit) (FetchThrows (TypeError "Load failed"))
  = Throws (mkApiError "Load failed" 0)
  /\ mkApiError "Load failed" 0 <> mkApiError NETWORK_ERROR 0
  /\ apiRequest (T:=unit)
       (Responds (mkFetchResponse false 502 "Bad Gateway"
                    (JsonThrows (OtherError "Unexpected token < in JSON"))))
     = Throws (mkApiError "Unexpected token < in JSON" 0).
Proof. repeat split. discriminate. Qed.

(** C8, amended.  When [fetch] throws a TypeError whose message contains
    "fetch", apiRequest throws the ApiError with the fixed network
    message and status 0.  Any other Error thrown by [fetch] yields
    status 0 with the message of that error, and a thrown value that is
    no Error yields status 0 with "An unexpected error occurred".  What
    [response.json()] throws is treated as if [fetch] had thrown it.  A
    failure made from a parsed envelope, which is what a response that
    is not ok or an envelope without success gives, carries the status
    of the response and, as message, the error of the envelope or,
    when that is absent or empty, "HTTP status: statusText" for a
    response that is not ok and "API request failed" for one that is;
    as the status of a response is not 0, it differs from the network
    error. *)
Theorem network_error_is_distinguished (T : Type) :
  (forall msg,
     includes msg "fetch" = true ->
     apiRequest (T:=T) (FetchThrows (TypeError msg))
     = Throws (mkApiError NETWORK_ERROR 0))
  /\ (forall msg,
        includes msg "fetch" = false ->
        apiRequest (T:=T) (FetchThrows (TypeError msg))
        = Throws (mkApiError msg 0))
  /\ (forall msg,
        apiRequest (T:=T) (FetchThrows (OtherError msg))
        = Throws (mkApiError msg 0))
  /\ apiRequest (T:=T) (FetchThrows NotAnError)
     = Throws (mkApiError "An unexpected error occurred" 0)
  /\ (forall r t,
        json r = JsonThrows t ->
        apiRequest (T:=T) (Responds r) = apiRequest (FetchThrows t))
  /\ (forall r d,
        json r = Json d ->
        ok r = false \/ success d = false ->
        exists e,
          apiRequest (T:=T) (Responds r) = Throws e
          /\ status e = http_status r
          /\ message e
             = orElse (error d)
                 (if ok r then "API request failed"
                  else "HTTP " ++ decimal (http_status r) ++ ": "
                       ++ statusText r)
          /\ (http_status r <> 0 -> e <> mkApiError NETWORK_ERROR 0)).
Proof.
  split; [|split; [|split; [|split; [|split]]]].
  - intros msg H. simpl. now rewrite H.
  - intros msg H. simpl. now rewrite H.
  - reflexivity.
  - reflexivity.
  - intros r t J. simpl. now rewrite J.
  - intros r d J H.
    exists (mkApiError
              (orElse (error d)
                 (if ok r then "API request failed"
                  else "HTTP " ++ decimal (http_status r) ++ ": "
                       ++ statusText r))
              (http_status r)).
    split; [|split; [reflexivity|split; [reflexivity|]]].
    + cbn [apiRequest]. rewrite J.
      destruct (ok r); cbn [negb]; [|reflexivity].
      destruct H as [H|H]; [discriminate|]. now rewrite H.
    + intros S0 N. injection N as _ N. contradiction.
Qed.

Lemma network_error_is_distinguished_witness :
  apiRequest (T:=unit) (FetchThrows (TypeError "Failed to fetch"))
  = Throws (mkApiError NETWORK_ERROR 0)
  /\ apiRequest (T:=unit)
       (Responds (mkFetchResponse false 404 "Not Found"
                    (Json (mkApiResponse false None (Some "Module with ID 9 not found")))))
     = Throws (mkApiError "Module with ID 9 not found" 404).
Proof.
  destruct (network_error_is_distinguished unit)
    as (Ha & _ & _ & _ & _ & Hc).
  split.
  - apply Ha. reflexivity.
  - destruct (Hc (mkFetchResponse false 404 "Not Found"
                    (Json (mkApiResponse false None
                             (Some "Module with ID 9 not found"))))
                (mkApiResponse false None (Some "Module with ID 9 not found"))
                eq_refl (or_introl eq_refl)) as (e & He & Hs & Hm & _).
    rewrite He. f_equal. destruct e as [m st].
    cbn [status message] in Hs, Hm. now rewrite Hs, Hm.
Defined.

End ClientErrors.

(* ================================================================= *)
(** ** Validation before the request is sent *)

Section Preflight.
Import Js Store Repo Spec.

Lemma blankField_spec (v : JsVal) (b : bool) :
  Client.blankField v = Some b -> nonEmptyAfterTrim v = negb b.
Proof.
  destruct v; simpl; intros H; try discriminate; now injection H as <-.
Qed.

Lemma nameOf_get (o : JsVal) : Client.nameOf o = get o "name".
Proof. now destruct o. Qed.

(** The checks of the client against those of the repository. *)
Lemma checkContent_spec (T : Type) (d : JsVal) :
  isObject d = true ->
  match Client.checkContent (T:=T) d with
  | Some (Client.Throws e) =>
      Client.status e = 400
      /\ validate d = Some (serverText (Client.message e))
      /\ ((Client.message e = "Prompt is required"
           /\ nonEmptyAfterTrim (get d "prompt") = false)
          \/ (Client.message e = "English name is required"
              /\ nonEmptyAfterTrim (get d "prompt") = true
              /\ nonEmptyAfterTrim (get (get d "en") "name") = false)
          \/ (Client.message e = "Kannada name is required"
              /\ nonEmptyAfterTrim (get d "prompt") = true
              /\ nonEmptyAfterTrim (get (get d "en") "name") = true
              /\ nonEmptyAfterTrim (get (get d "kn") "name") = false))
  | Some _ => True
  | None => validate d = None
  end.
Proof.
  intros O. rewrite (validate_spec d O). unfold Client.checkContent.
  destruct d as [| | | |fs]; try discriminate. cbn [nullish].
  rewrite !nameOf_get.
  destruct (Client.blankField (get (VObj fs) "prompt")) as [[|]|] eqn:P;
    [| |exact I]; rewrite (blankField_spec _ _ P); cbn [negb].
  { repeat split. left. split; reflexivity. }
  destruct (Client.blankField (get (get (VObj fs) "en") "name"))
    as [[|]|] eqn:N1; [| |exact I]; rewrite (blankField_spec _ _ N1);
    cbn [negb].
  { repeat split. right. left. repeat split. }
  destruct (Client.blankField (get (get (VObj fs) "kn") "name"))
    as [[|]|] eqn:N2; [| |exact I]; rewrite (blankField_spec _ _ N2);
    cbn [negb].
  { repeat split. right. right. repeat split. }
  reflexivity.
Qed.

Lemma serverText_is_validation (m : string) :
  m = "Prompt is required" \/ m = "English name is required"
  \/ m = "Kannada name is required" ->
  Server.isValidation (serverText m) = true
  /\ includes (serverText m) "not found" = false.
Proof. intros [-> | [-> | ->]]; split; reflexivity. Qed.

Lemma object_is_truthy (d : JsVal) : isObject d = true -> truthy d = true.
Proof. destruct d; simpl; auto; discriminate. Qed.

(** The claim of C9 fails as stated: for an empty prompt the client
    says "Prompt is required" where the server answers "Module prompt
    is required".  And for the id 0.5, which the client lets pass and
    which the server reads from the path "/api/modules/0.5" as 0, an
    empty English name makes the client say "English name is required"
    where the server answers "Valid module ID is required". *)
Lemma prompt_message_differs :
  Client.createModule (T:=unit) (fun m => m) Sample.noPrompt
    (Client.FetchThrows Client.NotAnError)
  = Client.Throws (Client.mkApiError "Prompt is required" 400)
  /\ Server.app_post Sample.sameSecond Sample.noPrompt emptyDb
     = (Resolve (Server.failure 400 "Module prompt is required"), emptyDb)
  /\ "Prompt is required" <> "Module prompt is required"
  /\ Client.updateModule (T:=unit) (fun m => m) (Frac 0) Sample.noNames
       (Client.FetchThrows Client.NotAnError)
     = Client.Throws (Client.mkApiError "English name is required" 400)
  /\ Server.app_put Sample.sameSecond "0.5" Sample.noNames emptyDb
     = (Resolve (Server.failure 400 "Valid module ID is required"), emptyDb).
Proof. repeat split. discriminate. Qed.

(** C9, amended.  For a request whose data is an object and, for
    update, whose id is NaN or an integer (up to 2^53 - 1 in absolute
    value, sent in the path in plain digits), the client checks,
    before sending anything, what the server checks and in the same
    order: for update first that the id is positive, then that the
    prompt, then en.name, then kn.name is non-empty after trimming.
    Whatever the client rejects the server rejects too, with status 400
    and with the same message, except for the prompt, where the client
    says "Prompt is required" and the server "Module prompt is
    required"; what passes the client's checks passes the
    repository's.  An id that is no integer is only required to be
    positive by the client. *)
Theorem preflight_mirrors_repository (T : Type) (withDates : T -> T) E db d z :
  isObject d = true ->
  (Z.abs z <= MAX_SAFE_INTEGER ->
   Client.badId (Int z) = true ->
     (forall f,
        Client.updateModule withDates (Int z) d f
        = Client.Throws (Client.mkApiError "Valid module ID is required" 400))
     /\ Server.app_put E (decimal z) d db
        = (Resolve (Server.failure 400 "Valid module ID is required"), db))
  /\ ((forall f,
         Client.updateModule withDates NaN d f
         = Client.Throws (Client.mkApiError "Valid module ID is required" 400))
      /\ Server.app_put E "NaN" d db
         = (Resolve (Server.failure 400 "Valid module ID is required"), db))
  /\ (forall e,
        Client.checkContent (T:=T) d = Some (Client.Throws e) ->
        Client.status e = 400
        /\ ((Client.message e = "Prompt is required"
             /\ nonEmptyAfterTrim (get d "prompt") = false)
            \/ (Client.message e = "English name is required"
                /\ nonEmptyAfterTrim (get d "prompt") = true
                /\ nonEmptyAfterTrim (get (get d "en") "name") = false)
            \/ (Client.message e = "Kannada name is required"
                /\ nonEmptyAfterTrim (get d "prompt") = true
                /\ nonEmptyAfterTrim (get (get d "en") "name") = true
                /\ nonEmptyAfterTrim (get (get d "kn") "name") = false))
        /\ (forall f, Client.createModule withDates d f = Client.Throws e)
        /\ Server.app_post E d db
           = (Resolve (Server.failure 400 (serverText (Client.message e))), db)
        /\ (Z.abs z <= MAX_SAFE_INTEGER ->
            Client.badId (Int z) = false ->
            (forall f, Client.updateModule withDates (Int z) d f
                       = Client.Throws e)
            /\ Server.app_put E (decimal z) d db
               = (Resolve (Server.failure 400 (serverText (Client.message e))),
                  db)))
  /\ (Client.checkContent (T:=T) d = None -> validate d = None)
  /\ (forall f, Client.badId (Frac f) = (f <? 0)).
Proof.
  intros O. pose proof (checkContent_spec T d O) as C.
  pose proof (object_is_truthy d O) as Tr.
  split; [|split; [|split; [|split]]].
  - intros Hz B. split.
    + intros f. unfold Client.updateModule. now rewrite B.
    + unfold Server.app_put. rewrite parseInt_decimal.
      unfold Client.badId in B. simpl in B |- *.
      destruct (Z.eqb_spec z 0) as [->|]; [reflexivity|].
      simpl in B. now rewrite B.
  - split; reflexivity.
  - intros e He. rewrite He in C. destruct C as (Hs & V & Hcase).
    assert (M : Client.message e = "Prompt is required"
                \/ Client.message e = "English name is required"
                \/ Client.message e = "Kannada name is required").
    { destruct Hcase as [(? & _) | [(? & _) | (? & _)]]; auto. }
    destruct (serverText_is_validation _ M) as (IV & NF).
    split; [exact Hs|]. split; [exact Hcase|]. split; [|split].
    + intros f. unfold Client.createModule. now rewrite He.
    + unfold Server.app_post, Server.respond. rewrite Tr. cbn [negb].
      rewrite (rejected_by_validation E d db _ V), IV. reflexivity.
    + intros Hz B. split.
      { intros f. unfold Client.updateModule. now rewrite B, He. }
      unfold Server.app_put. rewrite parseInt_decimal.
      unfold Client.badId in B. simpl in B |- *.
      destruct (Z.eqb_spec z 0); [discriminate|]. simpl in B.
      rewrite B, Tr. cbn [negb]. unfold Server.respond, updateModule.
      assert (Vid : invalidId (Int z) = false).
      { unfold invalidId; simpl. rewrite B.
        destruct (Z.eqb_spec z 0); [contradiction | reflexivity]. }
      rewrite Vid, V. unfold reject, Server.classify. rewrite NF, IV.
      reflexivity.
  - intros He. rewrite He in C. exact C.
  - intros f. reflexivity.
Qed.

Lemma preflight_mirrors_repository_witness :
  Server.app_post Sample.sameSecond Sample.noKannada emptyDb
  = (Resolve (Server.failure 400 "Kannada name is required"), emptyDb)
  /\ Server.app_put Sample.sameSecond "0" Sample.noKannada emptyDb
     = (Resolve (Server.failure 400 "Valid module ID is required"), emptyDb).
Proof.
  destruct (preflight_mirrors_repository unit (fun m => m) Sample.sameSecond
              emptyDb Sample.noKannada 0 eq_refl)
    as (Ha & _ & Hb & _).
  split.
  - destruct (Hb (Client.mkApiError "Kannada name is required" 400) eq_refl)
      as (_ & _ & _ & Hp & _).
    exact Hp.
  - destruct Ha as (_ & Hput);
      [unfold MAX_SAFE_INTEGER; simpl; lia | reflexivity | exact Hput].
Defined.

End Preflight.

(* ================================================================= *)
(** ** What every call keeps *)

Section Preservation.
Import Js Store Repo Seed Spec Inv.

Lemma preserves_resolve A P (a : A) : preserves P (resolve a).
Proof. intros db H; exact H. Qed.

Lemma preserves_reject A P msg : preserves P (@reject A msg).
Proof. intros db H; exact H. Qed.

Lemma preserves_uncaught A P : preserves P (@uncaught A).
Proof. intros db H; exact H. Qed.

Lemma preserves_bind A B P (m : M A) (k : A -> M B) :
  preserves P m -> (forall a, preserves P (k a)) -> preserves P (bind m k).
Proof.
  intros Hm Hk db H. unfold bind. specialize (Hm db H).
  destruct (m db) as [[a|msg|] db']; simpl in *; auto.
  apply Hk; exact Hm.
Qed.

Lemma preserves_orReject A P (m : M A) msg :
  preserves P m -> preserves P (orReject m msg).
Proof.
  intros Hm db H. unfold orReject. specialize (Hm db H).
  destruct (m db) as [[a|msg'|] db']; simpl in *; auto.
Qed.

(** Data that passed validation binds filled parameters. *)
Lemma validate_filled (d : JsVal) :
  validate d = None -> filledParams (paramsOf d).
Proof.
  unfold validate. intros H.
  destruct (negb (truthy d) || negb (typeof d =? "object")%string);
    [discriminate|].
  destruct (missing (get d "prompt")) eqn:P0; [discriminate|].
  destruct (negb (truthy (get d "en")) || missing (get (get d "en") "name"))
    eqn:N1; [discriminate|].
  destruct (negb (truthy (get d "kn")) || missing (get (get d "kn") "name"))
    eqn:N2; [discriminate|].
  apply orb_false_elim in N1, N2.
  destruct (missing_false _ P0) as (p & Hp & Tp).
  destruct (missing_false _ (proj2 N1)) as (e & He & Te).
  destruct (missing_false _ (proj2 N2)) as (k & Hk & Tk).
  unfold filledParams, paramsOf; simpl. rewrite Hp, He, Hk. simpl. auto.
Qed.

Section Calls.
Variable P : Db -> Prop.
Variable E : Env.
Hypothesis engine : engineKeeps P E.

Lemma preserves_returnRow row : preserves P (returnRow row).
Proof.
  destruct row; [apply preserves_resolve | apply preserves_uncaught].
Qed.

Lemma preserves_getAllModules : preserves P (getAllModules E).
Proof.
  destruct engine as (kAll & kRow & kId & kDel & kIns & kUpd).
  apply preserves_bind; [apply preserves_orReject, kAll|].
  intros l. apply preserves_resolve.
Qed.

Lemma preserves_createModule d : preserves P (createModule E d).
Proof.
  destruct engine as (kAll & kRow & kId & kDel & kIns & kUpd).
  unfold createModule. destruct (validate d) eqn:V;
    [apply preserves_reject|].
  apply preserves_bind;
    [apply preserves_orReject, kIns, validate_filled, V|].
  intros lastID. apply preserves_bind;
    [apply preserves_orReject, kRow | apply preserves_returnRow].
Qed.

Lemma preserves_updateModule i d : preserves P (updateModule E i d).
Proof.
  destruct engine as (kAll & kRow & kId & kDel & kIns & kUpd).
  unfold updateModule. destruct (invalidId i); [apply preserves_reject|].
  destruct (validate d) eqn:V; [apply preserves_reject|].
  apply preserves_bind; [apply preserves_orReject, kId|].
  intros [found|]; [|apply preserves_reject].
  apply preserves_bind;
    [apply preserves_orReject, kUpd, validate_filled, V|].
  intros _. apply preserves_bind;
    [apply preserves_orReject, kRow | apply preserves_returnRow].
Qed.

Lemma preserves_deleteModule i : preserves P (deleteModule E i).
Proof.
  destruct engine as (kAll & kRow & kId & kDel & kIns & kUpd).
  unfold deleteModule, deleteModuleAmid.
  destruct (invalidId i); [apply preserves_reject|].
  apply preserves_bind; [apply preserves_orReject, kId|].
  intros [found|]; [|apply preserves_reject].
  apply preserves_bind; [intros db H; exact H|]. intros _.
  apply preserves_bind; [apply preserves_orReject, kDel|].
  intros changes.
  destruct (changes =? 0); [apply preserves_reject | apply preserves_resolve].
Qed.

Lemma preserves_getModuleById i : preserves P (getModuleById E i).
Proof.
  destruct engine as (kAll & kRow & kId & kDel & kIns & kUpd).
  unfold getModuleById. destruct (invalidId i); [apply preserves_reject|].
  apply preserves_bind; [apply preserves_orReject, kRow|].
  intros row. apply preserves_resolve.
Qed.

Lemma preserves_createEach data :
  forall acc, preserves P (createEach E data acc).
Proof.
  induction data as [|d data IH]; intros acc; simpl;
    [apply preserves_resolve|].
  apply preserves_bind; [apply preserves_createModule|].
  intros m. apply IH.
Qed.

Lemma preserves_isDatabaseEmpty : preserves P (isDatabaseEmpty E).
Proof.
  apply preserves_bind; [apply preserves_orReject, preserves_getAllModules|].
  intros l. apply preserves_resolve.
Qed.

Lemma preserves_seedDatabase : preserves P (seedDatabase E).
Proof.
  apply preserves_orReject, preserves_bind;
    [apply preserves_isDatabaseEmpty|].
  intros b. destruct (negb b);
    [apply preserves_resolve | apply preserves_createEach].
Qed.

Lemma preserves_forceSeedDatabase : preserves P (forceSeedDatabase E).
Proof. apply preserves_orReject, preserves_createEach. Qed.

Lemma preserved_after c db : P db -> P (after E c db).
Proof.
  destruct c; simpl.
  - apply preserves_createModule.
  - apply preserves_updateModule.
  - apply preserves_deleteModule.
  - apply preserves_getAllModules.
  - apply preserves_getModuleById.
  - apply preserves_seedDatabase.
  - apply preserves_forceSeedDatabase.
Qed.

(** What every statement keeps, every history of calls keeps. *)
Lemma preserved_runCalls cs : forall db, P db -> P (runCalls E cs db).
Proof.
  induction cs as [|c cs IH]; intros db H; simpl; [exact H|].
  apply IH, preserved_after, H.
Qed.

End Calls.

End Preservation.

(* ================================================================= *)
(** ** Invariants of the table *)

Section TableInvariants.
Import Js Store Repo Seed Spec Inv.

Lemma ascending_filter (f : Row -> bool) (l : list Row) :
  ascending l -> ascending (filter f l).
Proof.
  induction 1 as [|x l Hs IH Hx]; simpl; [constructor|].
  destruct (f x); [|exact IH].
  constructor; [exact IH|].
  apply Forall_forall. intros y Hy. apply filter_In in Hy.
  rewrite Forall_forall in Hx. apply Hx, Hy.
Qed.

Lemma ascending_map (f : Row -> Row) (l : list Row) :
  (forall r, row_id (f r) = row_id r) ->
  ascending l -> ascending (map f l).
Proof.
  intros Hf. induction 1 as [|x l Hs IH Hx]; simpl; constructor;
    [exact IH|].
  apply Forall_map. eapply Forall_impl; [|exact Hx].
  simpl. intros y Hy. now rewrite !Hf.
Qed.

Lemma ascending_snoc (l : list Row) (r : Row) (s : Z) :
  ascending l -> Forall (fun x => 0 < row_id x <= s) l -> s < row_id r ->
  ascending (l ++ [r]).
Proof.
  intros Ha Hb Hr. induction Ha as [|x l Hs IH Hx]; simpl.
  - repeat constructor.
  - inversion Hb as [|? ? Hx0 Hl]; subst.
    constructor; [apply IH, Hl|].
    apply Forall_app. split; [exact Hx|].
    constructor; [lia | constructor].
Qed.

Lemma ascending_NoDup (l : list Row) :
  ascending l -> NoDup (map row_id l).
Proof.
  induction 1 as [|x l Hs IH Hx]; simpl; constructor; [|exact IH].
  intros Hin. apply in_map_iff in Hin. destruct Hin as (y & Hy & Hin).
  rewrite Forall_forall in Hx. specialize (Hx y Hin). lia.
Qed.

(** In a table with growing ids the lookup by id finds the row. *)
Lemma findRow_In (l : list Row) (r : Row) :
  ascending l -> In r l -> findRow (row_id r) l = Some r.
Proof.
  unfold findRow. induction 1 as [|x l Hs IH Hx]; simpl; [contradiction|].
  intros [->|Hin]; [now rewrite Z.eqb_refl|].
  rewrite Forall_forall in Hx. specialize (Hx r Hin).
  destruct (Z.eqb_spec (row_id x) (row_id r)); [lia | apply IH, Hin].
Qed.

Lemma findRow_none (id : Z) (l : list Row) :
  findRow id l = None <-> forall r, In r l -> row_id r <> id.
Proof.
  unfold findRow. split.
  - intros H r Hin Heq.
    apply (find_none _ _ H) in Hin. apply Z.eqb_neq in Hin. contradiction.
  - intros H. induction l as [|x l IH]; simpl; [reflexivity|].
    destruct (Z.eqb_spec (row_id x) id) as [Heq|];
      [exfalso; exact (H x (or_introl eq_refl) Heq)|].
    apply IH. intros r Hin. apply H. now right.
Qed.

Lemma wf_empty : wf emptyDb.
Proof. unfold wf, ascending; simpl. repeat split; (lia || constructor). Qed.

Lemma wf_same db e rs :
  wf db ->
  Forall (fun r => 0 < row_id r <= seq db) rs -> ascending rs ->
  Forall filled rs ->
  wf (logged db e rs (seq db)).
Proof. intros (H0 & _) Hb Ha Hf. unfold wf; simpl. auto. Qed.

Lemma wf_untouched db e : wf db -> wf (logged db e (rows db) (seq db)).
Proof. intros H. apply wf_same; [exact H | apply H | apply H | apply H]. Qed.

Lemma engine_keeps_wf E : engineKeeps wf E.
Proof.
  unfold engineKeeps.
  split; [|split; [|split; [|split; [|split]]]]; unfold preserves.
  - intros db H. unfold selectAll, failed.
    destruct (fails E (tick db)); simpl; apply wf_untouched, H.
  - intros id db H. unfold selectRow, failed.
    destruct (fails E (tick db)); simpl; apply wf_untouched, H.
  - intros id db H. unfold selectId, failed.
    destruct (fails E (tick db)); simpl; apply wf_untouched, H.
  - intros id db H. unfold deleteRow, failed.
    destruct (fails E (tick db)); simpl; [apply wf_untouched, H|].
    destruct H as (H0 & Hb & Ha & Hf).
    apply wf_same; [repeat split; assumption | | |].
    + apply Forall_forall. intros r Hr. apply filter_In in Hr.
      rewrite Forall_forall in Hb. apply Hb, Hr.
    + apply ascending_filter, Ha.
    + apply Forall_forall. intros r Hr. apply filter_In in Hr.
      rewrite Forall_forall in Hf. apply Hf, Hr.
  - intros p Hp db H. unfold insertRow, failed.
    destruct (fails E (tick db)); simpl; [apply wf_untouched, H|].
    destruct H as (H0 & Hb & Ha & Hf). unfold wf; simpl.
    repeat split.
    + lia.
    + apply Forall_app. split.
      * eapply Forall_impl; [|exact Hb]. simpl; intros; lia.
      * constructor; [simpl; lia | constructor].
    + apply (ascending_snoc _ _ (seq db)); [assumption | assumption|].
      simpl; lia.
    + apply Forall_app. split; [exact Hf|].
      constructor; [exact Hp | constructor].
  - intros p id Hp db H. unfold updateRow, failed.
    destruct (fails E (tick db)); simpl; [apply wf_untouched, H|].
    destruct H as (H0 & Hb & Ha & Hf).
    apply wf_same; [repeat split; assumption | | |].
    + apply Forall_map. eapply Forall_impl; [|exact Hb].
      simpl. intros r Hr. now destruct (row_id r =? id).
    + apply ascending_map; [|exact Ha].
      intros r. now destruct (row_id r =? id).
    + apply Forall_map. eapply Forall_impl; [|exact Hf].
      simpl. intros r Hr. destruct (row_id r =? id); [exact Hp | exact Hr].
Qed.

Lemma wf_runCalls E cs : wf (runCalls E cs emptyDb).
Proof.
  apply preserved_runCalls; [apply engine_keeps_wf | apply wf_empty].
Qed.

(** X1.  After any history of calls on an initially empty database the
    ids grow along the table, no two rows share an id, and every id is
    positive and within the counter. *)
Theorem table_ids_ascend E cs :
  ascending (rows (runCalls E cs emptyDb))
  /\ NoDup (map row_id (rows (runCalls E cs emptyDb)))
  /\ Forall (fun r => 0 < row_id r <= seq (runCalls E cs emptyDb))
       (rows (runCalls E cs emptyDb)).
Proof.
  destruct (wf_runCalls E cs) as (_ & Hb & Ha & _).
  repeat split; [exact Ha | apply ascending_NoDup, Ha | exact Hb].
Qed.

(** X2.  After any history of calls on an initially empty database no
    row has an empty prompt, English name or Kannada name, and so no
    module that getAllModules returns has one. *)
Theorem required_texts_stay_filled E cs :
  Forall filled (rows (runCalls E cs emptyDb))
  /\ (forall ms db',
        getAllModules E (runCalls E cs emptyDb) = (Resolve ms, db') ->
        Forall (fun m => prompt m <> "" /\ name (en m) <> ""
                         /\ name (kn m) <> "") ms).
Proof.
  destruct (wf_runCalls E cs) as (_ & _ & _ & Hf).
  split; [exact Hf|].
  intros ms db' H.
  destruct (getAllModules_resolved E _ ms db' H) as (-> & _).
  apply Forall_map.
  eapply Permutation_Forall; [symmetry; apply orderBy_perm|].
  exact Hf.
Qed.

Lemma required_texts_stay_filled_witness :
  match getAllModules Sample.sameSecond
          (runCalls Sample.sameSecond
             [SeedCall; Update (Int 2) Sample.padded; Delete (Int 1)] emptyDb)
  with
  | (Resolve ms, _) =>
      Forall (fun m => prompt m <> "" /\ name (en m) <> ""
                       /\ name (kn m) <> "") ms
  | _ => False
  end.
Proof.
  destruct (getAllModules Sample.sameSecond
              (runCalls Sample.sameSecond
                 [SeedCall; Update (Int 2) Sample.padded; Delete (Int 1)]
                 emptyDb)) as [[ms|msg|] db'] eqn:H.
  - exact (proj2 (required_texts_stay_filled Sample.sameSecond
                    [SeedCall; Update (Int 2) Sample.padded; Delete (Int 1)])
             ms db' H).
  - vm_compute in H. discriminate H.
  - vm_compute in H. discriminate H.
Defined.

Lemma timely_step E db e rs :
  monotone E ->
  Forall (fun r => created_at r <= updated_at r
                   /\ updated_at r <= now E (tick db)) rs ->
  timely E (logged db e rs (seq db)).
Proof.
  intros Hm H. unfold timely. rewrite tick_logged. simpl.
  eapply Forall_impl; [|exact H]. simpl. intros r (H1 & H2).
  split; [exact H1|].
  specialize (Hm (tick db) (S (tick db))). lia.
Qed.

Lemma engine_keeps_timely E : monotone E -> engineKeeps (timely E) E.
Proof.
  intros Hm. unfold engineKeeps.
  split; [|split; [|split; [|split; [|split]]]]; unfold preserves.
  - intros db H. unfold selectAll, failed.
    destruct (fails E (tick db)); simpl; apply timely_step; assumption.
  - intros id db H. unfold selectRow, failed.
    destruct (fails E (tick db)); simpl; apply timely_step; assumption.
  - intros id db H. unfold selectId, failed.
    destruct (fails E (tick db)); simpl; apply timely_step; assumption.
  - intros id db H. unfold deleteRow, failed.
    destruct (fails E (tick db)); simpl;
      [apply timely_step; assumption|].
    apply timely_step; [exact Hm|].
    apply Forall_forall. intros r Hr. apply filter_In in Hr.
    unfold timely in H. rewrite Forall_forall in H. apply H, Hr.
  - intros p _ db H. unfold insertRow, failed.
    destruct (fails E (tick db)); simpl;
      [apply timely_step; assumption|].
    unfold timely. rewrite tick_logged. simpl.
    pose proof (Hm (tick db) (S (tick db))) as Hs.
    apply Forall_app. split.
    + eapply Forall_impl; [|exact H]. simpl. intros r (H1 & H2).
      split; [exact H1 | lia].
    + constructor; [simpl; lia | constructor].
  - intros p id _ db H. unfold updateRow, failed.
    destruct (fails E (tick db)); simpl;
      [apply timely_step; assumption|].
    apply timely_step; [exact Hm|].
    apply Forall_map. eapply Forall_impl; [|exact H].
    simpl. intros r (H1 & H2).
    destruct (row_id r =? id); simpl; lia.
Qed.

(** X3.  When CURRENT_TIMESTAMP never runs backwards then, after any
    history of calls on an initially empty database, created_at is not
    after updated_at in any row, and createdAt not after updatedAt in
    any module that getAllModules returns. *)
Theorem updatedAt_not_before_createdAt E cs :
  monotone E ->
  Forall (fun r => created_at r <= updated_at r)
    (rows (runCalls E cs emptyDb))
  /\ (forall ms db',
        getAllModules E (runCalls E cs emptyDb) = (Resolve ms, db') ->
        Forall (fun m => createdAt m <= updatedAt m) ms).
Proof.
  intros Hm.
  assert (T : timely E (runCalls E cs emptyDb)).
  { apply preserved_runCalls; [apply engine_keeps_timely, Hm|].
    constructor. }
  assert (R : Forall (fun r => created_at r <= updated_at r)
                (rows (runCalls E cs emptyDb))).
  { eapply Forall_impl; [|exact T]. simpl. intros r (H1 & _). exact H1. }
  split; [exact R|].
  intros ms db' H.
  destruct (getAllModules_resolved E _ ms db' H) as (-> & _).
  apply Forall_map.
  eapply Permutation_Forall; [symmetry; apply orderBy_perm | exact R].
Qed.

Lemma ticking_is_monotone : monotone Sample.ticking.
Proof. intros i j H. unfold Sample.ticking. cbn [now]. lia. Qed.

Lemma updatedAt_not_before_createdAt_witness :
  Forall (fun r => created_at r <= updated_at r)
    (rows (runCalls Sample.ticking
             [SeedCall; Update (Int 2) Sample.padded] emptyDb)).
Proof.
  exact (proj1 (updatedAt_not_before_createdAt Sample.ticking
                  [SeedCall; Update (Int 2) Sample.padded]
                  ticking_is_monotone)).
Defined.

End TableInvariants.

(* ================================================================= *)
(** ** Reading *)

Section Reading.
Import Js Store Repo Seed Spec Inv.

Lemma invalidId_spec (i : JsNum) :
  invalidId i = false <-> exists n, 0 < n /\ i = Int n.
Proof.
  split.
  - destruct i as [|z|f]; unfold invalidId; simpl; try discriminate.
    intros H. apply orb_false_elim in H. destruct H as (_ & H).
    exists z. split; [|reflexivity].
    destruct (Z.leb_spec z 0); [discriminate | assumption].
  - intros (n & Hn & ->). apply positive_id_is_valid, Hn.
Qed.

(** X4.  An id that is not a positive integer (NaN, zero, a negative
    or a fractional number) makes updateModule, deleteModule and
    getModuleById reject with "Valid module ID is required", whatever
    the data, and the database, its statement log included, is left as
    it was. *)
Theorem bad_id_is_rejected_before_storage E i d db :
  (forall n, 0 < n -> i <> Int n) ->
  updateModule E i d db = (Reject "Valid module ID is required", db)
  /\ deleteModule E i db = (Reject "Valid module ID is required", db)
  /\ getModuleById E i db = (Reject "Valid module ID is required", db).
Proof.
  intros H.
  assert (V : invalidId i = true).
  { destruct (invalidId i) eqn:V; [reflexivity|].
    apply invalidId_spec in V. destruct V as (n & Hn & ->).
    exfalso. exact (H n Hn eq_refl). }
  unfold updateModule, deleteModule, deleteModuleAmid, getModuleById.
  rewrite V. repeat split.
Qed.

Lemma bad_id_is_rejected_before_storage_witness :
  deleteModule Sample.sameSecond (Frac 2) Sample.seeded
  = (Reject "Valid module ID is required", Sample.seeded).
Proof.
  apply (bad_id_is_rejected_before_storage Sample.sameSecond (Frac 2)
           VNull Sample.seeded).
  intros n _. discriminate.
Defined.

(** X5.  After any history of calls on an initially empty database,
    and with the engine answering the SELECT, getModuleById resolves
    for the id of a stored row to the module of that row and for a
    positive id that no row carries to null; when the engine fails the
    SELECT it rejects with "Failed to fetch module from database". *)
Theorem lookup_by_id E cs :
  let db := runCalls E cs emptyDb in
  (fails E (tick db) = false ->
     (forall r, In r (rows db) ->
        fst (getModuleById E (Int (row_id r)) db)
        = Resolve (Some (moduleOfRow r)))
     /\ (forall n, 0 < n -> (forall r, In r (rows db) -> row_id r <> n) ->
         fst (getModuleById E (Int n) db) = Resolve None))
  /\ (fails E (tick db) = true ->
      forall n, 0 < n ->
        fst (getModuleById E (Int n) db)
        = Reject "Failed to fetch module from database").
Proof.
  intros db. destruct (wf_runCalls E cs) as (_ & Hb & Ha & _). fold db in Hb, Ha.
  split.
  - intros F. split.
    + intros r Hin.
      assert (Hpos : 0 < row_id r).
      { rewrite Forall_forall in Hb. apply (Hb r Hin). }
      unfold getModuleById. rewrite (positive_id_is_valid _ Hpos).
      unfold bind, orReject, selectRow. rewrite F. cbn [valueOf fst].
      now rewrite (findRow_In _ _ Ha Hin).
    + intros n Hn Hnone.
      unfold getModuleById. rewrite (positive_id_is_valid _ Hn).
      unfold bind, orReject, selectRow. rewrite F. cbn [valueOf fst].
      now rewrite (proj2 (findRow_none n (rows db)) Hnone).
  - intros F n Hn.
    unfold getModuleById. rewrite (positive_id_is_valid _ Hn).
    unfold bind, orReject, selectRow. rewrite F. reflexivity.
Qed.

Lemma lookup_by_id_witness :
  fst (getModuleById Sample.sameSecond (Int 9) Sample.seeded) = Resolve None.
Proof.
  destruct (lookup_by_id Sample.sameSecond [SeedCall]) as (Ha & _).
  destruct (Ha eq_refl) as (_ & Hn).
  apply (Hn 9); [lia|].
  intros r Hin. vm_compute in Hin.
  destruct Hin as [<- | [<- | [<- | []]]]; discriminate.
Defined.

(** X6.  getAllModules, getModuleById and isDatabaseEmpty never change
    the table or the id counter, whether they resolve or reject. *)
Theorem reads_change_nothing E i :
  readOnly (getAllModules E)
  /\ readOnly (getModuleById E i)
  /\ readOnly (isDatabaseEmpty E).
Proof.
  split; [|split]; intros db.
  - unfold getAllModules, bind, orReject, selectAll, failed.
    now destruct (fails E (tick db)).
  - unfold getModuleById. destruct (invalidId i); [now split|].
    unfold bind, orReject, selectRow, failed.
    now destruct (fails E (tick db)).
  - rewrite isDatabaseEmpty_run. now destruct (fails E (tick db)).
Qed.

(** X7.  With the engine answering the SELECT, getAllModules resolves
    to one module for each row, the empty list on an empty table, and
    isDatabaseEmpty to true exactly when the table has no row.  When
    the engine fails the SELECT, getAllModules rejects with "Failed to
    fetch modules from database", isDatabaseEmpty with "Failed to check
    database state" and seedDatabase with "Database seeding failed",
    and seedDatabase has created nothing. *)
Theorem listing_and_emptiness E db :
  (fails E (tick db) = false ->
     (exists ms, fst (getAllModules E db) = Resolve ms
                 /\ List.length ms = List.length (rows db)
                 /\ (forall m, In m ms <->
                               exists r, In r (rows db) /\ m = moduleOfRow r))
     /\ (rows db = [] -> fst (getAllModules E db) = Resolve [])
     /\ (exists b, fst (isDatabaseEmpty E db) = Resolve b
                   /\ (b = true <-> rows db = [])))
  /\ (fails E (tick db) = true ->
      fst (getAllModules E db) = Reject "Failed to fetch modules from database"
      /\ fst (isDatabaseEmpty E db) = Reject "Failed to check database state"
      /\ fst (seedDatabase E db) = Reject "Database seeding failed"
      /\ rows (snd (seedDatabase E db)) = rows db).
Proof.
  split; intros F.
  - assert (G : fst (getAllModules E db)
                = Resolve (map moduleOfRow (orderByCreatedAtDesc (rows db)))).
    { unfold getAllModules, bind, orReject, selectAll. now rewrite F. }
    repeat split.
    + eexists. split; [exact G|]. split.
      * rewrite length_map. apply Permutation_length, orderBy_perm.
      * intros m. rewrite in_map_iff. split.
        -- intros (r & <- & Hin). exists r. split; [|reflexivity].
           eapply Permutation_in; [apply orderBy_perm | exact Hin].
        -- intros (r & Hin & ->). exists r. split; [reflexivity|].
           eapply Permutation_in; [symmetry; apply orderBy_perm | exact Hin].
    + intros H. rewrite G, H. reflexivity.
    + rewrite isDatabaseEmpty_run, F. eexists. split; [reflexivity|].
      destruct (rows db); split; (reflexivity || discriminate).
  - repeat split.
    + unfold getAllModules, bind, orReject, selectAll. now rewrite F.
    + rewrite isDatabaseEmpty_run. now rewrite F.
    + unfold seedDatabase, orReject, bind. rewrite isDatabaseEmpty_run.
      now rewrite F.
    + unfold seedDatabase, orReject, bind. rewrite isDatabaseEmpty_run.
      now rewrite F.
Qed.

Lemma listing_and_emptiness_witness :
  fst (getAllModules Sample.sameSecond emptyDb) = Resolve []
  /\ fst (seedDatabase Sample.failingThird
            (runCalls Sample.sameSecond
               [Create Sample.summarizer; GetAll] emptyDb))
     = Reject "Database seeding failed".
Proof.
  split.
  - destruct (listing_and_emptiness Sample.sameSecond emptyDb) as (Ha & _).
    destruct (Ha eq_refl) as (_ & He & _). apply He. reflexivity.
  - destruct (listing_and_emptiness Sample.failingThird
                (runCalls Sample.sameSecond
                   [Create Sample.summarizer; GetAll]
                   emptyDb)) as (_ & Hb).
    destruct (Hb eq_refl) as (_ & _ & Hs & _). exact Hs.
Defined.

End Reading.

(* ================================================================= *)
(** ** Writing *)

Section Writing.
Import Js Store Repo Seed Spec Inv.

Lemma findRow_filter_same (n : Z) (l : list Row) :
  findRow n (filter (fun r => negb (row_id r =? n)) l) = None.
Proof.
  apply findRow_none. intros r Hin Heq. apply filter_In in Hin.
  destruct Hin as (_ & Hin). rewrite Heq, Z.eqb_refl in Hin. discriminate.
Qed.

Lemma findRow_filter_other (n j : Z) (l : list Row) :
  j <> n ->
  findRow j (filter (fun r => negb (row_id r =? n)) l) = findRow j l.
Proof.
  intros Hj. unfold findRow. induction l as [|x l IH]; simpl; [reflexivity|].
  destruct (Z.eqb_spec (row_id x) n) as [Hx|Hx]; simpl.
  - destruct (Z.eqb_spec (row_id x) j); [lia | exact IH].
  - destruct (row_id x =? j); [reflexivity | exact IH].
Qed.

Lemma matching_zero (n : Z) (l : list Row) :
  matching n l = 0 <-> findRow n l = None.
Proof.
  unfold matching, findRow. induction l as [|x l IH]; simpl; [tauto|].
  destruct (row_id x =? n); simpl; [|exact IH].
  split; [lia | discriminate].
Qed.

(** What deleteModule does for a positive integer id, statement by
    statement. *)
Lemma deleteModule_run E n db :
  0 < n ->
  let db1 := logged db (mkExec (SelectId n) false 0 0) (rows db) (seq db) in
  let kept := filter (fun r => negb (row_id r =? n)) (rows db) in
  deleteModule E (Int n) db =
    if fails E (tick db)
    then (Reject "Failed to verify module existence",
          logged db (mkExec (SelectId n) true 0 0) (rows db) (seq db))
    else match findRow n (rows db) with
         | None => (Reject (notFound n), db1)
         | Some _ =>
             if fails E (S (tick db))
             then (Reject "Failed to delete module from database",
                   logged db1 (mkExec (DeleteRow n) true 0 0) (rows db) (seq db))
             else (Resolve true,
                   logged db1 (mkExec (DeleteRow n) false 0
                                 (matching n (rows db))) kept (seq db))
         end.
Proof.
  intros Hn db1 kept. unfold deleteModule, deleteModuleAmid.
  rewrite (positive_id_is_valid n Hn).
  unfold bind, orReject, selectId, failed. cbn [valueOf].
  destruct (fails E (tick db)); [reflexivity|].
  destruct (findRow n (rows db)) as [r|] eqn:F; cbn [option_map];
    [|reflexivity].
  cbn [meanwhile]. fold db1. unfold deleteRow, failed.
  assert (T : tick db1 = S (tick db)) by apply tick_logged.
  rewrite T. destruct (fails E (S (tick db))); [reflexivity|].
  cbn [rows seq logged db1]. fold kept.
  destruct (Z.eqb_spec (matching n (rows db)) 0) as [Z0|Z0]; [|reflexivity].
  apply matching_zero in Z0. congruence.
Qed.

(** A deleteModule that resolves: the id, and what is left. *)
Lemma deleteModule_resolved E i db b db' :
  deleteModule E i db = (Resolve b, db') ->
  exists n,
    i = Int n /\ 0 < n /\ b = true
    /\ findRow n (rows db) <> None
    /\ rows db' = filter (fun r => negb (row_id r =? n)) (rows db)
    /\ seq db' = seq db.
Proof.
  intros H.
  destruct (invalidId i) eqn:V.
  { unfold deleteModule, deleteModuleAmid in H. rewrite V in H. discriminate. }
  apply invalidId_spec in V. destruct V as (n & Hn & ->).
  rewrite (deleteModule_run E n db Hn) in H.
  destruct (fails E (tick db)); [discriminate|].
  destruct (findRow n (rows db)) as [r|] eqn:F; [|discriminate].
  destruct (fails E (S (tick db))); [discriminate|].
  injection H as <- <-. exists n. cbn [rows seq logged].
  repeat split; try reflexivity; try assumption. congruence.
Qed.

(** X8.  A deleteModule that resolves was called with a positive
    integer id that a row carried; it resolves to true, removes every
    row with that id and no other, and leaves the id counter as it
    was.  Right after it, getModuleById resolves to null for the id
    and getAllModules returns no module with it. *)
Theorem delete_removes_the_row E i db b db' :
  deleteModule E i db = (Resolve b, db') ->
  exists n,
    i = Int n /\ 0 < n /\ b = true
    /\ findRow n (rows db) <> None
    /\ rows db' = filter (fun r => negb (row_id r =? n)) (rows db)
    /\ seq db' = seq db
    /\ findRow n (rows db') = None
    /\ (forall j, j <> n -> findRow j (rows db') = findRow j (rows db))
    /\ (fails E (tick db') = false ->
        fst (getModuleById E (Int n) db') = Resolve None
        /\ exists ms, fst (getAllModules E db') = Resolve ms
                      /\ forall m, In m ms -> id m <> n).
Proof.
  intros H.
  destruct (deleteModule_resolved E i db b db' H)
    as (n & -> & Hn & Hb & Hf & Hr & Hs).
  exists n.
  split; [reflexivity|]. split; [exact Hn|]. split; [exact Hb|].
  split; [exact Hf|]. split; [exact Hr|]. split; [exact Hs|].
  split; [rewrite Hr; apply findRow_filter_same|].
  split; [intros j Hj; rewrite Hr; apply findRow_filter_other, Hj|].
  intros F. split.
  - unfold getModuleById. rewrite (positive_id_is_valid n Hn).
    unfold bind, orReject, selectRow. rewrite F. cbn [valueOf fst].
    now rewrite Hr, findRow_filter_same.
  - unfold getAllModules, bind, orReject, selectAll. rewrite F.
    cbn [fst]. eexists. split; [reflexivity|].
    intros m Hm. apply in_map_iff in Hm. destruct Hm as (r0 & <- & Hin).
    apply (Permutation_in _ (orderBy_perm _)) in Hin.
    rewrite Hr in Hin.
    apply filter_In in Hin. destruct Hin as (_ & Hin). simpl.
    destruct (Z.eqb_spec (row_id r0) n); [discriminate | assumption].
Qed.

Lemma delete_removes_the_row_witness :
  match deleteModule Sample.sameSecond (Int 2) Sample.seeded with
  | (Resolve b, db') =>
      b = true /\ findRow 2 (rows db') = None
      /\ findRow 3 (rows db') = findRow 3 (rows Sample.seeded)
  | _ => False
  end.
Proof.
  destruct (deleteModule Sample.sameSecond (Int 2) Sample.seeded)
    as [[b|msg|] db'] eqn:H.
  - destruct (delete_removes_the_row Sample.sameSecond (Int 2) Sample.seeded
                b db' H) as (n & Hi & _ & Hb & _ & _ & _ & Hnone & Hother & _).
    injection Hi as <-.
    repeat split; [exact Hb | exact Hnone | apply Hother; lia].
  - vm_compute in H. discriminate H.
  - vm_compute in H. discriminate H.
Defined.

Lemma engine_keeps_seq_above E (n : Z) :
  engineKeeps (fun db => n <= seq db) E.
Proof.
  unfold engineKeeps.
  split; [|split; [|split; [|split; [|split]]]]; unfold preserves.
  - intros db H. unfold selectAll, failed.
    now destruct (fails E (tick db)).
  - intros id db H. unfold selectRow, failed.
    now destruct (fails E (tick db)).
  - intros id db H. unfold selectId, failed.
    now destruct (fails E (tick db)).
  - intros id db H. unfold deleteRow, failed.
    now destruct (fails E (tick db)).
  - intros p _ db H. unfold insertRow, failed.
    destruct (fails E (tick db)); simpl; lia.
  - intros p id _ db H. unfold updateRow, failed.
    now destruct (fails E (tick db)).
Qed.

(** X9.  The id of a deleted module is not given out again: after any
    history of calls on an initially empty database, a deleteModule
    that resolves and any further calls, a createModule that resolves
    returns an id larger than the deleted one. *)
Theorem deleted_id_is_not_reused E cs0 i b db' cs d m db'' :
  deleteModule E i (runCalls E cs0 emptyDb) = (Resolve b, db') ->
  createModule E d (runCalls E cs db') = (Resolve m, db'') ->
  valueOf i < id m.
Proof.
  intros Hd Hc.
  pose proof (inv_runCalls E cs0 emptyDb inv_empty) as I0.
  pose proof (keeps_deleteModule E i _ I0) as I1. rewrite Hd in I1.
  cbn [snd] in I1.
  destruct (deleteModule_resolved E i _ b db' Hd)
    as (n & -> & Hn & _ & Hf & _ & Hs).
  assert (Hle : n <= seq db').
  { rewrite Hs. destruct (findRow n (rows (runCalls E cs0 emptyDb)))
      as [r|] eqn:F; [|congruence].
    pose proof (findRow_id _ _ _ F) as Hr.
    unfold findRow in F. apply find_some in F. destruct F as (Hin & _).
    destruct I0 as (_ & Hb & _). rewrite Forall_forall in Hb.
    specialize (Hb r Hin). lia. }
  pose proof (preserved_runCalls _ E (engine_keeps_seq_above E n) cs db' Hle)
    as Hle2.
  cbv beta in Hle2.
  pose proof (inv_runCalls E cs db' I1) as I2.
  destruct (createModule_resolved E d _ m db'' I2 Hc) as (-> & _).
  simpl. lia.
Qed.

Lemma deleted_id_is_not_reused_witness :
  match deleteModule Sample.sameSecond (Int 3) Sample.seeded with
  | (Resolve _, db') =>
      match createModule Sample.sameSecond Sample.summarizer db' with
      | (Resolve m, _) => 3 < id m
      | _ => False
      end
  | _ => False
  end.
Proof.
  destruct (deleteModule Sample.sameSecond (Int 3) Sample.seeded)
    as [[b|msg|] db'] eqn:Hd;
    [| vm_compute in Hd; discriminate Hd | vm_compute in Hd; discriminate Hd].
  destruct (createModule Sample.sameSecond Sample.summarizer db')
    as [[m|msg|] db''] eqn:Hc.
  - exact (deleted_id_is_not_reused Sample.sameSecond [SeedCall] (Int 3) b db'
             [] Sample.summarizer m db'' Hd Hc).
  - vm_compute in Hd. injection Hd as _ <-. vm_compute in Hc. discriminate Hc.
  - vm_compute in Hd. injection Hd as _ <-. vm_compute in Hc. discriminate Hc.
Defined.

End Writing.

(* ================================================================= *)
(** ** Updating and creating, statement by statement *)

Section WritingMore.
Import Js Store Repo Seed Spec Inv.

Lemma findRow_update_other (n j : Z) (g : Row -> Row) (l : list Row) :
  (forall r, row_id (g r) = row_id r) -> j <> n ->
  findRow j (map (fun r => if row_id r =? n then g r else r) l) = findRow j l.
Proof.
  intros Hg Hj. unfold findRow.
  induction l as [|x l IH]; simpl; [reflexivity|].
  destruct (Z.eqb_spec (row_id x) n) as [Hx|Hx].
  - rewrite Hg. destruct (Z.eqb_spec (row_id x) j); [lia | exact IH].
  - destruct (row_id x =? j); [reflexivity | exact IH].
Qed.

Lemma validate_truthy (d : JsVal) : validate d = None -> truthy d = true.
Proof.
  unfold validate. destruct (truthy d); [reflexivity|]. discriminate.
Qed.

(** What updateModule does for a positive integer id and data that
    pass validation, statement by statement. *)
Lemma updateModule_run E n d db :
  0 < n -> validate d = None ->
  let db1 := logged db (mkExec (SelectId n) false 0 0) (rows db) (seq db) in
  let f := setContent (paramsOf d) (now E (S (tick db))) in
  let rs := map (fun r => if row_id r =? n then f r else r) (rows db) in
  let db2 := logged db1 (mkExec (UpdateRow n) false 0 (matching n (rows db)))
               rs (seq db) in
  updateModule E (Int n) d db =
    if fails E (tick db)
    then (Reject "Failed to verify module existence",
          logged db (mkExec (SelectId n) true 0 0) (rows db) (seq db))
    else match findRow n (rows db) with
         | None => (Reject (notFound n), db1)
         | Some old =>
             if fails E (S (tick db))
             then (Reject "Failed to update module in database",
                   logged db1 (mkExec (UpdateRow n) true 0 0) (rows db) (seq db))
             else if fails E (S (S (tick db)))
             then (Reject "Module updated but failed to retrieve",
                   logged db2 (mkExec (SelectRow n) true 0 0) rs (seq db))
             else (Resolve (moduleOfRow (f old)),
                   logged db2 (mkExec (SelectRow n) false 0 0) rs (seq db))
         end.
Proof.
  intros Hn V db1 f rs db2. unfold updateModule.
  rewrite (positive_id_is_valid n Hn), V.
  unfold bind, orReject, selectId, failed. cbn [valueOf].
  destruct (fails E (tick db)); [reflexivity|].
  destruct (findRow n (rows db)) as [old|] eqn:F; cbn [option_map];
    [|reflexivity].
  fold db1. unfold updateRow, failed.
  assert (T1 : tick db1 = S (tick db)) by apply tick_logged.
  rewrite T1. destruct (fails E (S (tick db))); [reflexivity|].
  cbn [rows seq logged db1]. fold f. fold rs. fold db1. fold db2.
  unfold selectRow, failed.
  assert (T2 : tick db2 = S (S (tick db))).
  { unfold db2. rewrite tick_logged, T1. reflexivity. }
  rewrite T2. destruct (fails E (S (S (tick db)))); [reflexivity|].
  cbn [rows seq logged db2].
  assert (G : findRow n rs = Some (f old)).
  { unfold rs. rewrite findRow_map
      by (intros r; now destruct (row_id r =? n)).
    rewrite F. cbn [option_map].
    now rewrite (findRow_id _ _ _ F), Z.eqb_refl. }
  rewrite G. reflexivity.
Qed.

(** X10.  For a positive integer id up to 2^53 - 1 that no row
    carries and data that pass validation, with the engine answering
    the check, updateModule rejects with "Module with ID n not
    found", the SELECT of the check
    is the only statement issued, the table is unchanged, and the PUT
    route answers 404 with that message. *)
Theorem update_of_missing_id E idParam n d db :
  0 < n <= MAX_SAFE_INTEGER -> validate d = None ->
  fails E (tick db) = false ->
  findRow n (rows db) = None ->
  let db1 := logged db (mkExec (SelectId n) false 0 0) (rows db) (seq db) in
  updateModule E (Int n) d db = (Reject (notFound n), db1)
  /\ (Server.parseInt idParam = Int n ->
      Server.app_put E idParam d db
      = (Resolve (Server.failure 404 (notFound n)), db1)).
Proof.
  intros (Hn & _) V F Hnone db1.
  assert (U : updateModule E (Int n) d db = (Reject (notFound n), db1)).
  { rewrite (updateModule_run E n d db Hn V), F, Hnone. reflexivity. }
  split; [exact U|].
  intros Hp. unfold Server.app_put. rewrite Hp.
  rewrite (positive_id_passes_gate n Hn), (validate_truthy d V).
  cbn [negb]. unfold Server.respond. rewrite U.
  unfold Server.classify. now rewrite notFound_says_not_found.
Qed.

Lemma update_of_missing_id_witness :
  Server.app_put Sample.sameSecond "99999" Sample.summarizer Sample.seeded
  = (Resolve (Server.failure 404 "Module with ID 99999 not found"),
     logged Sample.seeded (mkExec (SelectId 99999) false 0 0)
       (rows Sample.seeded) (seq Sample.seeded)).
Proof.
  destruct (update_of_missing_id Sample.sameSecond "99999" 99999
              Sample.summarizer Sample.seeded) as (_ & H);
    [unfold MAX_SAFE_INTEGER; lia | reflexivity | reflexivity | reflexivity |].
  apply H. reflexivity.
Defined.

(** X11.  An updateModule that resolves returns the prompt and the two
    names of the new data with surrounding white space removed, and
    each of the four optional texts as it was sent when that is a
    non-empty string and null when it is absent or empty; the table
    keeps its length and every row with another id, and the id counter
    its value; a getModuleById right after it returns the same
    module. *)
Theorem update_replaces_content E i d db m db' :
  updateModule E i d db = (Resolve m, db') ->
  (exists p e k,
      get d "prompt" = VStr p
      /\ get (get d "en") "name" = VStr e
      /\ get (get d "kn") "name" = VStr k
      /\ prompt m = trim p /\ name (en m) = trim e /\ name (kn m) = trim k)
  /\ optionalReadBack (get (get d "en") "description") (description (en m))
  /\ optionalReadBack (get (get d "en") "inputPlaceholder")
       (inputPlaceholder (en m))
  /\ optionalReadBack (get (get d "kn") "description") (description (kn m))
  /\ optionalReadBack (get (get d "kn") "inputPlaceholder")
       (inputPlaceholder (kn m))
  /\ List.length (rows db') = List.length (rows db)
  /\ seq db' = seq db
  /\ (forall j, j <> valueOf i -> findRow j (rows db') = findRow j (rows db))
  /\ (fails E (tick db') = false ->
      fst (getModuleById E i db') = Resolve (Some m)).
Proof.
  intros H.
  destruct (invalidId i) eqn:Vi.
  { unfold updateModule in H. rewrite Vi in H. discriminate. }
  pose proof Vi as Vi'. apply invalidId_spec in Vi'.
  destruct Vi' as (n & Hn & ->).
  destruct (validate d) as [msg|] eqn:V.
  { unfold updateModule in H. rewrite Vi, V in H. discriminate. }
  rewrite (updateModule_run E n d db Hn V) in H.
  destruct (fails E (tick db)); [discriminate|].
  destruct (findRow n (rows db)) as [old|] eqn:F; [|discriminate].
  destruct (fails E (S (tick db))); [discriminate|].
  destruct (fails E (S (S (tick db)))); [discriminate|].
  injection H as <- <-.
  destruct (validate_passed d V) as (p & e & k & Hp & He & Hk).
  cbn [rows seq logged valueOf]. simpl.
  split; [|split; [|split; [|split; [|split; [|split; [|split; [|split]]]]]]];
    try apply optional_read_back.
  - exists p, e, k. rewrite Hp, He, Hk. simpl. repeat split.
  - apply length_map.
  - reflexivity.
  - intros j Hj. apply findRow_update_other; [reflexivity | exact Hj].
  - intros Fg. unfold getModuleById. rewrite Vi.
    unfold bind, orReject, selectRow. rewrite Fg. cbn [valueOf fst rows logged].
    rewrite findRow_map by (intros r; now destruct (row_id r =? n)).
    rewrite F. cbn [option_map].
    now rewrite (findRow_id _ _ _ F), Z.eqb_refl.
Qed.

Lemma update_replaces_content_witness :
  match updateModule Sample.sameSecond (Int 2) Sample.padded Sample.seeded with
  | (Resolve m, db') =>
      prompt m = "Summarize:" /\ description (en m) = None
      /\ findRow 1 (rows db') = findRow 1 (rows Sample.seeded)
  | _ => False
  end.
Proof.
  destruct (updateModule Sample.sameSecond (Int 2) Sample.padded Sample.seeded)
    as [[m|msg|] db'] eqn:H.
  - destruct (update_replaces_content Sample.sameSecond (Int 2) Sample.padded
                Sample.seeded m db' H)
      as ((p & e & k & Hp & _ & _ & Hprompt & _) & (_ & Hd) & _ & _ & _ & _ & _
          & Hother & _).
    injection Hp as <-.
    repeat split;
      [exact Hprompt | apply Hd; left; reflexivity | apply Hother; simpl; lia].
  - vm_compute in H. discriminate H.
  - vm_compute in H. discriminate H.
Defined.

(** X12.  A createModule that resolves, on a database that satisfies
    the invariant, adds one row: a getAllModules right after it returns
    the created module, all modules that were stored before, and one
    module more than there were rows. *)
Theorem created_module_is_listed E d db m db' :
  inv db ->
  createModule E d db = (Resolve m, db') ->
  fails E (tick db') = false ->
  exists ms,
    fst (getAllModules E db') = Resolve ms
    /\ In m ms
    /\ List.length ms = S (List.length (rows db))
    /\ (forall r, In r (rows db) -> In (moduleOfRow r) ms).
Proof.
  intros I H F.
  destruct (createModule_resolved E d db m db' I H) as (Hm & Hr & _).
  unfold getAllModules, bind, orReject, selectAll. rewrite F. cbn [fst].
  eexists. split; [reflexivity|].
  assert (P : Permutation (orderByCreatedAtDesc (rows db')) (rows db'))
    by apply orderBy_perm.
  repeat split.
  - rewrite Hm. apply in_map. apply (Permutation_in _ (Permutation_sym P)).
    rewrite Hr. apply in_or_app. right. now left.
  - rewrite length_map, (Permutation_length P), Hr, length_app. simpl. lia.
  - intros r Hin. apply in_map.
    apply (Permutation_in _ (Permutation_sym P)).
    rewrite Hr. apply in_or_app. now left.
Qed.

Lemma created_module_is_listed_witness :
  match createModule Sample.sameSecond Sample.summarizer Sample.seeded with
  | (Resolve m, db') =>
      exists ms, fst (getAllModules Sample.sameSecond db') = Resolve ms
                 /\ In m ms /\ List.length ms = 4%nat
  | _ => False
  end.
Proof.
  destruct (createModule Sample.sameSecond Sample.summarizer Sample.seeded)
    as [[m|msg|] db'] eqn:H.
  - destruct (created_module_is_listed Sample.sameSecond Sample.summarizer
                Sample.seeded m db'
                (keeps_seedDatabase Sample.sameSecond emptyDb inv_empty)
                H eq_refl) as (ms & Hg & Hin & Hlen & _).
    exists ms. repeat split; assumption.
  - vm_compute in H. discriminate H.
  - vm_compute in H. discriminate H.
Defined.

(** X13.  On a database that satisfies the invariant createModule
    always settles.  For data that pass validation it rejects in two
    ways only: with "Failed to create module in database", the table
    and the id counter being as before, or with "Module created but
    failed to retrieve", the new row being in the table and its id
    used up although the call failed. *)
Theorem create_failure_modes E d db :
  inv db ->
  fst (createModule E d db) <> Uncaught
  /\ (validate d = None ->
      forall msg db',
        createModule E d db = (Reject msg, db') ->
        (msg = "Failed to create module in database"
         /\ fails E (tick db) = true
         /\ rows db' = rows db /\ seq db' = seq db)
        \/ (msg = "Module created but failed to retrieve"
            /\ fails E (S (tick db)) = true
            /\ rows db' = (rows db ++ [newRow (paramsOf d) (seq db + 1)
                                         (now E (tick db))])%list
            /\ seq db' = seq db + 1)).
Proof.
  intros I. split.
  - destruct (validate d) as [msg|] eqn:V.
    + rewrite (rejected_by_validation E d db msg V). discriminate.
    + rewrite (createModule_run E d db V I).
      destruct (fails E (tick db)); [discriminate|].
      destruct (fails E (S (tick db))); discriminate.
  - intros V msg db' H. rewrite (createModule_run E d db V I) in H.
    destruct (fails E (tick db)).
    { injection H as <- <-. left. repeat split. }
    destruct (fails E (S (tick db))); [|discriminate].
    injection H as <- <-. right. repeat split.
Qed.

Lemma create_failure_modes_witness :
  match createModule Sample.failingThird Sample.summarizer Sample.oneModule with
  | (Reject msg, db') =>
      msg = "Module created but failed to retrieve"
      /\ List.length (rows db') = 2%nat
  | _ => False
  end.
Proof.
  destruct (createModule Sample.failingThird Sample.summarizer Sample.oneModule)
    as [[m|msg|] db'] eqn:H.
  - vm_compute in H. discriminate H.
  - destruct (create_failure_modes Sample.failingThird Sample.summarizer
                Sample.oneModule
                (keeps_createModule Sample.sameSecond Sample.summarizer
                   emptyDb inv_empty)) as (_ & Hb).
    destruct (Hb eq_refl msg db' H) as [(_ & F & _) | (Hm & _ & Hr & _)].
    + vm_compute in F. discriminate F.
    + split; [exact Hm|]. rewrite Hr, length_app. reflexivity.
  - vm_compute in H. discriminate H.
Defined.



End WritingMore.

(* ================================================================= *)
(** ** Seeding, once more *)

Section SeedingMore.
Import Js Store Repo Seed Spec Inv.

(** X15.  forceSeedDatabase does not look at the table: when it
    resolves on a database that satisfies the invariant it has added a
    row for each of the three defaults to whatever rows there were, so
    that run on a seeded store it doubles the defaults; when a creation
    fails it rejects with "Database force seeding failed". *)
Theorem force_seed_always_adds E db :
  inv db ->
  (forall created db',
     forceSeedDatabase E db = (Resolve created, db') ->
     rows db' = (rows db ++ seededRows E defaultModules (seq db) (tick db))%list
     /\ List.length (rows db') = (List.length (rows db) + 3)%nat
     /\ created = map moduleOfRow (seededRows E defaultModules (seq db) (tick db)))
  /\ (forall msg db',
        forceSeedDatabase E db = (Reject msg, db') ->
        msg = "Database force seeding failed"
        /\ (List.length (rows db) <= List.length (rows db')
            <= List.length (rows db) + 3)%nat).
Proof.
  intros I. split.
  - intros created db' H. unfold forceSeedDatabase, orReject in H.
    destruct (createEach E defaultModules [] db) as [[out|m|] db2] eqn:C;
      try discriminate.
    injection H as -> ->.
    pose proof (createEach_outcome E defaultModules defaults_are_valid
                  [] db _ _ I C) as (Hr & Ho & _).
    cbn [app] in Ho.
    repeat split; [exact Hr | | exact Ho].
    rewrite Hr, length_app, length_seededRows. reflexivity.
  - intros msg db' H. unfold forceSeedDatabase, orReject in H.
    destruct (createEach E defaultModules [] db) as [[out|m|] db2] eqn:C;
      try discriminate.
    injection H as <- <-.
    pose proof (createEach_outcome E defaultModules defaults_are_valid
                  [] db _ _ I C) as (n & Hn & Hr & _).
    split; [reflexivity|].
    rewrite Hr, length_app, length_seededRows, length_firstn.
    change (List.length defaultModules) with 3%nat in *. lia.
Qed.

Lemma force_seed_always_adds_witness :
  match forceSeedDatabase Sample.sameSecond Sample.seeded with
  | (Resolve created, db') => List.length (rows db') = 6%nat
  | _ => False
  end.
Proof.
  destruct (forceSeedDatabase Sample.sameSecond Sample.seeded)
    as [[created|msg|] db'] eqn:H.
  - destruct (force_seed_always_adds Sample.sameSecond Sample.seeded
                (keeps_seedDatabase Sample.sameSecond emptyDb inv_empty))
      as (Ha & _).
    destruct (Ha created db' H) as (_ & L & _). exact L.
  - vm_compute in H. discriminate H.
  - vm_compute in H. discriminate H.
Defined.

(** X16.  A seedDatabase that resolves on an empty table, whatever the
    id counter and the clock, returns three modules that carry the
    prompt, names, descriptions and placeholders of the three defaults
    letter for letter and in their order, with the next three ids. *)
Theorem seeded_modules_are_the_defaults E db created db1 :
  inv db -> rows db = [] ->
  seedDatabase E db = (Resolve created, db1) ->
  Forall2 verbatim created defaultModules
  /\ map id created = [seq db + 1; seq db + 2; seq db + 3]
  /\ rows db1 = seededRows E defaultModules (seq db) (S (tick db)).
Proof.
  intros I H S1.
  destruct (fails E (tick db)) eqn:F.
  { exfalso. exact (seedDatabase_check_failed E db created db1 H F S1). }
  rewrite (seedDatabase_empty E db H F) in S1. unfold orReject in S1.
  set (db0 := logged db (mkExec SelectAll false 0 0) [] (seq db)) in *.
  assert (I0 : inv db0).
  { apply inv_logged; [exact I | reflexivity | constructor]. }
  destruct (createEach E defaultModules [] db0) as [[out|m|] db3] eqn:C;
    try discriminate.
  injection S1 as -> ->.
  pose proof (createEach_outcome E defaultModules defaults_are_valid
                [] db0 _ _ I0 C) as (Hr & Ho & _).
  subst db0. rewrite tick_logged in Hr, Ho.
  cbn [rows seq logged app] in Hr, Ho.
  rewrite Hr, Ho. unfold defaultModules. cbn [seededRows map].
  repeat split.
  - repeat constructor; vm_compute; repeat split; reflexivity.
  - cbn [id moduleOfRow newRow row_id].
    repeat (apply f_equal2; [lia|]). reflexivity.
Qed.

Lemma seeded_modules_are_the_defaults_witness :
  match seedDatabase Sample.ticking emptyDb with
  | (Resolve created, _) => map id created = [1; 2; 3]
  | _ => False
  end.
Proof.
  destruct (seedDatabase Sample.ticking emptyDb)
    as [[created|msg|] db1] eqn:H.
  - destruct (seeded_modules_are_the_defaults Sample.ticking emptyDb
                created db1 inv_empty eq_refl H) as (_ & Hi & _).
    exact Hi.
  - vm_compute in H. discriminate H.
  - vm_compute in H. discriminate H.
Defined.

End SeedingMore.

(* ================================================================= *)
(** ** The routes and what the client makes of their answers *)

Section Routes.
Import Js Store Repo Seed Spec Inv Wire.

Lemma includes_nonempty (msg needle : string) :
  needle <> "" -> includes msg needle = true -> msg <> "".
Proof.
  intros Hn H ->. destruct needle; [congruence|]. discriminate H.
Qed.

Lemma validation_nonempty (msg : string) :
  Server.isValidation msg = true -> msg <> "".
Proof. intros H ->. discriminate H. Qed.

Lemma wellFormed_failure (code : Z) (msg : string) :
  code = 400 \/ code = 404 \/ code = 500 ->
  msg <> "" -> (code = 500 -> generic msg) ->
  wellFormed (Server.failure code msg).
Proof.
  intros Hc Hm Hg. right. simpl. repeat split; try assumption.
  exists msg. auto.
Qed.

Lemma wellFormed_classify (g msg : string) :
  generic g ->
  wellFormed (Server.classify g msg)
  /\ (Server.status (Server.classify g msg) = 400
      \/ Server.status (Server.classify g msg) = 404
      \/ Server.status (Server.classify g msg) = 500).
Proof.
  intros Hg. unfold Server.classify.
  destruct (includes msg "not found") eqn:NF.
  { split; [|simpl; auto].
    apply wellFormed_failure; [auto | | discriminate].
    apply (includes_nonempty msg "not found"); [discriminate | exact NF]. }
  destruct (Server.isValidation msg) eqn:IV.
  { split; [|simpl; auto].
    apply wellFormed_failure; [auto | | discriminate].
    apply validation_nonempty, IV. }
  split; [|simpl; auto].
  apply wellFormed_failure; [auto | | intros _; exact Hg].
  destruct Hg as [-> | [-> | [-> | ->]]]; discriminate.
Qed.

Lemma generic_texts :
  generic "Failed to fetch modules" /\ generic "Failed to create module"
  /\ generic "Failed to update module" /\ generic "Failed to delete module".
Proof. unfold generic. repeat split; auto. Qed.

Lemma app_get_answers E db r db' :
  Server.app_get E db = (Resolve r, db') ->
  wellFormed r /\ (Server.status r = 200 \/ Server.status r = 500).
Proof.
  unfold Server.app_get, Server.respond. intros H.
  destruct (getAllModules E db) as [[ms|msg|] d1]; try discriminate;
    injection H as <- _.
  - split; [left; simpl; auto | simpl; auto].
  - split; [|simpl; auto].
    apply wellFormed_failure; [auto | discriminate | intros _].
    apply generic_texts.
Qed.

Lemma app_post_answers E body db r db' :
  Server.app_post E body db = (Resolve r, db') ->
  wellFormed r
  /\ (Server.status r = 201 \/ Server.status r = 400 \/ Server.status r = 500).
Proof.
  unfold Server.app_post, Server.respond. intros H.
  destruct (negb (truthy body)).
  { injection H as <- _. split; [|simpl; auto].
    apply wellFormed_failure; [auto | discriminate | discriminate]. }
  destruct (createModule E body db) as [[m|msg|] d1]; try discriminate;
    injection H as <- _.
  - split; [left; simpl; auto | simpl; auto].
  - destruct (Server.isValidation msg) eqn:IV.
    + split; [|simpl; auto].
      apply wellFormed_failure; [auto | | discriminate].
      apply validation_nonempty, IV.
    + split; [|simpl; auto].
      apply wellFormed_failure; [auto | discriminate | intros _].
      apply generic_texts.
Qed.

Lemma app_put_answers E idParam body db r db' :
  Server.app_put E idParam body db = (Resolve r, db') ->
  wellFormed r
  /\ (Server.status r = 200 \/ Server.status r = 400
      \/ Server.status r = 404 \/ Server.status r = 500).
Proof.
  unfold Server.app_put, Server.respond. cbv zeta. intros H.
  destruct (isNaN (Server.parseInt idParam) || leZero (Server.parseInt idParam)).
  { injection H as <- _. split; [|simpl; auto].
    apply wellFormed_failure; [auto | discriminate | discriminate]. }
  destruct (negb (truthy body)).
  { injection H as <- _. split; [|simpl; auto].
    apply wellFormed_failure; [auto | discriminate | discriminate]. }
  destruct (updateModule E (Server.parseInt idParam) body db)
    as [[m|msg|] d1]; try discriminate; injection H as <- _.
  - split; [left; simpl; auto | simpl; auto].
  - destruct (wellFormed_classify "Failed to update module" msg)
      as (W & [S|[S|S]]); [apply generic_texts | | |]; auto.
Qed.

Lemma app_delete_answers E others idParam db r db' :
  Server.app_deleteAmid E others idParam db = (Resolve r, db') ->
  wellFormed r
  /\ (Server.status r = 200 \/ Server.status r = 400
      \/ Server.status r = 404 \/ Server.status r = 500).
Proof.
  unfold Server.app_deleteAmid, Server.respond. cbv zeta. intros H.
  destruct (isNaN (Server.parseInt idParam) || leZero (Server.parseInt idParam)).
  { injection H as <- _. split; [|simpl; auto].
    apply wellFormed_failure; [auto | discriminate | discriminate]. }
  destruct (deleteModuleAmid E others (Server.parseInt idParam) db)
    as [[m|msg|] d1]; try discriminate; injection H as <- _.
  - split; [left; simpl; auto | simpl; auto].
  - destruct (wellFormed_classify "Failed to delete module" msg)
      as (W & [S|[S|S]]); [apply generic_texts | | |]; auto.
Qed.

(** X17.  Whatever the repository does, an answer of the four routes
    has a status from the set of its route (GET 200, 500; POST 201,
    400, 500; PUT and DELETE 200, 400, 404, 500) and an envelope that
    agrees with it: success true, no error, status 200 or 201; or
    success false, no data, a non-empty error text and status 400, 404
    or 500, where a 500 carries one of the four fixed texts and so
    nothing of the engine's or the repository's message. *)
Theorem routes_answer_well_formed E others idParam body db r db' :
  (Server.app_get E db = (Resolve r, db') ->
     wellFormed r /\ (Server.status r = 200 \/ Server.status r = 500))
  /\ (Server.app_post E body db = (Resolve r, db') ->
      wellFormed r
      /\ (Server.status r = 201 \/ Server.status r = 400
          \/ Server.status r = 500))
  /\ (Server.app_put E idParam body db = (Resolve r, db') ->
      wellFormed r
      /\ (Server.status r = 200 \/ Server.status r = 400
          \/ Server.status r = 404 \/ Server.status r = 500))
  /\ (Server.app_deleteAmid E others idParam db = (Resolve r, db') ->
      wellFormed r
      /\ (Server.status r = 200 \/ Server.status r = 400
          \/ Server.status r = 404 \/ Server.status r = 500)).
Proof.
  split; [apply app_get_answers|].
  split; [apply app_post_answers|].
  split; [apply app_put_answers | apply app_delete_answers].
Qed.

Lemma routes_answer_well_formed_witness :
  match Server.app_post Sample.failingThird Sample.summarizer Sample.oneModule
  with
  | (Resolve r, _) => wellFormed r /\ Server.status r = 500
  | _ => False
  end.
Proof.
  destruct (Server.app_post Sample.failingThird Sample.summarizer
              Sample.oneModule) as [[r|msg|] db'] eqn:H.
  - destruct (routes_answer_well_formed Sample.failingThird (fun d => d) "1"
                Sample.summarizer Sample.oneModule r db') as (_ & Hb & _).
    split; [exact (proj1 (Hb H))|].
    vm_compute in H. injection H as <- _. reflexivity.
  - vm_compute in H. discriminate H.
  - vm_compute in H. discriminate H.
Defined.

Lemma relay (reason : Z -> string) (r : Server.Response) :
  wellFormed r ->
  Client.apiRequest (deliver reason r)
  = match Server.error r with
    | None => Client.Returns (Server.data r)
    | Some msg => Client.Throws (Client.mkApiError msg (Server.status r))
    end.
Proof.
  intros [(Hs & Hc & He) | (Hs & Hc & _ & msg & He & Hm & _)];
    unfold deliver, Client.apiRequest; cbn [Client.json Client.ok
      Client.http_status Client.success Client.error Client.data
      Client.statusText]; rewrite Hs, He.
  - destruct Hc as [-> | ->]; reflexivity.
  - assert (O : Client.orElse (Some msg) = fun _ => msg).
    { unfold Client.orElse.
      destruct (String.eqb_spec msg ""); [contradiction | reflexivity]. }
    rewrite O. destruct Hc as [-> | [-> | ->]]; reflexivity.
Qed.

(** X18.  What the client makes of an answer of any of the four
    routes, delivered as a response with that status and that envelope:
    apiRequest returns the data of a successful answer and throws, for
    any other, the ApiError with the error text and the status of the
    answer, whatever the status text. *)
Theorem client_relays_the_answer reason E others idParam body db r db' :
  Server.app_get E db = (Resolve r, db')
  \/ Server.app_post E body db = (Resolve r, db')
  \/ Server.app_put E idParam body db = (Resolve r, db')
  \/ Server.app_deleteAmid E others idParam db = (Resolve r, db') ->
  Client.apiRequest (deliver reason r)
  = match Server.error r with
    | None => Client.Returns (Server.data r)
    | Some msg => Client.Throws (Client.mkApiError msg (Server.status r))
    end.
Proof.
  intros [H | [H | [H | H]]]; apply relay.
  - apply (app_get_answers E db r db' H).
  - apply (app_post_answers E body db r db' H).
  - apply (app_put_answers E idParam body db r db' H).
  - apply (app_delete_answers E others idParam db r db' H).
Qed.

Lemma client_relays_the_answer_witness :
  Client.apiRequest
    (deliver (fun _ => "Not Found")
       (Server.failure 404 "Module with ID 9 not found"))
  = Client.Throws (Client.mkApiError "Module with ID 9 not found" 404).
Proof.
  apply (client_relays_the_answer (fun _ => "Not Found") Sample.sameSecond
           (fun d => d) "9" Sample.summarizer Sample.seeded
           (Server.failure 404 "Module with ID 9 not found")
           (logged Sample.seeded (mkExec (SelectId 9) false 0 0)
              (rows Sample.seeded) (seq Sample.seeded))).
  right. right. left. reflexivity.
Defined.

(** X19.  Deleting from end to end.  For a positive integer id up to
    2^53 - 1 (which the template literal writes in plain digits and
    parseInt reads back exactly) the client sends DELETE
    /api/modules/id; of the answer it makes
    one of three things: it returns, the repository having removed the
    row; it throws the ApiError "Module with ID n not found" with
    status 404, no row having had the id; or it throws "Failed to
    delete module" with status 500, the repository having failed in
    another way. *)
Theorem delete_end_to_end reason E n db r db' :
  0 < n <= MAX_SAFE_INTEGER ->
  Server.app_delete E (decimal n) db = (Resolve r, db') ->
  (Client.deleteModule (Int n) (deliver reason r) = Client.Returns tt
   /\ deleteModule E (Int n) db = (Resolve true, db'))
  \/ (Client.deleteModule (Int n) (deliver reason r)
      = Client.Throws (Client.mkApiError (notFound n) 404)
      /\ deleteModule E (Int n) db = (Reject (notFound n), db')
      /\ rows db' = rows db)
  \/ (Client.deleteModule (Int n) (deliver reason r)
      = Client.Throws (Client.mkApiError "Failed to delete module" 500)
      /\ exists msg, deleteModule E (Int n) db = (Reject msg, db')
                     /\ msg <> notFound n /\ rows db' = rows db).
Proof.
  intros (Hn & _) H.
  assert (B : Client.badId (Int n) = false).
  { unfold Client.badId; simpl.
    destruct (Z.eqb_spec n 0); [lia|].
    destruct (Z.leb_spec n 0); [lia | reflexivity]. }
  unfold Client.deleteModule. rewrite B.
  rewrite (relay reason r)
    by (apply (app_delete_answers E (fun d => d) (decimal n) db r db' H)).
  unfold Server.app_delete, Server.app_deleteAmid in H.
  rewrite parseInt_decimal, (positive_id_passes_gate n Hn) in H.
  unfold Server.respond in H. fold (deleteModule E (Int n)) in H.
  rewrite (deleteModule_run E n db Hn) in H |- *.
  destruct (fails E (tick db)).
  { injection H as <- <-. right. right. split; [reflexivity|].
    eexists. repeat split. unfold notFound. discriminate. }
  destruct (findRow n (rows db)).
  2:{ injection H as <- <-. right. left.
      unfold Server.classify. rewrite notFound_says_not_found.
      repeat split. }
  destruct (fails E (S (tick db))).
  { injection H as <- <-. right. right. split; [reflexivity|].
    eexists. repeat split. unfold notFound. discriminate. }
  injection H as <- <-. left. split; reflexivity.
Qed.

Lemma delete_end_to_end_witness :
  match Server.app_delete Sample.sameSecond (decimal 2) Sample.seeded with
  | (Resolve r, _) =>
      Client.deleteModule (Int 2) (deliver (fun _ => "OK") r)
      = Client.Returns tt
  | _ => False
  end.
Proof.
  destruct (Server.app_delete Sample.sameSecond (decimal 2) Sample.seeded)
    as [[r|msg|] db'] eqn:H.
  - destruct (delete_end_to_end (fun _ => "OK") Sample.sameSecond 2
                Sample.seeded r db' ltac:(unfold MAX_SAFE_INTEGER; lia) H)
      as [(Hc & _) | [(_ & Hd & _) | (_ & msg & Hd & _)]].
    + exact Hc.
    + vm_compute in Hd. discriminate Hd.
    + vm_compute in Hd. discriminate Hd.
  - vm_compute in H. discriminate H.
  - vm_compute in H. discriminate H.
Defined.

End Routes.

(* ================================================================= *)
(** ** The client's request, and ids that are no numbers *)

Section ClientMore.
Import Js Store Repo Seed Spec Inv Wire.

(** X20.  apiRequest returns a value exactly when [fetch] gave a
    response that is ok and whose body is an envelope with success
    true, and the value is the data of that envelope; in every other
    case it throws an ApiError, never another kind of error. *)
Theorem apiRequest_returns_iff (T : Type) (f : Client.Fetch T) (x : option T) :
  (Client.apiRequest f = Client.Returns x <->
   exists r d, f = Client.Responds r /\ Client.json r = Client.Json d
               /\ Client.ok r = true /\ Client.success d = true
               /\ x = Client.data d)
  /\ ((forall y, Client.apiRequest f <> Client.Returns y) ->
      exists e, Client.apiRequest f = Client.Throws e).
Proof.
  split; [split|].
  - intros H. destruct f as [t|r]; cbn [Client.apiRequest] in H;
      [discriminate|].
    destruct (Client.json r) as [t|d] eqn:J; [discriminate|].
    destruct (Client.ok r) eqn:O; cbn [negb] in H; [|discriminate].
    destruct (Client.success d) eqn:S0; cbn [negb] in H; [|discriminate].
    injection H as <-. exists r, d. auto.
  - intros (r & d & -> & J & O & S0 & ->).
    cbn [Client.apiRequest]. rewrite J, O, S0. reflexivity.
  - intros H. destruct f as [t|r]; cbn [Client.apiRequest] in *;
      [eexists; reflexivity|].
    destruct (Client.json r) as [t|d]; [eexists; reflexivity|].
    destruct (Client.ok r); cbn [negb] in *; [|eexists; reflexivity].
    destruct (Client.success d); cbn [negb] in *; [|eexists; reflexivity].
    exfalso. exact (H _ eq_refl).
Qed.

Lemma apiRequest_returns_iff_witness :
  exists e,
    Client.apiRequest (T:=unit)
      (Client.Responds
         (Client.mkFetchResponse true 200 "OK"
            (Client.Json (Client.mkApiResponse false None None))))
    = Client.Throws e.
Proof.
  apply (apiRequest_returns_iff unit _ None).
  intros y H. discriminate H.
Defined.

(** X21.  Creating from end to end.  Data that are an object and pass
    the client's checks are never answered with 400: of the answer of
    POST /api/modules, on a database that satisfies the invariant, the
    client either returns the module the repository created, with its
    createdAt and updatedAt rebuilt by [new Date], or throws the
    ApiError "Failed to create module" with status 500, the repository
    having rejected after validation. *)
Theorem create_end_to_end newDate reason E d db r db' :
  isObject d = true ->
  Client.checkContent (T:=Server.Payload) d = None ->
  inv db ->
  Server.app_post E d db = (Resolve r, db') ->
  (exists m, Client.createModule (withDates newDate) d (deliver reason r)
             = Client.Returns (Server.One (revive newDate m))
             /\ createModule E d db = (Resolve m, db'))
  \/ (Client.createModule (withDates newDate) d (deliver reason r)
      = Client.Throws (Client.mkApiError "Failed to create module" 500)
      /\ exists msg, createModule E d db = (Reject msg, db')
                     /\ Server.isValidation msg = false).
Proof.
  intros O C I H.
  pose proof (checkContent_spec Server.Payload d O) as V.
  rewrite C in V.
  unfold Client.createModule. rewrite C.
  rewrite (relay reason r)
    by (apply (app_post_answers E d db r db' H)).
  unfold Server.app_post, Server.respond in H.
  rewrite (object_is_truthy d O) in H. cbn [negb] in H.
  rewrite (createModule_run E d db V I) in H |- *.
  destruct (fails E (tick db)).
  { injection H as <- <-. right. split; [reflexivity|].
    eexists. split; reflexivity. }
  destruct (fails E (S (tick db))).
  { injection H as <- <-. right. split; [reflexivity|].
    eexists. split; reflexivity. }
  injection H as <- <-. left. eexists. split; reflexivity.
Qed.

Lemma create_end_to_end_witness :
  match Server.app_post Sample.sameSecond Sample.summarizer emptyDb with
  | (Resolve r, _) =>
      exists m, Client.createModule (withDates (fun t => t - 19800))
                  Sample.summarizer (deliver (fun _ => "Created") r)
                = Client.Returns (Server.One m)
  | _ => False
  end.
Proof.
  destruct (Server.app_post Sample.sameSecond Sample.summarizer emptyDb)
    as [[r|msg|] db'] eqn:H.
  - destruct (create_end_to_end (fun t => t - 19800) (fun _ => "Created")
                Sample.sameSecond Sample.summarizer emptyDb r db'
                eq_refl eq_refl inv_empty H)
      as [(m & Hc & _) | (_ & msg & Hd & _)].
    + eexists. exact Hc.
    + vm_compute in Hd. discriminate Hd.
  - vm_compute in H. discriminate H.
  - vm_compute in H. discriminate H.
Defined.

(** X24.  Listing from end to end.  Of the answer of GET /api/modules
    the client's fetchModules makes one of two things: it returns the
    modules getAllModules resolved to, in their order, each with its
    createdAt and updatedAt rebuilt by [new Date]; or it throws the
    ApiError "Failed to fetch modules" with status 500, getAllModules
    having rejected. *)
Theorem list_end_to_end newDate reason E db r db' :
  Server.app_get E db = (Resolve r, db') ->
  (exists ms, Client.fetchModules (withDates newDate) (deliver reason r)
              = Client.Returns (Server.Many (map (revive newDate) ms))
              /\ getAllModules E db = (Resolve ms, db'))
  \/ (Client.fetchModules (withDates newDate) (deliver reason r)
      = Client.Throws (Client.mkApiError "Failed to fetch modules" 500)
      /\ exists msg, getAllModules E db = (Reject msg, db')).
Proof.
  intros H. unfold Client.fetchModules.
  rewrite (relay reason r)
    by (apply (app_get_answers E db r db' H)).
  unfold Server.app_get, Server.respond in H.
  destruct (getAllModules E db) as [[ms|msg|] db1]; [| |discriminate].
  - injection H as <- <-. left. exists ms. split; reflexivity.
  - injection H as <- <-. right. split; [reflexivity|].
    exists msg. reflexivity.
Qed.

Lemma list_end_to_end_witness :
  match Server.app_get Sample.sameSecond Sample.seeded with
  | (Resolve r, _) =>
      exists ms, Client.fetchModules (withDates (fun t => t - 19800))
                   (deliver (fun _ => "OK") r)
                 = Client.Returns (Server.Many ms)
                 /\ List.length ms = 3%nat
  | _ => False
  end.
Proof.
  destruct (Server.app_get Sample.sameSecond Sample.seeded)
    as [[r|msg|] db'] eqn:H.
  - destruct (list_end_to_end (fun t => t - 19800) (fun _ => "OK")
                Sample.sameSecond Sample.seeded r db' H)
      as [(ms & Hc & Hg) | (_ & msg & Hd)].
    + eexists. split; [exact Hc|].
      rewrite length_map.
      vm_compute in Hg. injection Hg as <- _. reflexivity.
    + vm_compute in Hd. discriminate Hd.
  - vm_compute in H. discriminate H.
  - vm_compute in H. discriminate H.
Defined.

(** X25.  Updating from end to end.  For a positive integer id up to
    2^53 - 1 and data that are an object and pass the client's checks,
    the client sends PUT /api/modules/id; of the answer it makes one
    of three things: it returns the module the repository wrote, with
    its createdAt and updatedAt rebuilt by [new Date]; it throws the
    ApiError "Module with ID n not found" with status 404, no row
    having had the id and the table being unchanged; or it throws
    "Failed to update module" with status 500, the repository having
    failed in another way.  It is never answered 400. *)
Theorem update_end_to_end newDate reason E n d db r db' :
  0 < n <= MAX_SAFE_INTEGER ->
  isObject d = true ->
  Client.checkContent (T:=Server.Payload) d = None ->
  Server.app_put E (decimal n) d db = (Resolve r, db') ->
  (exists m,
      Client.updateModule (withDates newDate) (Int n) d (deliver reason r)
      = Client.Returns (Server.One (revive newDate m))
      /\ updateModule E (Int n) d db = (Resolve m, db'))
  \/ (Client.updateModule (withDates newDate) (Int n) d (deliver reason r)
      = Client.Throws (Client.mkApiError (notFound n) 404)
      /\ updateModule E (Int n) d db = (Reject (notFound n), db')
      /\ rows db' = rows db)
  \/ (Client.updateModule (withDates newDate) (Int n) d (deliver reason r)
      = Client.Throws (Client.mkApiError "Failed to update module" 500)
      /\ exists msg, updateModule E (Int n) d db = (Reject msg, db')
                     /\ msg <> notFound n).
Proof.
  intros (Hn & _) O C H.
  pose proof (checkContent_spec Server.Payload d O) as V.
  rewrite C in V.
  assert (B : Client.badId (Int n) = false).
  { unfold Client.badId; simpl.
    destruct (Z.eqb_spec n 0); [lia|].
    destruct (Z.leb_spec n 0); [lia | reflexivity]. }
  unfold Client.updateModule. rewrite B, C.
  rewrite (relay reason r)
    by (apply (app_put_answers E (decimal n) d db r db' H)).
  unfold Server.app_put in H.
  rewrite parseInt_decimal, (positive_id_passes_gate n Hn),
    (object_is_truthy d O) in H.
  cbn [negb] in H. unfold Server.respond in H.
  rewrite (updateModule_run E n d db Hn V) in H |- *.
  destruct (fails E (tick db)).
  { injection H as <- <-. right. right. split; [reflexivity|].
    eexists. split; [reflexivity|]. unfold notFound. discriminate. }
  destruct (findRow n (rows db)).
  2:{ injection H as <- <-. right. left.
      unfold Server.classify. rewrite notFound_says_not_found.
      repeat split. }
  destruct (fails E (S (tick db))).
  { injection H as <- <-. right. right. split; [reflexivity|].
    eexists. split; [reflexivity|]. unfold notFound. discriminate. }
  destruct (fails E (S (S (tick db)))).
  { injection H as <- <-. right. right. split; [reflexivity|].
    eexists. split; [reflexivity|]. unfold notFound. discriminate. }
  injection H as <- <-. left. eexists. split; reflexivity.
Qed.

Lemma update_end_to_end_witness :
  match Server.app_put Sample.sameSecond (decimal 2) Sample.padded
          Sample.seeded with
  | (Resolve r, _) =>
      exists m,
        Client.updateModule (withDates (fun t => t - 19800)) (Int 2)
          Sample.padded (deliver (fun _ => "OK") r)
        = Client.Returns (Server.One m)
        /\ prompt m = "Summarize:"
  | _ => False
  end.
Proof.
  destruct (Server.app_put Sample.sameSecond (decimal 2) Sample.padded
              Sample.seeded) as [[r|msg|] db'] eqn:H.
  - destruct (update_end_to_end (fun t => t - 19800) (fun _ => "OK")
                Sample.sameSecond 2 Sample.padded Sample.seeded r db'
                ltac:(unfold MAX_SAFE_INTEGER; lia) eq_refl eq_refl H)
      as [(m & Hc & Hu) | [(_ & Hd & _) | (_ & msg & Hd & _)]].
    + eexists. split; [exact Hc|].
      vm_compute in Hu. injection Hu as <- _. reflexivity.
    + vm_compute in Hd. discriminate Hd.
    + vm_compute in Hd. discriminate Hd.
  - vm_compute in H. discriminate H.
  - vm_compute in H. discriminate H.
Defined.

Lemma magnitude_no_digit (s : string) :
  startsWithDigit s = false -> Server.magnitude s = None.
Proof.
  intros H. destruct s as [|c r]; [reflexivity|].
  assert (G : Server.magnitude (String c r) = Server.digits 10 (String c r) None).
  { unfold Server.magnitude.
    destruct c as [[] [] [] [] [] [] [] []]; try reflexivity;
      simpl in H; discriminate H. }
  rewrite G. apply digits_stop, H.
Qed.

(** X22.  A path parameter that is empty, or starts with a printable
    ASCII character that is neither a digit nor a sign, or is a sign
    followed by no digit, parses to NaN, and zero or a negative integer
    in decimal parses to itself; for all of these PUT and DELETE answer
    400 "Valid module ID is required" and the database, its statement
    log included, is left as it was.  White space in front of the
    parameter is skipped. *)
Theorem non_numeric_path_id E body db :
  (forall s,
     s = ""
     \/ (exists c r, s = String c r /\ 32 < code c < 128
                     /\ c <> "-"%char /\ c <> "+"%char
                     /\ startsWithDigit s = false)
     \/ (exists r, (s = String "-" r \/ s = String "+" r)
                   /\ startsWithDigit r = false)
     \/ (exists z, z <= 0 /\ s = decimal z) ->
     (Server.parseInt s = NaN \/ exists z, z <= 0 /\ Server.parseInt s = Int z)
     /\ Server.app_put E s body db
        = (Resolve (Server.failure 400 "Valid module ID is required"), db)
     /\ Server.app_delete E s db
        = (Resolve (Server.failure 400 "Valid module ID is required"), db))
  /\ (forall c s, isWs1 c = true ->
        Server.parseInt (String c s) = Server.parseInt s).
Proof.
  split.
  - intros s H.
    assert (P : Server.parseInt s = NaN
                \/ exists z, z <= 0 /\ Server.parseInt s = Int z).
    { destruct H as [-> | [(c & r & -> & Hc & Hm & Hp & Hd)
                          | [(r & Hs & Hd) | (z & Hz & ->)]]].
      - left. reflexivity.
      - left. unfold Server.parseInt.
        rewrite (trimStart_printable c r Hc).
        assert (G : match String c r with
                    | String "-"%char r0 => (true, r0)
                    | String "+"%char r0 => (false, r0)
                    | _ => (false, String c r)
                    end = (false, String c r)).
        { destruct c as [[] [] [] [] [] [] [] []]; try reflexivity;
            congruence. }
        rewrite G, (magnitude_no_digit _ Hd). reflexivity.
      - left. unfold Server.parseInt.
        destruct Hs as [-> | ->];
          rewrite trimStart_printable by (vm_compute; split; reflexivity);
          cbv iota beta; rewrite (magnitude_no_digit _ Hd); reflexivity.
      - right. exists z. split; [exact Hz | apply parseInt_decimal]. }
    assert (G : isNaN (Server.parseInt s) || leZero (Server.parseInt s) = true).
    { destruct P as [-> | (z & Hz & ->)]; [reflexivity|].
      simpl. now apply Z.leb_le. }
    split; [exact P|].
    unfold Server.app_put, Server.app_delete, Server.app_deleteAmid.
    cbv zeta. rewrite G. split; reflexivity.
  - intros c s H. unfold Server.parseInt. cbn [trimStart]. rewrite H.
    reflexivity.
Qed.

Lemma non_numeric_path_id_witness :
  Server.app_delete Sample.sameSecond "abc" Sample.seeded
  = (Resolve (Server.failure 400 "Valid module ID is required"), Sample.seeded).
Proof.
  destruct (non_numeric_path_id Sample.sameSecond VNull Sample.seeded)
    as (H & _).
  apply (H "abc"). right. left. exists "a"%char, "bc".
  repeat split; try discriminate; vm_compute; reflexivity.
Defined.

End ClientMore.

(* ================================================================= *)
(** ** Trimming twice *)

Section Trimming.
Import Js Store Repo Seed Spec Inv.

Lemma string_length_ind (P : string -> Prop) :
  (forall s, (forall t, (String.length t < String.length s)%nat -> P t) -> P s) ->
  forall s, P s.
Proof.
  intros H s.
  assert (G : forall n t, (String.length t < n)%nat -> P t).
  { induction n as [|n IH]; intros t Ht; [lia|].
    apply H. intros u Hu. apply IH. lia. }
  apply (G (S (String.length s))). lia.
Qed.

Lemma trimStart_eq (c1 : ascii) (r1 : string) :
  trimStart (String c1 r1) =
    if isWs1 c1 then trimStart r1 else
    match r1 with
    | EmptyString => String c1 r1
    | String c2 r2 =>
        if isWs2 c1 c2 then trimStart r2 else
        match r2 with
        | EmptyString => String c1 r1
        | String c3 r3 =>
            if isWs3 c1 c2 c3 then trimStart r3 else String c1 r1
        end
    end.
Proof. reflexivity. Qed.

Lemma trimStart_shorter (s : string) :
  (String.length (trimStart s) <= String.length s)%nat.
Proof.
  induction s as [s IH] using string_length_ind.
  destruct s as [|c1 r1]; [reflexivity|]. rewrite trimStart_eq.
  destruct (isWs1 c1).
  { specialize (IH r1). simpl in *. lia. }
  destruct r1 as [|c2 r2]; [lia|].
  destruct (isWs2 c1 c2).
  { specialize (IH r2). simpl in *. lia. }
  destruct r2 as [|c3 r3]; [lia|].
  destruct (isWs3 c1 c2 c3); [|lia].
  specialize (IH r3). simpl in *. lia.
Qed.

Lemma trimStart_fixed (s : string) : trimStart (trimStart s) = trimStart s.
Proof.
  induction s as [s IH] using string_length_ind.
  destruct s as [|c1 r1]; [reflexivity|]. rewrite trimStart_eq.
  destruct (isWs1 c1) eqn:W1.
  { apply IH. simpl. lia. }
  destruct r1 as [|c2 r2].
  { rewrite trimStart_eq, W1. reflexivity. }
  destruct (isWs2 c1 c2) eqn:W2.
  { apply IH. simpl. lia. }
  destruct r2 as [|c3 r3].
  { rewrite trimStart_eq, W1, W2. reflexivity. }
  destruct (isWs3 c1 c2 c3) eqn:W3.
  { apply IH. simpl. lia. }
  rewrite trimStart_eq, W1, W2, W3. reflexivity.
Qed.

(** A string that trimStart leaves alone starts with no white space. *)
Lemma trimStart_fixed_inv (s : string) :
  trimStart s = s ->
  match s with
  | EmptyString => True
  | String c1 r1 =>
      isWs1 c1 = false
      /\ match r1 with
         | EmptyString => True
         | String c2 r2 =>
             isWs2 c1 c2 = false
             /\ match r2 with
                | EmptyString => True
                | String c3 _ => isWs3 c1 c2 c3 = false
                end
         end
  end.
Proof.
  destruct s as [|c1 r1]; [trivial|]. rewrite trimStart_eq. intros H.
  destruct (isWs1 c1).
  { pose proof (trimStart_shorter r1) as L. rewrite H in L. simpl in L. lia. }
  split; [reflexivity|].
  destruct r1 as [|c2 r2]; [trivial|].
  destruct (isWs2 c1 c2).
  { pose proof (trimStart_shorter r2) as L. rewrite H in L. simpl in L. lia. }
  split; [reflexivity|].
  destruct r2 as [|c3 r3]; [trivial|].
  destruct (isWs3 c1 c2 c3); [|reflexivity].
  pose proof (trimStart_shorter r3) as L. rewrite H in L. simpl in L. lia.
Qed.

(** White space in front of a string is skipped. *)
Lemma trimStart_append_blank (a b : string) :
  trimStart a = "" -> trimStart (a ++ b) = trimStart b.
Proof.
  induction a as [a IH] using string_length_ind.
  destruct a as [|c1 r1]; [reflexivity|].
  rewrite trimStart_eq. cbn [append]. rewrite trimStart_eq.
  destruct (isWs1 c1).
  { intros H. apply IH; [simpl; lia | exact H]. }
  destruct r1 as [|c2 r2]; [discriminate|]. cbn [append].
  destruct (isWs2 c1 c2).
  { intros H. apply IH; [simpl; lia | exact H]. }
  destruct r2 as [|c3 r3]; [discriminate|]. cbn [append].
  destruct (isWs3 c1 c2 c3); [|discriminate].
  intros H. apply IH; [simpl; lia | exact H].
Qed.

Lemma blank_spec (s : string) : blank s = true <-> trimStart s = "".
Proof. unfold blank. apply String.eqb_eq. Qed.

Lemma trimEnd_eq (c : ascii) (r : string) :
  trimEnd (String c r)
  = if blank (String c r) then "" else String c (trimEnd r).
Proof. reflexivity. Qed.

(** What trimEnd drops is white space. *)
Lemma trimEnd_split (s : string) :
  exists w, s = trimEnd s ++ w /\ trimStart w = "".
Proof.
  induction s as [|c r (w & Hr & Hw)]; [exists ""; auto|].
  rewrite trimEnd_eq. destruct (blank (String c r)) eqn:B.
  - exists (String c r). split; [reflexivity | apply blank_spec, B].
  - exists w. split; [|exact Hw]. cbn [append]. now rewrite <- Hr.
Qed.

Lemma trimEnd_fixed (s : string) : trimEnd (trimEnd s) = trimEnd s.
Proof.
  induction s as [|c r IH]; [reflexivity|].
  rewrite trimEnd_eq. destruct (blank (String c r)) eqn:B; [reflexivity|].
  rewrite trimEnd_eq, IH.
  destruct (blank (String c (trimEnd r))) eqn:B2; [|reflexivity].
  exfalso. destruct (trimEnd_split r) as (w & Hr & Hw).
  apply blank_spec in B2.
  pose proof (trimStart_append_blank (String c (trimEnd r)) w B2) as A.
  cbn [append] in A. rewrite <- Hr, Hw in A.
  apply blank_spec in A. congruence.
Qed.

Lemma trimStart_trimEnd (t : string) :
  trimStart t = t -> trimStart (trimEnd t) = trimEnd t.
Proof.
  intros H. destruct (trimEnd_split t) as (w & Ht & _).
  pose proof (trimStart_fixed_inv t H) as N. rewrite Ht in N.
  destruct (trimEnd t) as [|c1 [|c2 [|c3 u3]]]; cbn [append] in N.
  - reflexivity.
  - destruct N as (W1 & _). rewrite trimStart_eq, W1. reflexivity.
  - destruct N as (W1 & W2 & _). rewrite trimStart_eq, W1, W2. reflexivity.
  - destruct N as (W1 & W2 & W3). rewrite trimStart_eq, W1, W2, W3.
    reflexivity.
Qed.

Lemma trim_fixed (s : string) : trim (trim s) = trim s.
Proof.
  unfold trim.
  rewrite (trimStart_trimEnd (trimStart s) (trimStart_fixed s)).
  apply trimEnd_fixed.
Qed.

(** X23.  The prompt and the two names of a module that createModule
    or updateModule returns are trimmed: trimming them again changes
    nothing, so that data made of them pass validation and are stored
    as the same texts. *)
Theorem returned_texts_are_trimmed E i d db m db' :
  (createModule E d db = (Resolve m, db') /\ inv db)
  \/ updateModule E i d db = (Resolve m, db') ->
  trim (prompt m) = prompt m
  /\ trim (name (en m)) = name (en m)
  /\ trim (name (kn m)) = name (kn m)
  /\ nonEmptyAfterTrim (VStr (prompt m)) = true
  /\ nonEmptyAfterTrim (VStr (name (en m))) = true
  /\ nonEmptyAfterTrim (VStr (name (kn m))) = true.
Proof.
  intros H.
  assert (G : exists p e k,
             trim p <> "" /\ trim e <> "" /\ trim k <> ""
             /\ prompt m = trim p /\ name (en m) = trim e
             /\ name (kn m) = trim k).
  { assert (F : forall d0, validate d0 = None ->
                  exists p e k,
                    trim p <> "" /\ trim e <> "" /\ trim k <> ""
                    /\ p_prompt (paramsOf d0) = trim p
                    /\ p_en_name (paramsOf d0) = trim e
                    /\ p_kn_name (paramsOf d0) = trim k).
    { intros d0 V. destruct (validate_passed d0 V) as (p & e & k & Hp & He & Hk).
      destruct (validate_filled d0 V) as (Fp & Fe & Fk).
      unfold paramsOf in Fp, Fe, Fk |- *.
      cbn [p_prompt p_en_name p_kn_name] in Fp, Fe, Fk |- *.
      rewrite Hp in Fp. rewrite He in Fe. rewrite Hk in Fk.
      rewrite Hp, He, Hk. cbn [trimOf] in Fp, Fe, Fk |- *.
      exists p, e, k. repeat split; assumption. }
    destruct H as [(H & I) | H].
    - pose proof (resolved_is_valid E d db m db' H) as V.
      destruct (createModule_resolved E d db m db' I H) as (-> & _).
      exact (F d V).
    - destruct (invalidId i) eqn:Vi.
      { unfold updateModule in H. rewrite Vi in H. discriminate. }
      apply invalidId_spec in Vi. destruct Vi as (n & Hn & ->).
      destruct (validate d) as [msg|] eqn:V.
      { unfold updateModule in H.
        rewrite (positive_id_is_valid n Hn), V in H. discriminate. }
      rewrite (updateModule_run E n d db Hn V) in H.
      destruct (fails E (tick db)); [discriminate|].
      destruct (findRow n (rows db)) as [old|]; [|discriminate].
      destruct (fails E (S (tick db))); [discriminate|].
      destruct (fails E (S (S (tick db)))); [discriminate|].
      injection H as <- _. exact (F d V). }
  destruct G as (p & e & k & Tp & Te & Tk & -> & -> & ->).
  rewrite !trim_fixed. cbn [nonEmptyAfterTrim]. rewrite !trim_fixed.
  repeat split; apply negb_true_iff, String.eqb_neq; assumption.
Qed.

Lemma returned_texts_are_trimmed_witness :
  match createModule Sample.sameSecond Sample.padded emptyDb with
  | (Resolve m, _) => trim (prompt m) = prompt m
  | _ => False
  end.
Proof.
  destruct (createModule Sample.sameSecond Sample.padded emptyDb)
    as [[m|msg|] db'] eqn:H.
  - apply (returned_texts_are_trimmed Sample.sameSecond NaN Sample.padded
             emptyDb m db').
    left. split; [exact H | exact inv_empty].
  - vm_compute in H. discriminate H.
  - vm_compute in H. discriminate H.
Defined.

End Trimming.
